(** * prepare_full_dataset: landmark datasets to a YOLO corpus

    A shallow embedding of [prepare_full_dataset.py], the script that
    converts the Helen, Pexels, AFW, Menpo2D, LaPa and FASSEG annotations
    into one pool of images and YOLO label files plus train/val manifests.

    Conventions of the embedding.
    - A Python [str] is a list of characters ([str]); literals are written
      as Rocq strings and coerced.  Characters are bytes, a non-ASCII
      character being a byte above 127 of its UTF-8 encoding.
    - A Python float is a rational number ([Q]): the arithmetic of the
      script is read exactly, without binary rounding.  The one place where
      binary rounding changes an integer result, [int(train_pct * len(..))],
      is computed on the IEEE-754 double bit for bit.
    - An exception aborts the script: fallible code returns [option], and
      [None] stands for any uncaught exception.
    - A directory is the list of its entries in the order [os.listdir]
      returns them; the dataset folders hold files only.
    - What the script takes from Python, its libraries and the rest of the
      file system is a parameter of the embedding, the record [runtime]. *)

From Stdlib Require Import List Bool Arith ZArith QArith Qminmax Qround Lia Lqa.
From Stdlib Require Import Ascii String Permutation Sorted.
Import ListNotations.
Close Scope Q_scope.
Open Scope string_scope.
Open Scope list_scope.
Open Scope nat_scope.

Set Implicit Arguments.

(** ** Python strings *)

Definition str := list ascii.

Coercion list_ascii_of_string : string >-> list.

Module Str.

Definition eqb (a b : str) : bool :=
  if list_eq_dec ascii_dec a b then true else false.

(** [x in xs] for a list of strings. *)
Definition mem (x : str) (xs : list str) : bool := existsb (eqb x) xs.

(** [s.startswith(p)] *)
Fixpoint startswith (p s : str) : bool :=
  match p, s with
  | [], _ => true
  | c :: p', d :: s' => if Ascii.eqb c d then startswith p' s' else false
  | _ :: _, [] => false
  end.

(** [p in s] for two strings: [p] occurs somewhere in [s]. *)
Fixpoint contains (p s : str) : bool :=
  startswith p s ||
  match s with
  | [] => false
  | _ :: s' => contains p s'
  end.

(** [s.endswith(p)] *)
Definition endswith (p s : str) : bool := startswith (rev p) (rev s).

(** [s.split(sep)] for a non-empty separator.  [skip] counts the
    characters of a separator just matched that are still to be passed
    over; [cur] is the piece being read, reversed. *)
Fixpoint split_go (sep : str) (skip : nat) (cur : str) (s : str) : list str :=
  match s with
  | [] => [rev cur]
  | c :: s' =>
      match skip with
      | S k => split_go sep k cur s'
      | O =>
          if startswith sep s
          then rev cur :: split_go sep (List.length sep - 1) [] s'
          else split_go sep 0 (c :: cur) s'
      end
  end.

Definition split (sep s : str) : list str := split_go sep 0 [] s.

(** [s.replace(old, new)] for a non-empty [old], read as plain text. *)
Fixpoint replace_go (old new : str) (skip : nat) (s : str) : str :=
  match s with
  | [] => []
  | c :: s' =>
      match skip with
      | S k => replace_go old new k s'
      | O =>
          if startswith old s
          then new ++ replace_go old new (List.length old - 1) s'
          else c :: replace_go old new 0 s'
      end
  end.

Definition replace (old new s : str) : str := replace_go old new 0 s.

(** The white space of Python among the ASCII characters. *)
Definition is_space (c : ascii) : bool :=
  let n := nat_of_ascii c in
  ((9 <=? n) && (n <=? 13)) || ((28 <=? n) && (n <=? 32)).

Fixpoint lstrip (s : str) : str :=
  match s with
  | c :: s' => if is_space c then lstrip s' else s
  | [] => []
  end.

(** The white space beyond ASCII, by its UTF-8 bytes: U+0085 and U+00A0
    on two bytes; U+1680, U+2000 to U+200A, U+2028, U+2029, U+202F,
    U+205F and U+3000 on three. *)
Definition is_space2 (a b : ascii) : bool :=
  let m := nat_of_ascii a in
  let n := nat_of_ascii b in
  (m =? 194) && ((n =? 133) || (n =? 160)).

Definition is_space3 (a b c : ascii) : bool :=
  let l := nat_of_ascii a in
  let m := nat_of_ascii b in
  let n := nat_of_ascii c in
  ((l =? 225) && (m =? 154) && (n =? 128))
  || ((l =? 226) && (m =? 128)
      && (((128 <=? n) && (n <=? 138)) || (n =? 168) || (n =? 169) || (n =? 175)))
  || ((l =? 226) && (m =? 129) && (n =? 159))
  || ((l =? 227) && (m =? 128) && (n =? 128)).

(** The white space at the head of a reversed text is dropped. *)
Fixpoint rstrip_rev (r : str) : str :=
  match r with
  | [] => []
  | c :: r1 =>
      if is_space c then rstrip_rev r1
      else
        match r1 with
        | [] => r
        | b :: r2 =>
            if is_space2 b c then rstrip_rev r2
            else
              match r2 with
              | [] => r
              | a :: r3 => if is_space3 a b c then rstrip_rev r3 else r
              end
        end
  end.

(** [s.rstrip()] *)
Definition rstrip (s : str) : str := rev (rstrip_rev (rev s)).

Definition is_ascii_char (c : ascii) : bool := nat_of_ascii c <? 128.


Definition is_digit (c : ascii) : bool :=
  let n := nat_of_ascii c in (48 <=? n) && (n <=? 57).

Definition digit_val (c : ascii) : Z := (Z.of_nat (nat_of_ascii c) - 48)%Z.

Fixpoint digits_go (acc : Z) (s : str) : option Z :=
  match s with
  | [] => Some acc
  | c :: s' =>
      if is_digit c then digits_go (10 * acc + digit_val c)%Z s' else None
  end.

(** A non-empty run of decimal digits. *)
Definition digits (s : str) : option Z :=
  match s with
  | [] => None
  | _ => digits_go 0%Z s
  end.

(** [int(s)] on ASCII text: white space around an optional sign and
    decimal digits; anything else is a [ValueError]. *)
Definition int (s : str) : option Z :=
  match rev (lstrip (rev (lstrip s))) with
  | "-"%char :: s' => option_map Z.opp (digits s')
  | "+"%char :: s' => digits s'
  | s' => digits s'
  end.

(** Decimal rendering of a natural number, [str(n)]. *)
Fixpoint of_nat_go (fuel n : nat) (acc : str) : str :=
  match fuel with
  | O => acc
  | S f =>
      let d := ascii_of_nat (48 + n mod 10) in
      if n <? 10 then d :: acc else of_nat_go f (n / 10) (d :: acc)
  end.

Definition of_nat (n : nat) : str := of_nat_go (S n) n [].

(** Lexicographic order on code points, the order of [sorted]. *)
Fixpoint leb (a b : str) : bool :=
  match a, b with
  | [], _ => true
  | _ :: _, [] => false
  | c :: a', d :: b' =>
      let m := nat_of_ascii c in
      let n := nat_of_ascii d in
      if m <? n then true else if n <? m then false else leb a' b'
  end.

Fixpoint insert_sorted (x : str) (l : list str) : list str :=
  match l with
  | [] => [x]
  | y :: l' => if leb x y then x :: l else y :: insert_sorted x l'
  end.

(** [sorted(l)] *)
Definition sorted (l : list str) : list str := fold_right insert_sorted [] l.

End Str.

(** ** Paths: [os.path] on POSIX *)

Module Path.

Definition sep : ascii := "/"%char.
Definition extsep : ascii := "."%char.

(** The reversed string is cut at its first [c], that is the string at its
    last [c]: [Some (after, before)], both still reversed, or [None]
    when [c] does not occur. *)
Fixpoint rcut (c : ascii) (r : str) : option (str * str) :=
  match r with
  | [] => None
  | d :: r' =>
      if Ascii.eqb d c then Some ([], r')
      else match rcut c r' with
           | Some (a, b) => Some (d :: a, b)
           | None => None
           end
  end.

(** [os.path.basename(p)]: what follows the last slash. *)
Definition basename (p : str) : str :=
  match rcut sep (rev p) with
  | Some (a, _) => rev a
  | None => p
  end.

(** The directory part of [p] with its final slash, [p[:sepIndex+1]]. *)
Definition dirpart (p : str) : str :=
  match rcut sep (rev p) with
  | Some (_, b) => rev b ++ [sep]
  | None => []
  end.

(** [os.path.splitext] on one path component: the extension starts at
    the last dot, unless only dots come before it. *)
Definition splitext_name (f : str) : str * str :=
  match rcut extsep (rev f) with
  | Some (a, b) =>
      if forallb (Ascii.eqb extsep) b then (f, [])
      else (rev b, extsep :: rev a)
  | None => (f, [])
  end.

(** [os.path.splitext(p)] *)
Definition splitext (p : str) : str * str :=
  let (root, ext) := splitext_name (basename p) in
  (dirpart p ++ root, ext).

(** [os.path.join(a, b)] *)
Definition join (a b : str) : str :=
  if Str.startswith [sep] b then b
  else match a with
       | [] => b
       | _ => if Str.endswith [sep] a then a ++ b else a ++ sep :: b
       end.

Fixpoint drop_seps (r : str) : str :=
  match r with
  | c :: r' => if Ascii.eqb c sep then drop_seps r' else r
  | [] => []
  end.

(** [os.path.split(p)]: the head loses its final slashes unless it is made
    of slashes only. *)
Definition split (p : str) : str * str :=
  let head := dirpart p in
  (if forallb (Ascii.eqb sep) head then head else rev (drop_seps (rev head)),
   basename p).

(** The root [pathlib] reads at the head of a path: two slashes exactly
    stay two, any other run of slashes is one. *)
Definition root (p : str) : str :=
  match p with
  | "/"%char :: "/"%char :: "/"%char :: _ => [sep]
  | "/"%char :: "/"%char :: _ => [sep; sep]
  | "/"%char :: _ => [sep]
  | _ => []
  end.

Fixpoint unparts (l : list str) : str :=
  match l with
  | [] => []
  | [a] => a
  | a :: l' => a ++ sep :: unparts l'
  end.

(** [str(pathlib.Path(p))]: empty components and single dots are dropped. *)
Definition fspath (p : str) : str :=
  let parts :=
    filter (fun x => negb (Str.eqb x [] || Str.eqb x [extsep])) (Str.split [sep] p) in
  match root p ++ unparts parts with
  | [] => [extsep]
  | s => s
  end.

End Path.

(** ** The option monad: an exception aborts the run *)

Notation "x <- e ;; k" :=
  (match e with Some x => k | None => None end)
  (at level 61, e at next level, right associativity).

Notation "' p <- e ;; k" :=
  (match e with Some p => k | None => None end)
  (at level 61, p pattern, e at next level, right associativity).

Section Traverse.
Variables A B : Type.

(** A comprehension [[f(a) for a in l]] whose [f] may raise. *)
Fixpoint mapM (f : A -> option B) (l : list A) : option (list B) :=
  match l with
  | [] => Some []
  | a :: l' => b <- f a ;; bs <- mapM f l' ;; Some (b :: bs)
  end.

(** [enumerate(l)] *)
Definition enumerate (l : list A) : list (nat * A) :=
  combine (seq 0 (List.length l)) l.

End Traverse.

(** [range(a, b)] *)
Definition range (a b : nat) : list nat := seq a (b - a).

(** [l[start::2]] *)
Fixpoint every_other (A : Type) (take : bool) (l : list A) : list A :=
  match l with
  | [] => []
  | a :: l' => if take then a :: every_other false l' else every_other true l'
  end.

Definition slice_from_step2 (A : Type) (start : nat) (l : list A) : list A :=
  every_other true (skipn start l).

(** [l[a:-1]] *)
Definition slice_drop (A : Type) (a : nat) (l : list A) : list A :=
  removelast (skipn a l).

(** ** Numbers *)

Definition point := (Q * Q)%type.

(** One row of the [img_labels] frame, columns [class x y w h]. *)
Record row := Row { cls : nat; row_x : Q; row_y : Q; row_w : Q; row_h : Q }.

(** Rounding to the nearest integer, ties to the even one. *)
Definition round_half_even (q : Q) : Z :=
  let f := Qfloor q in
  match Qcompare (q - inject_Z f) (1 # 2) with
  | Lt => f
  | Gt => (f + 1)%Z
  | Eq => if Z.even f then f else (f + 1)%Z
  end.

(** [round(q, 6)] *)
Definition round6 (q : Q) : Q :=
  Qmake (round_half_even (q * inject_Z 1000000)) 1000000.

(** [DataFrame.round(6)]: the integer column is left alone. *)
Definition round_row (r : row) : row :=
  Row (cls r) (round6 (row_x r)) (round6 (row_y r))
      (round6 (row_w r)) (round6 (row_h r)).

Definition minimum (l : list Q) : option Q :=
  match l with
  | [] => None
  | q :: l' => Some (fold_left Qmin l' q)
  end.

Definition maximum (l : list Q) : option Q :=
  match l with
  | [] => None
  | q :: l' => Some (fold_left Qmax l' q)
  end.

(** Modelled from the spec: [points_to_yolo] of the repository's [utils]
    module, which is not among the sources.  Section 4.1: the axis-aligned
    bounding box of the contour, [x_min, y_min, x_max, y_max] the minima and
    maxima of the points' coordinates, then
    [x_center = (x_min + x_max) / 2 / W], [y_center = (y_min + y_max) / 2 / H],
    [w = (x_max - x_min) / W], [h = (y_max - y_min) / H].  The call sites fix
    the argument order and show that the record is appended to the frame
    passed first; an empty contour is outside the contract and raises. *)
Definition points_to_yolo (img_labels : list row) (contour : list point)
    (part_id : nat) (img_h img_w : Z)
  : option (list row * (Q * Q * Q * Q)) :=
  x_min <- minimum (map fst contour) ;;
  x_max <- maximum (map fst contour) ;;
  y_min <- minimum (map snd contour) ;;
  y_max <- maximum (map snd contour) ;;
  let x := ((x_min + x_max) / 2 / inject_Z img_w)%Q in
  let y := ((y_min + y_max) / 2 / inject_Z img_h)%Q in
  let w := ((x_max - x_min) / inject_Z img_w)%Q in
  let h := ((y_max - y_min) / inject_Z img_h)%Q in
  Some (img_labels ++ [Row part_id x y w h], (x, y, w, h)).

(** ** Part tables *)

(** A dict from part name to its contours (lists of landmark indices), in
    insertion order. *)
Definition part_table := list (str * list (list nat)).

Definition jaw : str := "jaw".
Definition eye : str := "eye".
Definition nose : str := "nose".
Definition mouth : str := "mouth".
Definition eyebrow : str := "eyebrow".

(** [d.keys()] *)
Definition keys (V : Type) (d : list (str * V)) : list str := map fst d.

(** [d[k]], a [KeyError] when [k] is absent. *)
Fixpoint lookup (V : Type) (k : str) (d : list (str * V)) : option V :=
  match d with
  | [] => None
  | (k', v) :: d' => if Str.eqb k k' then Some v else lookup k d'
  end.

Definition part_points_helen : part_table :=
  [ (jaw, [range 0 41]);
    (eye, [range 114 134; range 134 154]);
    (nose, [range 41 58 ++ [154; 174]]);
    (mouth, [range 58 114]);
    (eyebrow, [range 154 174; range 174 194]) ].

Definition use_parts : list str :=
  filter (fun p => negb (Str.eqb p jaw)) (keys part_points_helen).

Definition part_points_afw : part_table :=
  [ (jaw, [range 0 17]);
    (eye, [range 36 42; range 42 48]);
    (nose, [range 27 36 ++ [21; 22]]);
    (mouth, [range 48 68]);
    (eyebrow, [range 17 22; range 22 27]) ].

Definition semifrontal : str := "semifrontal".
Definition profile : str := "profile".

Definition part_points_menpo : list (str * part_table) :=
  [ (semifrontal, part_points_afw);
    (profile, [ (jaw, [range 0 12]);
                (eye, [range 22 27]);
                (nose, [range 16 22]);
                (mouth, [range 27 39]);
                (eyebrow, [range 12 16]) ]) ].

Definition part_points_lapa : part_table :=
  [ (jaw, [range 0 33]);
    (eyebrow, [range 33 42; range 42 51]);
    (nose, [range 51 66]);
    (eye, [range 66 75; range 75 84]);
    (mouth, [range 84 104]) ].

Definition exclude_prefix : list str :=
  map list_ascii_of_string ["HELEN_"; "IBUG_"; "AFW_"; "LFPW_"].

(** The [names] entry of [data.yaml]:
    [{i: p for i, p in enumerate(use_parts)}]. *)
Definition yaml_names : list (nat * str) := enumerate use_parts.

(** ** Files *)

Inductive file :=
| Image (height width : Z) (pixels : nat)
| Text (lines : list str).

(** A directory: its entries in [os.listdir] order. *)
Definition dir := list (str * file).

(** ** What the script takes from Python, its libraries and the system *)

Record runtime := Runtime {
  (** [float(s)], [None] for a [ValueError] *)
  float : str -> option Q;
  (** [int(s)], [None] for a [ValueError] *)
  int : str -> option Z;
  (** what [Series.str.replace(pat, repl)] of pandas makes of one value:
      arguments [pat], [repl], value *)
  str_replace : str -> str -> str -> str;
  (** the text [to_csv] writes for a float *)
  float_repr : Q -> str;
  (** the line [to_csv] writes for a row of one string, without its
      newline: the string, quoted when the comma dialect asks for it *)
  csv_field : str -> str;
  (** column 0 of [pd.read_csv(f, header=None)] for a file of these lines;
      [None] when [read_csv] raises, as on a file without a name, and when
      a cell is no string, on which [fill_img_ext] raises *)
  read_csv_names : list str -> option (list str);
  (** [unidecode.unidecode] *)
  unidecode : str -> str;
  (** [fnmatch.filter(names, pat)] *)
  fnmatch_filter : list str -> str -> list str;
  (** [glob.glob(pathname)] for a pattern that looks outside the folders
      of the input *)
  glob_other : str -> list str;
  (** the file at a path that is not spelled as a folder of the input
      joined to the name of an entry *)
  file_at : str -> option file;
  (** the state of the module-level generator of [random] *)
  rng : Type;
  (** the state [random.seed(420)] leaves *)
  seed_420 : rng;
  (** [random._randbelow(n)]: a draw below [n] and the next state *)
  randbelow : rng -> nat -> nat * rng;
  (** the order in which a [set] of these strings is iterated, which
      follows the hashes of the strings and so the hash seed of the
      interpreter *)
  set_order : list str -> list str
}.

(** ** Reading and writing files *)

Definition listdir (d : dir) : list str := keys d.

(** Writing [f] under [name] replaces an older entry of that name. *)
Definition fs_write (name : str) (f : file) (d : dir) : dir :=
  (name, f) :: filter (fun e => negb (Str.eqb name (fst e))) d.

(** [shutil.copy(src, dst)], a [FileNotFoundError] when [src] is absent. *)
Definition copy (src_dir : dir) (src dst : str) (dst_dir : dir) : option dir :=
  f <- lookup src src_dir ;; Some (fs_write dst f dst_dir).

(** [cv2.imread(path).shape[:2]]; [imread] gives [None] for a file that is
    absent or no image, and [.shape] then raises. *)
Definition imread_shape (d : dir) (name : str) : option (Z * Z) :=
  match lookup name d with
  | Some (Image h w _) => Some (h, w)
  | _ => None
  end.

(** The same for a file at hand. *)
Definition image_shape (f : file) : option (Z * Z) :=
  match f with
  | Image h w _ => Some (h, w)
  | Text _ => None
  end.

(** [[l.rstrip() for l in f.readlines()]] *)
Definition readlines_rstrip (f : file) : option (list str) :=
  match f with
  | Text ls => Some (map Str.rstrip ls)
  | Image _ _ _ => None
  end.

Definition open_lines (d : dir) (name : str) : option (list str) :=
  f <- lookup name d ;; readlines_rstrip f.

(** The unified pool: [Face-Parts-Dataset/images] and [.../labels]. *)
Record pool := Pool { pool_images : dir; pool_labels : dir }.

Definition empty_pool : pool := Pool [] [].

Section FoldM.
Variables S A : Type.

(** A [for] loop over [l] threading a state, aborted by an exception. *)
Fixpoint foldM (f : S -> A -> option S) (l : list A) (s : S) : option S :=
  match l with
  | [] => Some s
  | a :: l' => s' <- f s a ;; foldM f l' s'
  end.

End FoldM.

(** ** Landmarks to label rows *)

Section Contours.
Variable get_point : nat -> option point.
Variables img_h img_w : Z.

(** [for idxs in part_points[part_name]: ...] *)
Fixpoint contours_loop (part_id : nat) (contours : list (list nat))
    (img_labels : list row) : option (list row) :=
  match contours with
  | [] => Some img_labels
  | idxs :: rest =>
      contour <- mapM get_point idxs ;;
      '(img_labels', _) <- points_to_yolo img_labels contour part_id img_h img_w ;;
      contours_loop part_id rest img_labels'
  end.

(** [for part_id, part_name in enumerate(use_parts): ...] *)
Fixpoint parts_loop (table : part_table) (parts : list (nat * str))
    (img_labels : list row) : option (list row) :=
  match parts with
  | [] => Some img_labels
  | (part_id, part_name) :: rest =>
      contours <- lookup part_name table ;;
      img_labels' <- contours_loop part_id contours img_labels ;;
      parts_loop table rest img_labels'
  end.

(** The frame [img_labels] once the two loops are through. *)
Definition image_labels (table : part_table) : option (list row) :=
  parts_loop table (enumerate use_parts) [].

End Contours.

Definition space : str := " ".

Fixpoint join (sep : str) (l : list str) : str :=
  match l with
  | [] => []
  | [a] => a
  | a :: l' => a ++ sep ++ join sep l'
  end.

Section Rows.
Variable R : runtime.

(** [x, y = [float(c) for c in p.split(sep)]] *)
Definition parse_point (sep p : str) : option point :=
  cs <- mapM (float R) (Str.split sep p) ;;
  match cs with
  | [x; y] => Some (x, y)
  | _ => None
  end.

(** The point of landmark line [i]. *)
Definition line_point (sep : str) (lines : list str) (i : nat) : option point :=
  p <- nth_error lines i ;; parse_point sep p.

(** The point [(x_points[j], y_points[j])]. *)
Definition xy_point (x_points y_points : list Q) (j : nat) : option point :=
  x <- nth_error x_points j ;; y <- nth_error y_points j ;; Some (x, y).

Definition csv_line (r : row) : str :=
  join space [Str.of_nat (cls r); float_repr R (row_x r); float_repr R (row_y r);
              float_repr R (row_w r); float_repr R (row_h r)].

(** [img_labels.round(6).to_csv(dest, header=False, index=False, sep=" ")]:
    the lines of the file written, one per row, each ended by a newline. *)
Definition to_csv_rounded (img_labels : list row) : file :=
  Text (map csv_line (map round_row img_labels)).

End Rows.

(** ** Shuffling and splitting *)

Section Shuffle.
Variable R : runtime.
Variable A : Type.

Fixpoint set_nth (i : nat) (a : A) (l : list A) : list A :=
  match l, i with
  | [], _ => []
  | _ :: l', O => a :: l'
  | b :: l', S i' => b :: set_nth i' a l'
  end.

(** [x[i], x[j] = x[j], x[i]]; both indices are in range wherever the
    shuffle calls it. *)
Definition swap (i j : nat) (x : list A) : list A :=
  match nth_error x i, nth_error x j with
  | Some a, Some b => set_nth j a (set_nth i b x)
  | _, _ => x
  end.

(** [for i in reversed(range(1, len(x))): j = randbelow(i + 1); swap].
    The draw is reduced below [i + 1], which changes nothing for a
    generator that keeps the bound of [_randbelow]. *)
Fixpoint shuffle_loop (i : nat) (x : list A) (s : rng R) : list A * rng R :=
  match i with
  | O => (x, s)
  | S i' =>
      let (j, s') := randbelow R s (S i) in
      shuffle_loop i' (swap i (j mod S i) x) s'
  end.

(** [random.shuffle(x)] *)
Definition shuffle (x : list A) (s : rng R) : list A * rng R :=
  shuffle_loop (List.length x - 1) x s.

End Shuffle.

(** The double nearest to 0.7 is [double_0_7 / 2^53]. *)
Definition double_0_7 : Z := 6305039478318694.

(** The integer [m] is rounded to 53 significant bits, ties to even: the
    result is [fst * 2^snd]. *)
Definition round_53 (m : Z) : Z * Z :=
  let shift := (Z.log2 m + 1 - 53)%Z in
  if (shift <=? 0)%Z then (m, 0%Z)
  else
    let q := Z.shiftr m shift in
    let r := Z.land m (Z.ones shift) in
    let half := Z.shiftl 1 (shift - 1) in
    let q' := match Z.compare r half with
              | Lt => q
              | Gt => (q + 1)%Z
              | Eq => if Z.even q then q else (q + 1)%Z
              end in
    (q', shift).

(** [int(train_pct * n)] with [train_pct = 0.7]: the product of the two
    doubles, rounded as IEEE-754 does, then truncated. *)
Definition train_size (n : nat) : nat :=
  let (q, shift) := round_53 (double_0_7 * Z.of_nat n) in
  Z.to_nat (Z.shiftr (Z.shiftl q shift) 53).

(** ** The input tree *)

Record helen_dataset := Helen {
  helen_images : dir;
  helen_annotations : dir;
  (** the lines of [trainnames.txt] and of [testnames.txt] *)
  helen_trainnames : list str;
  helen_testnames : list str
}.

(** One entry of [Pexels-face-parts]: its [annotations/obj_train_data] and
    its [images]. *)
Record pexels_set := PexelsSet {
  pexels_annotations : dir;
  pexels_images : dir
}.

(** [Menpo2D/Train] and [Menpo2D/Test], entries keyed by the path relative
    to the split folder. *)
Record menpo_dataset := Menpo {
  menpo_Train : dir;
  menpo_Test : dir
}.

Record lapa_split := LapaSplit {
  lapa_images : dir;
  lapa_landmarks : dir
}.

Record lapa_dataset := Lapa {
  lapa_train : lapa_split;
  lapa_val : lapa_split
}.

Record fasseg_dataset := Fasseg {
  fasseg_annotations : dir;
  fasseg_images : dir;
  (** the rows of [split_info.csv]: columns [image] and [is_train] *)
  fasseg_split_info : list (str * Z)
}.

Record input := Input {
  in_helen : helen_dataset;
  in_pexels : list (str * pexels_set);
  in_afw : dir;
  in_menpo : menpo_dataset;
  in_lapa : lapa_dataset;
  in_fasseg : fasseg_dataset
}.

(** ** Part 1: Helen *)

(** One row of [img_face_df]. *)
Record face_row := FaceRow { img_name : str; img_id : str; face_id : Z }.

Definition underscore : str := "_".
Definition dot_jpg : str := ".jpg".
Definition dot_txt : str := ".txt".

(** [img_name.split("_")[0]] *)
Definition name_img_id (name : str) : str := nth 0 (Str.split underscore name) [].

(** [astype(int)] stores 64-bit integers: a larger one is an
    [OverflowError]. *)
Definition int64 (z : Z) : option Z :=
  if ((- 2 ^ 63 <=? z) && (z <? 2 ^ 63))%Z then Some z else None.

(** [img_name.split("_")[1].replace(".jpg", "")] as an integer of the
    column [face_id]; a name without underscore has no second piece, and
    the conversion raises. *)
Definition name_face_id (R : runtime) (name : str) : option Z :=
  f <- nth_error (Str.split underscore name) 1 ;;
  z <- int R (str_replace R dot_jpg [] f) ;;
  int64 z.

(** The frame [img_face_df]; the column of an empty listing holds no
    string, and [.str] raises on it. *)
Definition img_face_df (R : runtime) (listing : list str) : option (list face_row) :=
  match listing with
  | [] => None
  | _ =>
      mapM (fun name =>
              f <- name_face_id R name ;; Some (FaceRow name (name_img_id name) f))
           (Str.sorted listing)
  end.

Definition str_eq_dec : forall a b : str, {a = b} + {a <> b} :=
  list_eq_dec ascii_dec.

(** [groupby(['img_id']).size()]: every [img_id] with the number of rows
    that carry it. *)
Definition face_counts (df : list face_row) : list (str * nat) :=
  let ids := map img_id df in
  map (fun g => (g, count_occ str_eq_dec ids g)) (Str.sorted (nodup str_eq_dec ids)).

Definition imgs_multi_faces (df : list face_row) : list str :=
  map fst (filter (fun gc => 1 <? snd gc) (face_counts df)).

Definition skip_imgs_df (df : list face_row) : list face_row :=
  filter (fun r => Str.mem (name_img_id (img_name r)) (imgs_multi_faces df)
                   || (1 <? face_id r)%Z) df.

(** [skip_imgs] of the images folder of Helen. *)
Definition helen_skip_imgs (R : runtime) (listing : list str) : option (list str) :=
  df <- img_face_df R listing ;; Some (map img_name (skip_imgs_df df)).

Section Passes.
Variable R : runtime.

Definition helen_sep : str := " , ".

(** The body of the loop over the annotation files. *)
Definition helen_annotation (images : dir) (skip_imgs : list str)
    (P : pool) (ann : str * file) : option pool :=
  all_lines <- readlines_rstrip (snd ann) ;;
  match all_lines with
  | [] => None
  | first :: lines =>
      let img_name := first ++ dot_jpg in
      if Str.mem img_name skip_imgs then Some P
      else
        '(img_h, img_w) <- imread_shape images img_name ;;
        img_labels <- image_labels (line_point R helen_sep lines) img_h img_w
                        part_points_helen ;;
        images' <- copy images img_name img_name (pool_images P) ;;
        Some (Pool images'
                (fs_write (fst (Path.splitext img_name) ++ dot_txt)
                   (to_csv_rounded R img_labels) (pool_labels P)))
  end.

Definition helen_pass (H : helen_dataset) (P : pool) : option (pool * list str) :=
  skip_imgs <- helen_skip_imgs R (listdir (helen_images H)) ;;
  P' <- foldM (helen_annotation (helen_images H) skip_imgs) (helen_annotations H) P ;;
  Some (P', skip_imgs).

(** ** Part 2: Pexels *)

(** The body of the loop over the label files of one set; the state is the
    pool and [pexels_names]. *)
Definition pexels_label (s : pexels_set) (st : pool * list str) (l : str)
  : option (pool * list str) :=
  let (P, pexels_names) := st in
  let file_name_cleaned := unidecode R (fst (Path.splitext l)) in
  images' <- copy (pexels_images s) (fst (Path.splitext l) ++ dot_jpg)
               (file_name_cleaned ++ dot_jpg) (pool_images P) ;;
  labels' <- copy (pexels_annotations s) l (file_name_cleaned ++ dot_txt)
               (pool_labels P) ;;
  Some (Pool images' labels', pexels_names ++ [file_name_cleaned]).

Definition pexels_copy (sets : list (str * pexels_set)) (P : pool)
  : option (pool * list str) :=
  foldM (fun st s => foldM (pexels_label (snd s)) (listdir (pexels_annotations (snd s))) st)
        sets (P, []).

(** [names[:train_size]] and [names[train_size:]] for
    [train_size = int(train_pct * len(names))]. *)
Definition split_names (names : list str) : list str * list str :=
  let k := train_size (List.length names) in
  (firstn k names, skipn k names).

(** ** Part 3: AFW *)

Definition star : str := "*".
Definition dot : str := ".".

Definition wildcard (c : ascii) : bool :=
  Ascii.eqb c "*" || Ascii.eqb c "?" || Ascii.eqb c "[".

(** [glob.has_magic(p)] *)
Definition has_magic (p : str) : bool := existsb wildcard p.

(** [name] is [pre], then anything, then [suf]. *)
Definition star_match (pre suf name : str) : bool :=
  Str.startswith pre name && Str.endswith suf name
  && (List.length pre + List.length suf <=? List.length name).

(** [glob.glob(os.path.join(folder, pre + "*" + suf))], the folder at path
    [folder] holding the entries [d].  [glob] cuts the pattern at its last
    slash.  When what comes before is the folder as it is spelled, without
    wildcard, the names of the folder are filtered by [fnmatch], a name
    with a leading dot being left out unless the pattern has one, and each
    match comes back joined to the folder.  Any other pattern is looked up
    outside the folder. *)
Definition glob (folder : str) (d : dir) (pre suf : str) : list str :=
  let pathname := Path.join folder (pre ++ star ++ suf) in
  let (dirname, basename) := Path.split pathname in
  if has_magic dirname || negb (Str.eqb dirname folder) then glob_other R pathname
  else
    let names := if Str.startswith dot basename then listdir d
                 else filter (fun x => negb (Str.startswith dot x)) (listdir d) in
    map (Path.join dirname) (fnmatch_filter R names basename).

(** The file a path names: an entry of the folder when the path is the
    folder joined to the name of the entry, else what the file system
    holds there. *)
Definition file_of (folder : str) (d : dir) (p : str) : option file :=
  match lookup p (map (fun e => (Path.join folder (fst e), snd e)) d) with
  | Some f => Some f
  | None => file_at R p
  end.

(** What the script opens for a path [p] that [glob] returned:
    [os.path.join(path_afw_dataset, p)]. *)
Definition afw_file (folder : str) (d : dir) (p : str) : option file :=
  file_of folder d (Path.join folder p).

Definition dot_pts : str := ".pts".

(** [list(set([os.path.basename(f).split("_")[0] for f in afw_images]))] *)
Definition afw_names (folder : str) (afw : dir) : list str :=
  set_order R (map (fun f => name_img_id (Path.basename f)) (glob folder afw [] dot_jpg)).

(** The body of the loop over the images of one group; the state is the
    pool and the variables [img_h], [img_w].  [img_name] and the entries of
    [grouped_points] are paths as [glob] returns them, and the script joins
    the folder to them once more. *)
Definition afw_face (folder : str) (afw : dir) (n : str) (grouped_points : list str)
    (st : pool * (Z * Z)) (ie : nat * str) : option (pool * (Z * Z)) :=
  let (P, shape) := st in
  let (i, img_name) := ie in
  img <- afw_file folder afw img_name ;;
  let images' := fs_write (n ++ dot_jpg) img (pool_images P) in
  pts <- nth_error grouped_points i ;;
  f <- afw_file folder afw pts ;;
  all_lines <- readlines_rstrip f ;;
  let lines := slice_drop 3 all_lines in
  '(img_h, img_w) <- (if i =? 0 then image_shape img else Some shape) ;;
  img_labels <- image_labels (line_point R space lines) img_h img_w part_points_afw ;;
  Some (Pool images'
          (fs_write (n ++ dot_txt) (to_csv_rounded R img_labels) (pool_labels P)),
        (img_h, img_w)).

Definition afw_group (folder : str) (afw : dir) (st : pool * (Z * Z)) (n : str)
  : option (pool * (Z * Z)) :=
  let grouped_images := glob folder afw n dot_jpg in
  let grouped_points := glob folder afw n dot_pts in
  foldM (afw_face folder afw n grouped_points) (enumerate grouped_images) st.

Definition afw_pass (folder : str) (afw : dir) (names : list str) (st : pool * (Z * Z))
  : option (pool * (Z * Z)) :=
  foldM (afw_group folder afw) names st.

(** ** Part 4: Menpo2D *)

Definition to_lower (c : ascii) : ascii :=
  let n := nat_of_ascii c in
  if (65 <=? n) && (n <=? 90) then ascii_of_nat (n + 32) else c.

Definition to_upper (c : ascii) : ascii :=
  let n := nat_of_ascii c in
  if (97 <=? n) && (n <=? 122) then ascii_of_nat (n - 32) else c.

(** [s.lower()] and [s.capitalize()] on ASCII letters *)
Definition lower (s : str) : str := map to_lower s.

Definition capitalize (s : str) : str :=
  match s with
  | [] => []
  | c :: s' => to_upper c :: lower s'
  end.

Definition Train : str := "Train".
Definition Test : str := "Test".

(** One entry of [menpo2D_split_data]. *)
Record split_dict := SplitDict {
  split_images : list str;
  split_landmarks : list (list str)
}.

Definition menpo_split_dir (M : menpo_dataset) (s : str) : option dir :=
  if Str.eqb s Train then Some (menpo_Train M)
  else if Str.eqb s Test then Some (menpo_Test M)
  else None.

Definition menpo_list_name (img_type s : str) : str :=
  "Menpo2D_" ++ img_type ++ underscore ++ lower s ++ dot_txt.

(** The body of [for img_type in ['profile', 'semifrontal']]. *)
Definition menpo_read_list (d : dir) (s : str) (acc : split_dict) (img_type : str)
  : option split_dict :=
  lines <- open_lines d (menpo_list_name img_type s) ;;
  Some (SplitDict
          (split_images acc
             ++ map (fun l => nth 0 (Str.split space (Str.rstrip l)) []) lines)
          (split_landmarks acc
             ++ map (fun l => tl (Str.split space (Str.rstrip l))) lines)).

(** [menpo2D_split_data], keyed by the lower-case split name. *)
Definition menpo2D_split_data (M : menpo_dataset) : option (list (str * split_dict)) :=
  mapM (fun s =>
          d <- menpo_split_dir M s ;;
          sd <- foldM (menpo_read_list d s) [profile; semifrontal] (SplitDict [] []) ;;
          Some (lower s, sd))
       [Train; Test].

(** [[os.path.splitext(os.path.basename(f))[0] for f in images]] *)
Definition menpo_names (sd : split_dict) : list str :=
  map (fun f => fst (Path.splitext (Path.basename f))) (split_images sd).

(** The body of the loop over the images of one split. *)
Definition menpo_image (d : dir) (landmarks : list (list str)) (P : pool)
    (ie : nat * str) : option pool :=
  let (i, img_path) := ie in
  images' <- copy d img_path (Path.basename img_path) (pool_images P) ;;
  lmks <- nth_error landmarks i ;;
  img_landmarks <- mapM (float R) lmks ;;
  let x_points := slice_from_step2 14 img_landmarks in
  let y_points := slice_from_step2 15 img_landmarks in
  let img_type := if List.length x_points =? 39 then profile else semifrontal in
  '(img_h, img_w) <- imread_shape d img_path ;;
  table <- lookup img_type part_points_menpo ;;
  img_labels <- image_labels (xy_point x_points y_points) img_h img_w table ;;
  let label_name := fst (Path.splitext (Path.basename img_path)) in
  Some (Pool images'
          (fs_write (label_name ++ dot_txt) (to_csv_rounded R img_labels)
             (pool_labels P))).

Definition menpo_split (M : menpo_dataset) (P : pool) (entry : str * split_dict)
  : option pool :=
  let (split_name, split_data) := entry in
  d <- menpo_split_dir M (capitalize split_name) ;;
  foldM (menpo_image d (split_landmarks split_data))
        (enumerate (split_images split_data)) P.

Definition menpo_pass (M : menpo_dataset) (P : pool)
  : option (pool * list str * list str) :=
  data <- menpo2D_split_data M ;;
  train <- lookup (lower Train) data ;;
  test <- lookup (lower Test) data ;;
  P' <- foldM (menpo_split M) data P ;;
  Some (P', menpo_names train, menpo_names test).

(** ** Part 5: LaPa *)

(** [[f for f in split_images if not any([n in f for n in exclude_prefix])]] *)
Definition lapa_filter (split_images : list str) : list str :=
  filter (fun f => negb (existsb (fun n => Str.contains n f) exclude_prefix))
         split_images.

(** The body of the loop over the images of one split; the state is the
    pool and the name list of the split. *)
Definition lapa_image (L : lapa_split) (st : pool * list str) (img_name : str)
  : option (pool * list str) :=
  let (P, names) := st in
  images' <- copy (lapa_images L) img_name img_name (pool_images P) ;;
  '(img_h, img_w) <- imread_shape (lapa_images L) img_name ;;
  all_lines <- open_lines (lapa_landmarks L)
                 (nth 0 (Str.split dot img_name) [] ++ dot_txt) ;;
  match all_lines with
  | [] => None
  | num_landmarks :: lines =>
      img_labels <- image_labels (line_point R space lines) img_h img_w
                      part_points_lapa ;;
      let label_name := fst (Path.splitext img_name) in
      Some (Pool images'
              (fs_write (label_name ++ dot_txt) (to_csv_rounded R img_labels)
                 (pool_labels P)),
            names ++ [label_name])
  end.

(** The images of a split that are walked: the training split is filtered. *)
Definition lapa_split_images (is_train : bool) (L : lapa_split) : list str :=
  if is_train then lapa_filter (listdir (lapa_images L))
  else listdir (lapa_images L).

Definition lapa_pass (D : lapa_dataset) (P : pool)
  : option (pool * list str * list str) :=
  '(P1, lapa_train_names) <-
     foldM (lapa_image (lapa_train D)) (lapa_split_images true (lapa_train D)) (P, []) ;;
  '(P2, lapa_val_names) <-
     foldM (lapa_image (lapa_val D)) (lapa_split_images false (lapa_val D)) (P1, []) ;;
  Some (P2, lapa_train_names, lapa_val_names).

(** ** Part 6: FASSEG *)

Definition dot_bmp : str := ".bmp".

Definition fasseg_label (F : fasseg_dataset) (st : pool * list str) (l : str)
  : option (pool * list str) :=
  let (P, fasseg_names) := st in
  let file_name := fst (Path.splitext l) in
  images' <- copy (fasseg_images F) (file_name ++ dot_bmp) (file_name ++ dot_bmp)
               (pool_images P) ;;
  labels' <- copy (fasseg_annotations F) l (file_name ++ dot_txt) (pool_labels P) ;;
  Some (Pool images' labels', fasseg_names ++ [file_name]).

Definition fasseg_copy (F : fasseg_dataset) (P : pool) : option (pool * list str) :=
  foldM (fasseg_label F) (listdir (fasseg_annotations F)) (P, []).

Definition fasseg_split (F : fasseg_dataset) (flag : Z) : list str :=
  map fst (filter (fun r => (snd r =? flag)%Z) (fasseg_split_info F)).

(** ** Part 7: the manifests *)

Definition images_dir : str := "images".
Definition labels_dir : str := "labels".

Definition fill_img_ext (path_data x ext : str) : str :=
  if List.length (snd (Path.splitext x)) =? 0
  then Path.join (Path.join path_data images_dir) (x ++ ext)
  else Path.join (Path.join path_data images_dir) x.

(** The rows of [names] that survive [~names[0].isin(skip)]. *)
Definition kept_names (names skip : list str) : list str :=
  filter (fun x => negb (Str.mem x skip)) names.

(** The path [names[2]] holds for the name [x]. *)
Definition label_path (path_data x : str) : str :=
  Path.join (Path.join path_data labels_dir) (fst (Path.splitext x) ++ dot_txt).

(** [process_names]: the lines of [images.txt] and of [labels.txt], each
    the one field of its row as [to_csv] writes it. *)
Definition process_names (names : list str) (path_data : str) (skip : list str)
  : list str * list str :=
  (map (fun x => csv_field R (fill_img_ext path_data x dot_jpg)) (kept_names names skip),
   map (fun x => csv_field R (label_path path_data x)) (kept_names names skip)).

(** What a run leaves on disk. *)
Record output := Output {
  out_pool : pool;
  (** the identifiers behind [split/.../train] and [split/.../val] *)
  train_manifest : list str;
  val_manifest : list str;
  train_txt : list str * list str;
  val_txt : list str * list str;
  data_yaml_names : list (nat * str)
}.

Definition afw_folder : str := "AFW-dataset".
Definition processed_folder : str := "Face-Parts-Dataset".

(** The script, from [random.seed(420)] to the dump of [data.yaml].
    [path_processed_dataset] is a [pathlib.Path], and what [process_names]
    joins to is its text. *)
Definition main (path_datasets : str) (I : input) : option output :=
  let path_afw_dataset := Path.join path_datasets afw_folder in
  let path_processed_dataset := Path.fspath (Path.join path_datasets processed_folder) in
  '(P1, skip_imgs) <- helen_pass (in_helen I) empty_pool ;;
  '(P2, pexels_names) <- pexels_copy (in_pexels I) P1 ;;
  let (pexels_names, s1) := shuffle R pexels_names (seed_420 R) in
  let (pexels_train_names, pexels_val_names) := split_names pexels_names in
  let (afw_names, s2) := shuffle R (afw_names path_afw_dataset (in_afw I)) s1 in
  let (afw_train_names, afw_val_names) := split_names afw_names in
  '(P3, _) <- afw_pass path_afw_dataset (in_afw I) afw_names (P2, (0%Z, 0%Z)) ;;
  '(P4, menpo2D_train_names, menpo2D_test_names) <- menpo_pass (in_menpo I) P3 ;;
  '(P5, lapa_train_names, lapa_val_names) <- lapa_pass (in_lapa I) P4 ;;
  '(P6, _) <- fasseg_copy (in_fasseg I) P5 ;;
  let skip_helen_ids := map (fun s => fst (Path.splitext s)) skip_imgs in
  helen_train_names <- read_csv_names R (helen_trainnames (in_helen I)) ;;
  let train_names :=
    helen_train_names ++ pexels_train_names ++ afw_train_names
    ++ menpo2D_train_names ++ lapa_train_names ++ fasseg_split (in_fasseg I) 1 in
  helen_test_names <- read_csv_names R (helen_testnames (in_helen I)) ;;
  let test_names :=
    helen_test_names ++ pexels_val_names ++ afw_val_names
    ++ menpo2D_test_names ++ lapa_val_names ++ fasseg_split (in_fasseg I) 0 in
  Some (Output P6
          (kept_names train_names skip_helen_ids)
          (kept_names test_names skip_helen_ids)
          (process_names train_names path_processed_dataset skip_helen_ids)
          (process_names test_names path_processed_dataset skip_helen_ids)
          yaml_names).

End Passes.

(** ** A small runtime to run the embedding

    Plain decimal numerals for [float] and [int], a fixed-point rendering,
    a [unidecode] that drops what is not ASCII, patterns with one star and
    no other wildcard, nothing outside the folders of the input, a linear
    congruential generator, and a set that is iterated in the order of
    first insertion. *)

Module Sample.

Definition dot_char : ascii := "."%char.

(** [digits [. digits]] as a rational. *)
Definition unsigned_decimal (s : str) : option Q :=
  match Str.split [dot_char] s with
  | [i] => n <- Str.digits i ;; Some (inject_Z n)
  | [i; f] =>
      n <- Str.digits i ;;
      m <- Str.digits f ;;
      Some (Qred (inject_Z n + Qmake m (Pos.pow 10 (Pos.of_nat (List.length f)))))
  | _ => None
  end.

Definition float (s : str) : option Q :=
  match s with
  | "-"%char :: s' => option_map Qopp (unsigned_decimal s')
  | _ => unsigned_decimal s
  end.

(** [s.rjust(n, "0")] *)
Definition pad_left (n : nat) (s : str) : str :=
  repeat "0"%char (n - List.length s) ++ s.

Fixpoint strip_zeros (r : str) : str :=
  match r with
  | "0"%char :: (_ :: _) as r' => strip_zeros r'
  | _ => r
  end.

(** A multiple of [10^-6] in positional notation, final zeros dropped. *)
Definition float_repr (q : Q) : str :=
  let m := round_half_even (q * inject_Z 1000000) in
  let a := Z.abs m in
  let frac := pad_left 6 (Str.of_nat (Z.to_nat (a mod 1000000))) in
  (if (m <? 0)%Z then ["-"%char] else [])
  ++ Str.of_nat (Z.to_nat (a / 1000000)) ++ dot_char :: rev (strip_zeros (rev frac)).

Definition unidecode (s : str) : str := filter Str.is_ascii_char s.

Definition randbelow (s : Z) (n : nat) : nat * Z :=
  (Z.to_nat ((s / 65536) mod Z.of_nat n), (s * 1103515245 + 12345) mod 2147483648)%Z.

Definition insertion_order (l : list str) : list str :=
  rev (nodup str_eq_dec (rev l)).


Definition dquote : ascii := ascii_of_nat 34.

Definition needs_quotes (c : ascii) : bool :=
  let n := nat_of_ascii c in
  (n =? 44) || (n =? 34) || (n =? 10) || (n =? 13).

(** A field that holds a comma, a double quote or a line break goes
    between double quotes, its own quotes doubled. *)
Definition csv_field (x : str) : str :=
  if existsb needs_quotes x
  then dquote :: flat_map (fun c => if Ascii.eqb c dquote then [c; c] else [c]) x
              ++ [dquote]
  else x.

(** A non-empty file of names, one per line. *)
Definition read_csv_names (lines : list str) : option (list str) :=
  match lines with
  | [] => None
  | _ => Some (map Str.rstrip lines)
  end.

Definition fnmatch_filter (names : list str) (pat : str) : list str :=
  match Str.split star pat with
  | [pre; suf] => filter (star_match pre suf) names
  | _ => filter (Str.eqb pat) names
  end.

Definition py : runtime :=
  Runtime float Str.int Str.replace float_repr csv_field read_csv_names unidecode
          fnmatch_filter (fun _ => []) (fun _ => None)
          420%Z randbelow insertion_order.


End Sample.

(** * Vocabulary of the statements *)

(** ** Extrema *)

Definition is_min (m : Q) (l : list Q) : Prop :=
  In m l /\ forall q, In q l -> (m <= q)%Q.

Definition is_max (m : Q) (l : list Q) : Prop :=
  In m l /\ forall q, In q l -> (q <= m)%Q.

(** The contour of the example of the bounding box. *)
Definition square_contour : list point :=
  [(10#1, 10#1); (10#1, 20#1); (20#1, 20#1); (20#1, 10#1)]%Q.

(** ** The adapters that convert landmarks *)

Inductive adapter :=
| Helen_adapter
| AFW_adapter
| Menpo_semifrontal
| Menpo_profile
| LaPa_adapter.

(** [part_points_menpo[img_type]] *)
Definition menpo_table (img_type : str) : part_table :=
  match lookup img_type part_points_menpo with
  | Some table => table
  | None => []
  end.

(** The table each adapter hands to the two loops. *)
Definition adapter_table (a : adapter) : part_table :=
  match a with
  | Helen_adapter => part_points_helen
  | AFW_adapter => part_points_afw
  | Menpo_semifrontal => menpo_table semifrontal
  | Menpo_profile => menpo_table profile
  | LaPa_adapter => part_points_lapa
  end.

(** The contours a table lists for a part, none for an unknown part. *)
Definition contours_of (table : part_table) (part_name : str) : list (list nat) :=
  match lookup part_name table with
  | Some contours => contours
  | None => []
  end.

(** The class ids of one row per contour, walking [parts] in order. *)
Definition class_sequence (table : part_table) (parts : list (nat * str)) : list nat :=
  flat_map (fun p => repeat (fst p) (List.length (contours_of table (snd p)))) parts.

(** One run of a loop body that converts the landmarks of an image, from
    pool [P] to pool [P'], the image not being skipped. *)
Inductive processed (R : runtime) : adapter -> pool -> pool -> Prop :=
| processed_helen images skip_imgs P ann P' first lines :
    readlines_rstrip (snd ann) = Some (first :: lines) ->
    Str.mem (first ++ dot_jpg) skip_imgs = false ->
    helen_annotation R images skip_imgs P ann = Some P' ->
    processed R Helen_adapter P P'
| processed_afw folder afw n grouped_points P shape ie P' shape' :
    afw_face R folder afw n grouped_points (P, shape) ie = Some (P', shape') ->
    processed R AFW_adapter P P'
| processed_menpo d landmarks P i img_path P' lmks img_landmarks :
    nth_error landmarks i = Some lmks ->
    mapM (float R) lmks = Some img_landmarks ->
    menpo_image R d landmarks P (i, img_path) = Some P' ->
    processed R
      (if List.length (slice_from_step2 14 img_landmarks) =? 39
       then Menpo_profile else Menpo_semifrontal) P P'
| processed_lapa L P names img_name P' names' :
    lapa_image R L (P, names) img_name = Some (P', names') ->
    processed R LaPa_adapter P P'.

(** A multiple of [10^-6]. *)
Definition six_decimals (q : Q) : Prop := exists n : Z, q = Qmake n 1000000.

(** [q] is [r] up to half a unit of the sixth decimal. *)
Definition rounds_to (q r : Q) : Prop :=
  (r - (1 # 2000000) <= q)%Q /\ (q <= r + (1 # 2000000))%Q.

(** The class ids of the rows of a label file, by adapter. *)
Definition adapter_classes (a : adapter) : list nat :=
  match a with
  | Menpo_profile => [0; 1; 2; 3]
  | _ => [0; 0; 1; 2; 3; 3]
  end.

(** The number of contours a table lists for the parts in use. *)
Definition contour_count (table : part_table) : nat :=
  list_sum (map (fun p => List.length (contours_of table p)) use_parts).

(** What [round(6)] does to one value. *)
Definition rounded6 (q r : Q) : Prop := r = round6 q /\ six_decimals r /\ rounds_to q r.

(** ** Sample data *)

Module Example.

(** [n] landmark lines, the coordinates separated by [sep]. *)
Definition landmark_lines (sep : str) (n : nat) : list str :=
  map (fun i => Str.of_nat (10 + i) ++ sep ++ Str.of_nat (20 + 2 * i)) (seq 0 n).

Definition face_jpg : str := "face.jpg".

(** One LaPa image, 300 wide and 400 high, with its 106 landmarks. *)
Definition lapa_one : lapa_split :=
  LapaSplit [(face_jpg, Image 400 300 7)]
            [("face.txt" : str, Text (("106" : str) :: landmark_lines space 106))].

(** The landmark lines of that image as the pass reads them. *)
Definition lapa_lines : list str := map Str.rstrip (landmark_lines space 106).

Definition lapa_step : pool * list str :=
  Eval vm_compute in
    match lapa_image Sample.py lapa_one (empty_pool, []) face_jpg with
    | Some st => st
    | None => (empty_pool, [])
    end.

Definition data_root : str := "/data".

(** A Helen annotation and its image, 300 wide and 400 high. *)
Definition helen_ann (id : str) : str * file :=
  (id ++ dot_txt, Text (id :: landmark_lines helen_sep 194)).

Definition helen_img (id : str) : str * file := (id ++ dot_jpg, Image 400 300 0).

(** Ten images: seven with one face, three that share the prefix 8. *)
Definition helen_ids : list str :=
  map list_ascii_of_string
    ["1_1"; "2_1"; "3_1"; "4_1"; "5_1"; "6_1"; "7_1"; "8_1"; "8_2"; "8_3"].

Definition helen_ten : helen_dataset :=
  Helen (map helen_img helen_ids) (map helen_ann helen_ids)
        (firstn 6 helen_ids) (skipn 6 helen_ids).

(** Menpo2D with its four list files empty. *)
Definition menpo_none : menpo_dataset :=
  let d := map (fun n => (n, Text []))
             [menpo_list_name profile Train; menpo_list_name semifrontal Train;
              menpo_list_name profile Test; menpo_list_name semifrontal Test] in
  Menpo d d.

Definition lapa_none : lapa_dataset := Lapa (LapaSplit [] []) (LapaSplit [] []).

Definition fasseg_none : fasseg_dataset := Fasseg [] [] [].

(** Two images of one face each, one name in each of the two lists. *)
Definition helen_two : helen_dataset :=
  Helen [helen_img "1_1"; helen_img "2_1"] [helen_ann "1_1"; helen_ann "2_1"]
        [("1_1" : str)] [("2_1" : str)].

(** The tree with the ten images of Helen and nothing else. *)
Definition helen_ten_tree : input :=
  Input helen_ten [] [] menpo_none lapa_none fasseg_none.

Definition no_output : output := Output empty_pool [] [] ([], []) ([], []) [].

Definition run (R : runtime) (I : input) : output :=
  match main R data_root I with
  | Some out => out
  | None => no_output
  end.

Definition helen_ten_out : output := Eval vm_compute in run Sample.py helen_ten_tree.

End Example.

(** ** Helen images with several faces *)

(** [name] belongs to a group of several images, or its own face index is
    above 1. *)
Definition multi_face (R : runtime) (listing : list str) (name : str) : Prop :=
  1 < count_occ str_eq_dec (map name_img_id listing) (name_img_id name)
  \/ exists k, name_face_id R name = Some k /\ (1 < k)%Z.

(** The identifier of a file name: [os.path.splitext(name)[0]]. *)
Definition identifier (name : str) : str := fst (Path.splitext name).

(** ** The rows of a label file *)

(** The contours the two loops walk for a table, each with the number of
    its part, in the order they are walked. *)
Definition table_contours (table : part_table) : list (nat * list nat) :=
  flat_map (fun p => map (pair (fst p)) (contours_of table (snd p)))
           (enumerate use_parts).

(** [r] is the row [points_to_yolo] makes of the points of contour [c]. *)
Definition box_row (get_point : nat -> option point) (img_h img_w : Z)
    (c : nat * list nat) (r : row) : Prop :=
  exists contour,
    mapM get_point (snd c) = Some contour
    /\ points_to_yolo [] contour (fst c) img_h img_w
       = Some ([r], (row_x r, row_y r, row_w r, row_h r)).

(** One run of a loop body that converts the landmarks of an image, the
    image not being skipped: the pool goes from [P] to [P'], [dest] is the
    name of the label file, [get_point] reads a point in the landmarks of
    the image as the body has parsed them, and [img_h], [img_w] are the
    height and width the body holds for the image. *)
Inductive converts (R : runtime)
  : adapter -> pool -> pool -> str -> (nat -> option point) -> Z -> Z -> Prop :=
| converts_helen images skip_imgs P ann P' first lines img_h img_w :
    readlines_rstrip (snd ann) = Some (first :: lines) ->
    Str.mem (first ++ dot_jpg) skip_imgs = false ->
    imread_shape images (first ++ dot_jpg) = Some (img_h, img_w) ->
    helen_annotation R images skip_imgs P ann = Some P' ->
    converts R Helen_adapter P P' (identifier (first ++ dot_jpg) ++ dot_txt)
      (line_point R helen_sep lines) img_h img_w
| converts_afw folder afw n grouped_points P shape i img_name P' shape'
    pts f all_lines :
    nth_error grouped_points i = Some pts ->
    afw_file R folder afw pts = Some f ->
    readlines_rstrip f = Some all_lines ->
    afw_face R folder afw n grouped_points (P, shape) (i, img_name)
    = Some (P', shape') ->
    converts R AFW_adapter P P' (n ++ dot_txt)
      (line_point R space (slice_drop 3 all_lines)) (fst shape') (snd shape')
| converts_menpo d landmarks P i img_path P' lmks img_landmarks img_h img_w :
    nth_error landmarks i = Some lmks ->
    mapM (float R) lmks = Some img_landmarks ->
    imread_shape d img_path = Some (img_h, img_w) ->
    menpo_image R d landmarks P (i, img_path) = Some P' ->
    converts R
      (if List.length (slice_from_step2 14 img_landmarks) =? 39
       then Menpo_profile else Menpo_semifrontal) P P'
      (identifier (Path.basename img_path) ++ dot_txt)
      (xy_point (slice_from_step2 14 img_landmarks)
         (slice_from_step2 15 img_landmarks)) img_h img_w
| converts_lapa L P names img_name P' names' num_landmarks lines img_h img_w :
    imread_shape (lapa_images L) img_name = Some (img_h, img_w) ->
    open_lines (lapa_landmarks L) (nth 0 (Str.split dot img_name) [] ++ dot_txt)
    = Some (num_landmarks :: lines) ->
    lapa_image R L (P, names) img_name = Some (P', names') ->
    converts R LaPa_adapter P P' (identifier img_name ++ dot_txt)
      (line_point R space lines) img_h img_w.

(** ** Sample data for LaPa *)

Module ExampleLapa.

Definition landmarks : file :=
  Text (("106" : str) :: Example.landmark_lines space 106).

(** A training folder with a cross-listed image, which has no landmark
    file, and a validation folder whose one image carries such a prefix. *)
Definition cross_listed : lapa_dataset :=
  Lapa (LapaSplit [("HELEN_1.jpg" : str, Image 400 300 1);
                   (Example.face_jpg, Image 400 300 2)]
                  [("face.txt" : str, landmarks)])
       (LapaSplit [("AFW_2.jpg" : str, Image 400 300 3)]
                  [("AFW_2.txt" : str, landmarks)]).

Definition cross_listed_out : pool * list str * list str :=
  Eval vm_compute in
    match lapa_pass Sample.py cross_listed empty_pool with
    | Some r => r
    | None => (empty_pool, [], [])
    end.

End ExampleLapa.

(** ** Runtimes that keep the contracts of the libraries *)



(** The one field of a row is written as it is when it holds no comma, no
    double quote and no line break. *)
Definition csv_special (c : ascii) : bool :=
  let n := nat_of_ascii c in
  (n =? 44) || (n =? 34) || (n =? 10) || (n =? 13).

Definition csv_plain (R : runtime) : Prop :=
  forall x, existsb csv_special x = false -> csv_field R x = x.


(** The label files of all the Pexels sets, in the order they are walked. *)
Definition pexels_label_files (sets : list (str * pexels_set)) : list str :=
  flat_map (fun s => listdir (pexels_annotations (snd s))) sets.

(** ** Sample data for the copied datasets *)

Module ExampleCopy.



Definition box_label : file := Text [("0 0.5 0.5 0.1 0.1" : str)].






(** Two Pexels sets that both hold a label file [a.txt]. *)
Definition pexels_twice : list (str * pexels_set) :=
  let s := PexelsSet [("a.txt" : str, box_label)] [("a.jpg" : str, Image 10 10 1)] in
  [("set1" : str, s); ("set2" : str, s)].

Definition pexels_twice_tree : input :=
  Input Example.helen_two pexels_twice [] Example.menpo_none Example.lapa_none
        Example.fasseg_none.

Definition pexels_twice_out : output :=
  Eval vm_compute in Example.run Sample.py pexels_twice_tree.

End ExampleCopy.

(** The name the Pexels pass gives to the files of label file [l]. *)
Definition cleaned (R : runtime) (l : str) : str := unidecode R (identifier l).

(** ** Sample data for AFW *)

Module ExampleAfw.

(** A point file: three lines of header, 68 landmarks, one closing line. *)
Definition pts (landmarks : list str) : file :=
  Text (map list_ascii_of_string ["version: 1"; "n_points: 68"; "{"]%string
        ++ landmarks ++ [("}" : str)]).

Definition landmarks_1 : list str := Example.landmark_lines space 68.

Definition landmarks_2 : list str :=
  map (fun i => Str.of_nat (100 + 3 * i) ++ space ++ Str.of_nat (50 + i)) (seq 0 68).

(** Two base names with one face each. *)
Definition two_names : dir :=
  [("a_1.jpg" : str, Image 100 200 1); ("a_1.pts" : str, pts landmarks_1);
   ("b_1.jpg" : str, Image 100 200 2); ("b_1.pts" : str, pts landmarks_1)].

Definition two_names_tree : input :=
  Input Example.helen_two [] two_names Example.menpo_none Example.lapa_none
        Example.fasseg_none.

Definition two_names_out : output :=
  Eval vm_compute in Example.run Sample.py two_names_tree.


(** One base name with two faces, whose images differ. *)
Definition first_face : file := Image 100 200 1.
Definition second_face : file := Image 50 60 2.

Definition two_faces : dir :=
  [("5_1.jpg" : str, first_face); ("5_1.pts" : str, pts landmarks_1);
   ("5_2.jpg" : str, second_face); ("5_2.pts" : str, pts landmarks_2)].

Definition two_faces_tree : input :=
  Input Example.helen_two [] two_faces Example.menpo_none Example.lapa_none
        Example.fasseg_none.

Definition two_faces_out : output :=
  Eval vm_compute in Example.run Sample.py two_faces_tree.

Definition five : str := "5".

Definition afw_path : str := Path.join Example.data_root afw_folder.

Definition two_faces_group : pool * (Z * Z) :=
  Eval vm_compute in
    match afw_group Sample.py afw_path two_faces (empty_pool, (0%Z, 0%Z)) five with
    | Some st => st
    | None => (empty_pool, (0%Z, 0%Z))
    end.

End ExampleAfw.

(** ** The landmarks an adapter reads *)

(** The indices the two loops look up, in the order they do. *)
Definition needed_landmarks (table : part_table) : list nat :=
  flat_map (fun p => List.concat (contours_of table p)) use_parts.

(** Every part in use has contours in the table, and none is empty. *)
Definition table_ok (table : part_table) : bool :=
  forallb (fun p =>
             match lookup p table with
             | Some contours =>
                 forallb (fun idxs => negb (List.length idxs =? 0)) contours
             | None => false
             end) use_parts.

(** The lowest index an adapter reads, and one more than the highest. *)
Definition first_landmark (a : adapter) : nat :=
  match a with
  | Helen_adapter => 41
  | AFW_adapter => 17
  | Menpo_semifrontal => 17
  | Menpo_profile => 12
  | LaPa_adapter => 33
  end.

Definition landmark_count (a : adapter) : nat :=
  match a with
  | Helen_adapter => 194
  | AFW_adapter => 68
  | Menpo_semifrontal => 68
  | Menpo_profile => 39
  | LaPa_adapter => 104
  end.

(** ** Names with a stem *)

(** The last component of [x] holds a character that is no dot, so that
    [splitext] sees an extension appended to [x]. *)
Definition has_stem (x : str) : Prop :=
  exists c, In c (Path.basename x) /\ c <> Path.extsep.

(** [e] holds neither a dot nor a slash. *)
Definition plain (e : str) : Prop := ~ In Path.extsep e /\ ~ In Path.sep e.

(** ** Sample data: one step of the Helen loop *)

Module ExampleHelen.

Definition one_one : str := "1_1".

Definition skip_imgs : list str :=
  Eval vm_compute in
    match helen_skip_imgs Sample.py (listdir (helen_images Example.helen_ten)) with
    | Some s => s
    | None => []
    end.

Definition step : pool :=
  Eval vm_compute in
    match helen_annotation Sample.py (helen_images Example.helen_ten) skip_imgs
            empty_pool (Example.helen_ann one_one) with
    | Some P => P
    | None => empty_pool
    end.

End ExampleHelen.

(** ** Sample data: base names of AFW that start alike *)

Module ExampleGlob.



(** Base name 7 with two images and one point file. *)
Definition seven : str := "7".

Definition one_pts : dir :=
  [("7_1.jpg" : str, Image 100 200 1);
   ("7_1.pts" : str, ExampleAfw.pts ExampleAfw.landmarks_1);
   ("7_2.jpg" : str, Image 100 200 1)].

End ExampleGlob.

(** ** Sample data: a line of a Menpo2D list file *)

Module ExampleMenpo.

Definition img_path : str := "image/face.jpg".

(** The fields after the path: 14 numbers, then [n] points as [x y]. *)
Definition fields (n : nat) : list str :=
  map Str.of_nat (seq 0 14)
  ++ flat_map (fun i => [Str.of_nat (10 + i); Str.of_nat (20 + 2 * i)]) (seq 0 n).

Definition one_image : dir := [(img_path, Image 400 300 5)].

Definition profile_step : pool :=
  Eval vm_compute in
    match menpo_image Sample.py one_image [fields 39] empty_pool (0, img_path) with
    | Some P => P
    | None => empty_pool
    end.

End ExampleMenpo.

(** ** Pools that grow *)

(** Every file name of [P] is a file name of [P']. *)
Definition pool_le (P P' : pool) : Prop :=
  incl (listdir (pool_images P)) (listdir (pool_images P'))
  /\ incl (listdir (pool_labels P)) (listdir (pool_labels P')).

(** The pool holds an image and a label file under these names. *)
Definition pool_has (image_name label_name : str) (P : pool) : Prop :=
  In image_name (listdir (pool_images P)) /\ In label_name (listdir (pool_labels P)).

(** ** The names of Menpo2D *)

(** The name a line of a list file gives: the stem of the last component
    of its first field. *)
Definition menpo_line_name (l : str) : str :=
  identifier (Path.basename (nth 0 (Str.split space (Str.rstrip l)) [])).

(** * Properties *)

(** ** Strings and lists *)

Lemma Str_eqb_eq (a b : str) : Str.eqb a b = true <-> a = b.
Proof.
  unfold Str.eqb. destruct (list_eq_dec ascii_dec a b); split; congruence.
Qed.

Lemma Str_eqb_refl (a : str) : Str.eqb a a = true.
Proof. now apply Str_eqb_eq. Qed.

Lemma Str_eqb_neq (a b : str) : Str.eqb a b = false <-> a <> b.
Proof.
  unfold Str.eqb. destruct (list_eq_dec ascii_dec a b); split; congruence.
Qed.

Lemma Str_mem_In (x : str) (xs : list str) : Str.mem x xs = true <-> In x xs.
Proof.
  unfold Str.mem. rewrite existsb_exists. split.
  - intros (y & Hy & E). apply Str_eqb_eq in E. now subst.
  - intros H. exists x. split; [assumption | apply Str_eqb_refl].
Qed.

Lemma Str_mem_not_In (x : str) (xs : list str) : Str.mem x xs = false <-> ~ In x xs.
Proof.
  rewrite <- Str_mem_In. destruct (Str.mem x xs); split; congruence.
Qed.

Lemma startswith_app (p s : str) : Str.startswith p (p ++ s) = true.
Proof.
  induction p as [|c p IH]; simpl; [reflexivity|].
  now rewrite Ascii.eqb_refl.
Qed.

Lemma startswith_split (p s : str) :
  Str.startswith p s = true -> exists t, s = p ++ t.
Proof.
  revert s. induction p as [|c p IH]; intros s H.
  - now exists s.
  - destruct s as [|d s]; simpl in H; [discriminate|].
    destruct (Ascii.eqb c d) eqn:E; [|discriminate].
    apply Ascii.eqb_eq in E. subst d.
    destruct (IH _ H) as [t ->]. now exists t.
Qed.

Lemma contains_startswith (p s : str) :
  Str.startswith p s = true -> Str.contains p s = true.
Proof.
  intros H. destruct s; simpl in *; rewrite H; reflexivity.
Qed.

Lemma fs_write_lookup (name : str) (f : file) (d : dir) :
  lookup name (fs_write name f d) = Some f.
Proof.
  unfold fs_write. simpl. now rewrite Str_eqb_refl.
Qed.

(** ** The bounding box *)

Lemma Qmin_cases (a b : Q) : Qmin a b = a \/ Qmin a b = b.
Proof.
  unfold Qmin, GenericMinMax.gmin. destruct (a ?= b)%Q; auto.
Qed.

Lemma Qmax_cases (a b : Q) : Qmax a b = a \/ Qmax a b = b.
Proof.
  unfold Qmax, GenericMinMax.gmax. destruct (a ?= b)%Q; auto.
Qed.

Lemma fold_Qmin_is_min (l : list Q) (q : Q) : is_min (fold_left Qmin l q) (q :: l).
Proof.
  revert q. induction l as [|a l IH]; intros q; simpl.
  - split; [now left|]. intros x [<-|[]]. apply Qle_refl.
  - destruct (IH (Qmin q a)) as [Hin Hle]. split.
    + destruct Hin as [E|Hin]; [|now right; right].
      rewrite <- E. destruct (Qmin_cases q a) as [->| ->]; simpl; auto.
    + intros x [<-|[<-|Hx]].
      * eapply Qle_trans; [apply Hle; now left | apply Q.le_min_l].
      * eapply Qle_trans; [apply Hle; now left | apply Q.le_min_r].
      * apply Hle. now right.
Qed.

Lemma fold_Qmax_is_max (l : list Q) (q : Q) : is_max (fold_left Qmax l q) (q :: l).
Proof.
  revert q. induction l as [|a l IH]; intros q; simpl.
  - split; [now left|]. intros x [<-|[]]. apply Qle_refl.
  - destruct (IH (Qmax q a)) as [Hin Hle]. split.
    + destruct Hin as [E|Hin]; [|now right; right].
      rewrite <- E. destruct (Qmax_cases q a) as [->| ->]; simpl; auto.
    + intros x [<-|[<-|Hx]].
      * eapply Qle_trans; [apply Q.le_max_l | apply Hle; now left].
      * eapply Qle_trans; [apply Q.le_max_r | apply Hle; now left].
      * apply Hle. now right.
Qed.

Lemma minimum_spec (l : list Q) :
  l <> [] -> exists m, minimum l = Some m /\ is_min m l.
Proof.
  destruct l as [|q l]; [congruence|]. intros _.
  exists (fold_left Qmin l q). split; [reflexivity | apply fold_Qmin_is_min].
Qed.

Lemma maximum_spec (l : list Q) :
  l <> [] -> exists m, maximum l = Some m /\ is_max m l.
Proof.
  destruct l as [|q l]; [congruence|]. intros _.
  exists (fold_left Qmax l q). split; [reflexivity | apply fold_Qmax_is_max].
Qed.

Lemma points_to_yolo_appends (img_labels : list row) (contour : list point)
    (part_id : nat) (img_h img_w : Z) (img_labels' : list row) (box : Q * Q * Q * Q) :
  points_to_yolo img_labels contour part_id img_h img_w = Some (img_labels', box) ->
  exists x y w h, img_labels' = img_labels ++ [Row part_id x y w h] /\ box = (x, y, w, h).
Proof.
  unfold points_to_yolo. intros H.
  destruct (minimum (map fst contour)); [|discriminate].
  destruct (maximum (map fst contour)); [|discriminate].
  destruct (minimum (map snd contour)); [|discriminate].
  destruct (maximum (map snd contour)); [|discriminate].
  injection H as <- <-. eauto 6.
Qed.

(** C1.  For a contour with at least one point, [points_to_yolo] appends to
    the frame, and returns, the box whose centre is the middle of the
    minima and maxima of the coordinates and whose sides are their
    differences, each divided by the width or the height of the image; the
    square of corners (10,10) and (20,20) in an image 100 wide and 200 high
    gives x = 0.15, y = 0.075, w = 0.10, h = 0.05. *)
Theorem points_to_yolo_bounding_box :
  (forall (img_labels : list row) (contour : list point) (part_id : nat)
          (img_h img_w : Z),
      contour <> [] ->
      exists x_min x_max y_min y_max : Q,
        is_min x_min (map fst contour) /\ is_max x_max (map fst contour) /\
        is_min y_min (map snd contour) /\ is_max y_max (map snd contour) /\
        let x_center := ((x_min + x_max) / 2 / inject_Z img_w)%Q in
        let y_center := ((y_min + y_max) / 2 / inject_Z img_h)%Q in
        let w := ((x_max - x_min) / inject_Z img_w)%Q in
        let h := ((y_max - y_min) / inject_Z img_h)%Q in
        points_to_yolo img_labels contour part_id img_h img_w =
        Some (img_labels ++ [Row part_id x_center y_center w h],
              (x_center, y_center, w, h)))
  /\ (forall part_id : nat,
        exists x y w h : Q,
          points_to_yolo [] square_contour part_id 200 100 =
          Some ([Row part_id x y w h], (x, y, w, h))
          /\ (x == 15 # 100)%Q /\ (y == 75 # 1000)%Q
          /\ (w == 10 # 100)%Q /\ (h == 5 # 100)%Q).
Proof.
  split.
  - intros img_labels contour part_id img_h img_w Hne.
    assert (Hx : map fst contour <> []) by (destruct contour; simpl; congruence).
    assert (Hy : map snd contour <> []) by (destruct contour; simpl; congruence).
    destruct (minimum_spec Hx) as (x_min & Exmin & Hxmin).
    destruct (maximum_spec Hx) as (x_max & Exmax & Hxmax).
    destruct (minimum_spec Hy) as (y_min & Eymin & Hymin).
    destruct (maximum_spec Hy) as (y_max & Eymax & Hymax).
    exists x_min, x_max, y_min, y_max.
    repeat (split; [assumption|]).
    unfold points_to_yolo. rewrite Exmin, Exmax, Eymin, Eymax. reflexivity.
  - intros part_id. do 4 eexists. split; [reflexivity|].
    repeat split; reflexivity.
Qed.

Lemma points_to_yolo_bounding_box_witness :
  square_contour <> [] /\
  exists x_min x_max y_min y_max : Q,
    is_min x_min (map fst square_contour) /\ is_max x_max (map fst square_contour) /\
    is_min y_min (map snd square_contour) /\ is_max y_max (map snd square_contour) /\
    points_to_yolo [] square_contour 0 200 100 =
    Some ([Row 0 ((x_min + x_max) / 2 / inject_Z 100)%Q
                 ((y_min + y_max) / 2 / inject_Z 200)%Q
                 ((x_max - x_min) / inject_Z 100)%Q
                 ((y_max - y_min) / inject_Z 200)%Q],
          (((x_min + x_max) / 2 / inject_Z 100)%Q,
           ((y_min + y_max) / 2 / inject_Z 200)%Q,
           ((x_max - x_min) / inject_Z 100)%Q,
           ((y_max - y_min) / inject_Z 200)%Q)).
Proof.
  assert (H : square_contour <> []) by (unfold square_contour; discriminate).
  split; [exact H|].
  exact (proj1 points_to_yolo_bounding_box [] square_contour 0 200%Z 100%Z H).
Defined.

(** ** The two loops over the parts *)

Section LoopFacts.
Variable get_point : nat -> option point.
Variables img_h img_w : Z.

Lemma contours_loop_rows (part_id : nat) (contours : list (list nat))
    (img_labels rows : list row) :
  contours_loop get_point img_h img_w part_id contours img_labels = Some rows ->
  exists new, rows = img_labels ++ new
              /\ map cls new = repeat part_id (List.length contours).
Proof.
  revert img_labels. induction contours as [|idxs rest IH]; intros img_labels H.
  - simpl in H. injection H as <-. exists []. now rewrite app_nil_r.
  - simpl in H.
    destruct (mapM get_point idxs) as [contour|]; [|discriminate].
    destruct (points_to_yolo img_labels contour part_id img_h img_w)
      as [[img_labels' box]|] eqn:E; [|discriminate].
    apply points_to_yolo_appends in E. destruct E as (x & y & w & h & -> & _).
    destruct (IH _ H) as (new & -> & Hnew).
    exists (Row part_id x y w h :: new). split.
    + now rewrite <- app_assoc.
    + simpl. now rewrite Hnew.
Qed.

Lemma parts_loop_rows (table : part_table) (parts : list (nat * str))
    (img_labels rows : list row) :
  parts_loop get_point img_h img_w table parts img_labels = Some rows ->
  exists new, rows = img_labels ++ new
              /\ map cls new = class_sequence table parts.
Proof.
  revert img_labels. induction parts as [|[part_id part_name] rest IH];
    intros img_labels H.
  - simpl in H. injection H as <-. exists []. now rewrite app_nil_r.
  - simpl in H. unfold class_sequence, contours_of. simpl.
    destruct (lookup part_name table) as [contours|]; [|discriminate].
    destruct (contours_loop get_point img_h img_w part_id contours img_labels)
      as [img_labels'|] eqn:E; [|discriminate].
    apply contours_loop_rows in E. destruct E as (new1 & -> & H1).
    destruct (IH _ H) as (new2 & -> & H2).
    exists (new1 ++ new2). split.
    + now rewrite <- app_assoc.
    + rewrite map_app, H1. f_equal. exact H2.
Qed.

Lemma image_labels_classes (table : part_table) (rows : list row) :
  image_labels get_point img_h img_w table = Some rows ->
  map cls rows = class_sequence table (enumerate use_parts).
Proof.
  unfold image_labels. intros H.
  apply parts_loop_rows in H. destruct H as (new & -> & H). exact H.
Qed.

End LoopFacts.

(** Every loop body writes the label file once, with the rows the two
    loops have gathered from the table of its adapter. *)
Lemma processed_writes (R : runtime) (a : adapter) (P P' : pool) :
  processed R a P P' ->
  exists dest get_point img_h img_w rows,
    image_labels get_point img_h img_w (adapter_table a) = Some rows
    /\ pool_labels P' = fs_write dest (to_csv_rounded R rows) (pool_labels P).
Proof.
  intros H. destruct H as
    [images skip P ann P' first lines Hread Hskip H
    |folder afw n pts P shape [i img_name] P' shape' H
    |d landmarks P i img_path P' lmks img_landmarks Hnth Hfloat H
    |L P names img_name P' names' H].
  - unfold helen_annotation in H. rewrite Hread, Hskip in H.
    destruct (imread_shape images (first ++ dot_jpg)) as [[img_h img_w]|];
      [|discriminate].
    destruct (image_labels (line_point R helen_sep lines) img_h img_w part_points_helen)
      as [rows|] eqn:E; [|discriminate].
    destruct (copy images (first ++ dot_jpg) (first ++ dot_jpg) (pool_images P));
      [|discriminate].
    injection H as <-. simpl. eauto 8.
  - unfold afw_face in H.
    destruct (afw_file R folder afw img_name) as [img|]; [|discriminate].
    destruct (nth_error pts i) as [pt|]; [|discriminate].
    destruct (afw_file R folder afw pt) as [f|]; [|discriminate].
    destruct (readlines_rstrip f) as [all_lines|]; [|discriminate].
    destruct (if i =? 0 then image_shape img else Some shape)
      as [[img_h img_w]|]; [|discriminate].
    destruct (image_labels (line_point R space (slice_drop 3 all_lines))
                img_h img_w part_points_afw) as [rows|] eqn:E; [|discriminate].
    injection H as <- _. simpl. eauto 8.
  - unfold menpo_image in H.
    destruct (copy d img_path (Path.basename img_path) (pool_images P));
      [|discriminate].
    rewrite Hnth, Hfloat in H.
    destruct (imread_shape d img_path) as [[img_h img_w]|]; [|discriminate].
    destruct (List.length (slice_from_step2 14 img_landmarks) =? 39).
    + change (lookup profile part_points_menpo)
        with (Some (menpo_table profile)) in H.
      cbv beta iota in H.
      destruct (image_labels
                  (xy_point (slice_from_step2 14 img_landmarks)
                     (slice_from_step2 15 img_landmarks))
                  img_h img_w (menpo_table profile)) as [rows|] eqn:E;
        [|discriminate].
      injection H as <-. simpl. eauto 8.
    + change (lookup semifrontal part_points_menpo)
        with (Some (menpo_table semifrontal)) in H.
      cbv beta iota in H.
      destruct (image_labels
                  (xy_point (slice_from_step2 14 img_landmarks)
                     (slice_from_step2 15 img_landmarks))
                  img_h img_w (menpo_table semifrontal)) as [rows|] eqn:E;
        [|discriminate].
      injection H as <-. simpl. eauto 8.
  - unfold lapa_image in H.
    destruct (copy (lapa_images L) img_name img_name (pool_images P));
      [|discriminate].
    destruct (imread_shape (lapa_images L) img_name) as [[img_h img_w]|];
      [|discriminate].
    destruct (open_lines (lapa_landmarks L)
                (nth 0 (Str.split dot img_name) [] ++ dot_txt))
      as [[|num_landmarks lines]|]; try discriminate.
    destruct (image_labels (line_point R space lines) img_h img_w part_points_lapa)
      as [rows|] eqn:E; [|discriminate].
    injection H as <- _. simpl. eauto 8.
Qed.

(** ** Rounding to six decimals *)

Lemma round_half_even_close (q : Q) :
  (inject_Z (round_half_even q) - (1 # 2) <= q)%Q
  /\ (q <= inject_Z (round_half_even q) + (1 # 2))%Q.
Proof.
  unfold round_half_even.
  pose proof (Qfloor_le q) as Hlo.
  pose proof (Qlt_floor q) as Hhi.
  rewrite inject_Z_plus in Hhi.
  change (inject_Z 1) with 1%Q in Hhi.
  set (f := Qfloor q) in *.
  assert (Hf1 : (inject_Z (f + 1) == inject_Z f + 1)%Q)
    by (rewrite inject_Z_plus; reflexivity).
  destruct (Qcompare_spec (q - inject_Z f) (1 # 2)) as [E|E|E].
  - destruct (Z.even f); [|rewrite Hf1]; split; lra.
  - split; lra.
  - rewrite Hf1. split; lra.
Qed.

Lemma round6_rounded (q : Q) : rounded6 q (round6 q).
Proof.
  split; [reflexivity|]. split.
  - unfold six_decimals, round6. eauto.
  - unfold rounds_to, round6.
    destruct (round_half_even_close (q * inject_Z 1000000)) as [Hlo Hhi].
    set (z := round_half_even (q * inject_Z 1000000)) in *.
    rewrite (Qmake_Qdiv z 1000000).
    assert (E : (inject_Z z / inject_Z (Z.pos 1000000)
                 == inject_Z z * (1 # 1000000))%Q) by reflexivity.
    rewrite E.
    change (inject_Z 1000000) with (1000000 # 1)%Q in *.
    split; lra.
Qed.

(** ** Class ids and label files *)

Lemma adapter_classes_sequence (a : adapter) :
  class_sequence (adapter_table a) (enumerate use_parts) = adapter_classes a.
Proof. destruct a; reflexivity. Qed.

(** ** A run that ends *)

(** What the passes of a run returned, and what the run wrote from it. *)
Lemma main_inv (R : runtime) (path_datasets : str) (I : input) (out : output) :
  main R path_datasets I = Some out ->
  exists P1 skip_imgs P2 pexels_names s1 P3 shape P4 menpo_train menpo_test
         P5 lapa_tr lapa_va fasseg_names helen_train helen_test,
    helen_pass R (in_helen I) empty_pool = Some (P1, skip_imgs)
    /\ pexels_copy R (in_pexels I) P1 = Some (P2, pexels_names)
    /\ s1 = snd (shuffle R pexels_names (seed_420 R))
    /\ afw_pass R (Path.join path_datasets afw_folder) (in_afw I)
         (fst (shuffle R (afw_names R (Path.join path_datasets afw_folder) (in_afw I)) s1))
         (P2, (0%Z, 0%Z)) = Some (P3, shape)
    /\ menpo_pass R (in_menpo I) P3 = Some (P4, menpo_train, menpo_test)
    /\ lapa_pass R (in_lapa I) P4 = Some (P5, lapa_tr, lapa_va)
    /\ fasseg_copy (in_fasseg I) P5 = Some (out_pool out, fasseg_names)
    /\ read_csv_names R (helen_trainnames (in_helen I)) = Some helen_train
    /\ read_csv_names R (helen_testnames (in_helen I)) = Some helen_test
    /\ (let pexels := fst (shuffle R pexels_names (seed_420 R)) in
        let afw := fst (shuffle R (afw_names R (Path.join path_datasets afw_folder)
                                     (in_afw I)) s1) in
        let skip := map identifier skip_imgs in
        let path := Path.fspath (Path.join path_datasets processed_folder) in
        let train := helen_train ++ fst (split_names pexels) ++ fst (split_names afw)
                     ++ menpo_train ++ lapa_tr ++ fasseg_split (in_fasseg I) 1 in
        let test := helen_test ++ snd (split_names pexels) ++ snd (split_names afw)
                    ++ menpo_test ++ lapa_va ++ fasseg_split (in_fasseg I) 0 in
        train_manifest out = kept_names train skip
        /\ val_manifest out = kept_names test skip
        /\ train_txt out = process_names R train path skip
        /\ val_txt out = process_names R test path skip
        /\ data_yaml_names out = yaml_names).
Proof.
  unfold main. intros H.
  destruct (helen_pass R (in_helen I) empty_pool) as [[P1 skip_imgs]|] eqn:E1;
    [|discriminate].
  destruct (pexels_copy R (in_pexels I) P1) as [[P2 pexels_names]|] eqn:E2;
    [|discriminate].
  destruct (shuffle R pexels_names (seed_420 R)) as [pexels_shuffled s1] eqn:Es1.
  destruct (split_names pexels_shuffled) as [pexels_train pexels_val] eqn:Ep.
  destruct (shuffle R (afw_names R _ (in_afw I)) s1) as [afw_shuffled s2] eqn:Es2.
  destruct (split_names afw_shuffled) as [afw_train afw_val] eqn:Ea.
  destruct (afw_pass R _ (in_afw I) afw_shuffled (P2, (0%Z, 0%Z))) as [[P3 shape]|]
    eqn:E3; [|discriminate].
  destruct (menpo_pass R (in_menpo I) P3) as [[[P4 menpo_train] menpo_test]|] eqn:E4;
    [|discriminate].
  destruct (lapa_pass R (in_lapa I) P4) as [[[P5 lapa_tr] lapa_va]|] eqn:E5;
    [|discriminate].
  destruct (fasseg_copy (in_fasseg I) P5) as [[P6 fasseg_names]|] eqn:E6;
    [|discriminate].
  destruct (read_csv_names R (helen_trainnames (in_helen I))) as [helen_train|] eqn:E7;
    [|discriminate].
  destruct (read_csv_names R (helen_testnames (in_helen I))) as [helen_test|] eqn:E8;
    [|discriminate].
  injection H as <-.
  exists P1, skip_imgs, P2, pexels_names, s1, P3, shape, P4, menpo_train, menpo_test,
         P5, lapa_tr, lapa_va, fasseg_names, helen_train, helen_test.
  cbn [out_pool train_manifest val_manifest train_txt val_txt data_yaml_names].
  rewrite Es1. cbn [fst snd]. rewrite Es2. cbn [fst snd]. rewrite Ep, Ea. cbn [fst snd].
  repeat split; assumption || reflexivity.
Qed.

(** The sample image of LaPa is processed. *)
Ltac lapa_step_processed :=
  apply processed_lapa
    with (L := Example.lapa_one) (names := @nil str)
         (img_name := Example.face_jpg) (names' := snd Example.lapa_step);
  vm_compute; reflexivity.

(** C2.  The parts in use are eye, nose, mouth, eyebrow, numbered 0 to 3 in
    this order; every adapter's table has a jaw entry, which is not among
    the parts in use, and an entry for every part in use; whatever the
    adapter, the rows of a label file are, for each numbered part in turn,
    one row of that number for each contour the adapter's table gives the
    part; and the [names] entry of the [data.yaml] a run writes is this
    numbering. *)
Theorem class_ids_consistent :
  enumerate use_parts = [(0, eye); (1, nose); (2, mouth); (3, eyebrow)]
  /\ yaml_names = [(0, eye); (1, nose); (2, mouth); (3, eyebrow)]
  /\ ~ In jaw use_parts
  /\ (forall a : adapter,
        In jaw (keys (adapter_table a))
        /\ forall p, In p use_parts -> lookup p (adapter_table a) <> None)
  /\ (forall (R : runtime) (a : adapter) (P P' : pool),
        processed R a P P' ->
        exists dest rows,
          pool_labels P' = fs_write dest (to_csv_rounded R rows) (pool_labels P)
          /\ map cls rows = class_sequence (adapter_table a) yaml_names)
  /\ (forall (R : runtime) (path_datasets : str) (I : input) (out : output),
        main R path_datasets I = Some out ->
        data_yaml_names out = [(0, eye); (1, nose); (2, mouth); (3, eyebrow)]).
Proof.
  split; [reflexivity|]. split; [reflexivity|]. split.
  { vm_compute. intros [H|[H|[H|[H|[]]]]]; discriminate. }
  split; [|split].
  - intros a. split.
    + destruct a; vm_compute; auto.
    + intros p Hp.
      assert (E : p = eye \/ p = nose \/ p = mouth \/ p = eyebrow).
      { vm_compute in Hp. vm_compute. intuition. }
      destruct E as [->|[->|[->| ->]]]; destruct a; vm_compute; discriminate.
  - intros R a P P' H.
    destruct (processed_writes H) as (dest & gp & h & w & rows & Hrows & Hw).
    exists dest, rows. split; [exact Hw|].
    exact (image_labels_classes _ _ _ _ Hrows).
  - intros R path_datasets I out H. apply main_inv in H.
    destruct H as (P1 & sk & P2 & px & s1 & P3 & sh & P4 & mtr & mte & P5 & ltr & lva
                   & fn & htr & hte & _ & _ & _ & _ & _ & _ & _ & _ & _ & H).
    cbv zeta in H. destruct H as (_ & _ & _ & _ & ->). reflexivity.
Qed.

Lemma class_ids_consistent_witness :
  main Sample.py Example.data_root Example.helen_ten_tree = Some Example.helen_ten_out
  /\ data_yaml_names Example.helen_ten_out
     = [(0, eye); (1, nose); (2, mouth); (3, eyebrow)]
  /\ processed Sample.py LaPa_adapter empty_pool (fst Example.lapa_step)
  /\ exists dest rows,
       pool_labels (fst Example.lapa_step)
       = fs_write dest (to_csv_rounded Sample.py rows) (pool_labels empty_pool)
       /\ map cls rows = class_sequence (adapter_table LaPa_adapter) yaml_names.
Proof.
  assert (Hm : main Sample.py Example.data_root Example.helen_ten_tree
               = Some Example.helen_ten_out) by (vm_compute; reflexivity).
  assert (H : processed Sample.py LaPa_adapter empty_pool (fst Example.lapa_step))
    by lapa_step_processed.
  split; [exact Hm|].
  split; [exact (proj2 (proj2 (proj2 (proj2 (proj2 class_ids_consistent))))
                   _ _ _ _ Hm)|].
  split; [exact H|].
  exact (proj1 (proj2 (proj2 (proj2 (proj2 class_ids_consistent))))
           Sample.py LaPa_adapter empty_pool (fst Example.lapa_step) H).
Defined.

(** C10.  The label file a landmark-converting adapter writes for an image
    has the rows its table fixes: six rows of classes 0, 0, 1, 2, 3, 3 for
    Helen, AFW, the semifrontal images of Menpo2D and LaPa, and four rows of
    classes 0, 1, 2, 3 for the profile images of Menpo2D. *)
Theorem label_rows_by_adapter (R : runtime) (a : adapter) (P P' : pool) :
  processed R a P P' ->
  exists dest rows lines,
    lookup dest (pool_labels P') = Some (Text lines)
    /\ lines = map (csv_line R) (map round_row rows)
    /\ map cls rows = adapter_classes a
    /\ List.length lines = match a with Menpo_profile => 4 | _ => 6 end.
Proof.
  intros H.
  destruct (processed_writes H) as (dest & gp & h & w & rows & Hrows & Hw).
  apply image_labels_classes in Hrows.
  rewrite adapter_classes_sequence in Hrows.
  exists dest, rows, (map (csv_line R) (map round_row rows)).
  split; [rewrite Hw; apply fs_write_lookup|].
  split; [reflexivity|]. split; [exact Hrows|].
  rewrite !length_map. rewrite <- (length_map cls), Hrows.
  destruct a; reflexivity.
Qed.

Lemma label_rows_by_adapter_witness :
  processed Sample.py LaPa_adapter empty_pool (fst Example.lapa_step)
  /\ exists dest rows lines,
       lookup dest (pool_labels (fst Example.lapa_step)) = Some (Text lines)
       /\ lines = map (csv_line Sample.py) (map round_row rows)
       /\ map cls rows = [0; 0; 1; 2; 3; 3]
       /\ List.length lines = 6.
Proof.
  assert (H : processed Sample.py LaPa_adapter empty_pool (fst Example.lapa_step))
    by lapa_step_processed.
  split; [exact H|].
  exact (label_rows_by_adapter H).
Defined.

Lemma class_sequence_sorted (a : adapter) :
  StronglySorted le (class_sequence (adapter_table a) (enumerate use_parts)).
Proof.
  rewrite adapter_classes_sequence.
  destruct a; simpl; repeat (constructor; [|repeat constructor; lia]);
    constructor.
Qed.

Lemma class_sequence_length (a : adapter) :
  List.length (class_sequence (adapter_table a) (enumerate use_parts))
  = contour_count (adapter_table a).
Proof. destruct a; reflexivity. Qed.

Lemma points_to_yolo_row (img_labels : list row) (contour : list point)
    (part_id : nat) (img_h img_w : Z) (img_labels' : list row) (box : Q * Q * Q * Q) :
  points_to_yolo img_labels contour part_id img_h img_w = Some (img_labels', box) ->
  exists r,
    img_labels' = img_labels ++ [r]
    /\ points_to_yolo [] contour part_id img_h img_w
       = Some ([r], (row_x r, row_y r, row_w r, row_h r)).
Proof.
  unfold points_to_yolo. intros H.
  destruct (minimum (map fst contour)); [|discriminate].
  destruct (maximum (map fst contour)); [|discriminate].
  destruct (minimum (map snd contour)); [|discriminate].
  destruct (maximum (map snd contour)); [|discriminate].
  injection H as <- _. eexists. split; reflexivity.
Qed.

Section LoopBoxes.
Variable get_point : nat -> option point.
Variables img_h img_w : Z.

Lemma contours_loop_boxes (part_id : nat) (contours : list (list nat))
    (img_labels rows : list row) :
  contours_loop get_point img_h img_w part_id contours img_labels = Some rows ->
  exists new, rows = img_labels ++ new
              /\ Forall2 (box_row get_point img_h img_w)
                   (map (pair part_id) contours) new.
Proof.
  revert img_labels. induction contours as [|idxs rest IH]; intros img_labels H.
  - simpl in H. injection H as <-. exists []. rewrite app_nil_r. split; constructor.
  - simpl in H.
    destruct (mapM get_point idxs) as [contour|] eqn:Em; [|discriminate].
    destruct (points_to_yolo img_labels contour part_id img_h img_w)
      as [[img_labels' box]|] eqn:E; [|discriminate].
    apply points_to_yolo_row in E. destruct E as (r & -> & Hr).
    destruct (IH _ H) as (new & -> & Hnew).
    exists (r :: new). split; [now rewrite <- app_assoc|].
    simpl. constructor; [|exact Hnew]. exists contour. split; assumption.
Qed.

Lemma parts_loop_boxes (table : part_table) (parts : list (nat * str))
    (img_labels rows : list row) :
  parts_loop get_point img_h img_w table parts img_labels = Some rows ->
  exists new,
    rows = img_labels ++ new
    /\ Forall2 (box_row get_point img_h img_w)
         (flat_map (fun p => map (pair (fst p)) (contours_of table (snd p))) parts) new.
Proof.
  revert img_labels. induction parts as [|[part_id part_name] rest IH];
    intros img_labels H.
  - simpl in H. injection H as <-. exists []. rewrite app_nil_r. split; constructor.
  - simpl in H. cbn [flat_map fst snd]. unfold contours_of at 1.
    destruct (lookup part_name table) as [contours|]; [|discriminate].
    destruct (contours_loop get_point img_h img_w part_id contours img_labels)
      as [img_labels'|] eqn:E; [|discriminate].
    apply contours_loop_boxes in E. destruct E as (new1 & -> & H1).
    destruct (IH _ H) as (new2 & -> & H2).
    exists (new1 ++ new2). split; [now rewrite <- app_assoc|].
    now apply Forall2_app.
Qed.

(** Row by row, the frame holds the boxes of the contours of the table. *)
Lemma image_labels_boxes (table : part_table) (rows : list row) :
  image_labels get_point img_h img_w table = Some rows ->
  Forall2 (box_row get_point img_h img_w) (table_contours table) rows.
Proof.
  unfold image_labels. intros H.
  apply parts_loop_boxes in H. destruct H as (new & -> & H). exact H.
Qed.

End LoopBoxes.

(** Every loop body writes the label file once, with the rows the two
    loops have gathered from the landmarks and the shape of its image. *)
Lemma converts_writes (R : runtime) (a : adapter) (P P' : pool) (dest : str)
    (get_point : nat -> option point) (img_h img_w : Z) :
  converts R a P P' dest get_point img_h img_w ->
  exists rows,
    image_labels get_point img_h img_w (adapter_table a) = Some rows
    /\ pool_labels P' = fs_write dest (to_csv_rounded R rows) (pool_labels P).
Proof.
  intros H. destruct H as
    [images skip P ann P' first lines img_h img_w Hread Hskip Hshape H
    |folder afw n pts_list P shape i img_name P' shape' pts f all_lines
       Hnth Hfile Hread H
    |d landmarks P i img_path P' lmks img_landmarks img_h img_w Hnth Hfloat Hshape H
    |L P names img_name P' names' num lines img_h img_w Hshape Hopen H].
  - unfold helen_annotation in H. rewrite Hread, Hskip, Hshape in H.
    destruct (image_labels (line_point R helen_sep lines) img_h img_w part_points_helen)
      as [rows|] eqn:E; [|discriminate].
    destruct (copy images (first ++ dot_jpg) (first ++ dot_jpg) (pool_images P));
      [|discriminate].
    injection H as <-. exists rows. split; [exact E | reflexivity].
  - unfold afw_face in H. rewrite Hnth, Hfile, Hread in H.
    destruct (afw_file R folder afw img_name) as [img|]; [|discriminate].
    destruct (if i =? 0 then image_shape img else Some shape)
      as [[img_h img_w]|]; [|discriminate].
    destruct (image_labels (line_point R space (slice_drop 3 all_lines))
                img_h img_w part_points_afw) as [rows|] eqn:E; [|discriminate].
    injection H as <- <-. exists rows. split; [exact E | reflexivity].
  - unfold menpo_image in H.
    destruct (copy d img_path (Path.basename img_path) (pool_images P));
      [|discriminate].
    rewrite Hnth, Hfloat, Hshape in H.
    destruct (List.length (slice_from_step2 14 img_landmarks) =? 39).
    + change (lookup profile part_points_menpo)
        with (Some (menpo_table profile)) in H.
      cbv beta iota in H.
      destruct (image_labels
                  (xy_point (slice_from_step2 14 img_landmarks)
                     (slice_from_step2 15 img_landmarks))
                  img_h img_w (menpo_table profile)) as [rows|] eqn:E;
        [|discriminate].
      injection H as <-. exists rows. split; [exact E | reflexivity].
    + change (lookup semifrontal part_points_menpo)
        with (Some (menpo_table semifrontal)) in H.
      cbv beta iota in H.
      destruct (image_labels
                  (xy_point (slice_from_step2 14 img_landmarks)
                     (slice_from_step2 15 img_landmarks))
                  img_h img_w (menpo_table semifrontal)) as [rows|] eqn:E;
        [|discriminate].
      injection H as <-. exists rows. split; [exact E | reflexivity].
  - unfold lapa_image in H.
    destruct (copy (lapa_images L) img_name img_name (pool_images P));
      [|discriminate].
    rewrite Hshape, Hopen in H.
    destruct (image_labels (line_point R space lines) img_h img_w part_points_lapa)
      as [rows|] eqn:E; [|discriminate].
    injection H as <- _. exists rows. split; [exact E | reflexivity].
Qed.

(** The sample image of LaPa is converted. *)
Ltac lapa_step_converts :=
  apply converts_lapa
    with (L := Example.lapa_one) (names := @nil str) (names' := snd Example.lapa_step)
         (num_landmarks := ("106" : str));
  vm_compute; reflexivity.

(** C7.  A loop body that converts the landmarks of an image changes the
    labels folder by one write, made once the two loops are through: the
    file holds, without header, the rows the loops computed from the
    landmarks and the shape of the image, one row per contour of the parts
    in use in the order the contours are walked, row [k] being the box of
    contour [k]; the rows follow the enumeration of the classes; a line is
    the class id and the four values separated by single spaces; and each
    value written is the multiple of [10^-6] nearest to the value computed.
    A group of AFW runs the body once for each of its faces. *)
Theorem label_file_rows (R : runtime) (a : adapter) (P P' : pool) (dest : str)
    (get_point : nat -> option point) (img_h img_w : Z) :
  converts R a P P' dest get_point img_h img_w ->
  exists rows,
    image_labels get_point img_h img_w (adapter_table a) = Some rows
    /\ pool_labels P'
       = fs_write dest (Text (map (csv_line R) (map round_row rows))) (pool_labels P)
    /\ Forall2 (box_row get_point img_h img_w) (table_contours (adapter_table a)) rows
    /\ List.length rows = contour_count (adapter_table a)
    /\ map cls rows = class_sequence (adapter_table a) (enumerate use_parts)
    /\ StronglySorted le (map cls rows)
    /\ Forall (fun r =>
                 cls (round_row r) = cls r
                 /\ rounded6 (row_x r) (row_x (round_row r))
                 /\ rounded6 (row_y r) (row_y (round_row r))
                 /\ rounded6 (row_w r) (row_w (round_row r))
                 /\ rounded6 (row_h r) (row_h (round_row r))) rows
    /\ forall r,
         csv_line R r
         = Str.of_nat (cls r) ++ space ++ float_repr R (row_x r) ++ space
           ++ float_repr R (row_y r) ++ space ++ float_repr R (row_w r) ++ space
           ++ float_repr R (row_h r).
Proof.
  intros H.
  destruct (converts_writes H) as (rows & Hrows & Hw).
  pose proof (image_labels_classes _ _ _ _ Hrows) as Hcls.
  exists rows.
  split; [exact Hrows|]. split; [exact Hw|].
  split; [exact (image_labels_boxes _ _ _ _ Hrows)|].
  split; [rewrite <- (length_map cls), Hcls; apply class_sequence_length|].
  split; [exact Hcls|].
  split; [rewrite Hcls; apply class_sequence_sorted|].
  split.
  - apply Forall_forall. intros r _. simpl.
    repeat split; try apply round6_rounded.
  - intros r. reflexivity.
Qed.

Lemma label_file_rows_witness :
  converts Sample.py LaPa_adapter empty_pool (fst Example.lapa_step)
    (identifier Example.face_jpg ++ dot_txt)
    (line_point Sample.py space Example.lapa_lines) 400 300
  /\ exists rows,
       image_labels (line_point Sample.py space Example.lapa_lines) 400 300
         (adapter_table LaPa_adapter) = Some rows
       /\ pool_labels (fst Example.lapa_step)
          = fs_write (identifier Example.face_jpg ++ dot_txt)
              (Text (map (csv_line Sample.py) (map round_row rows)))
              (pool_labels empty_pool)
       /\ Forall2 (box_row (line_point Sample.py space Example.lapa_lines) 400 300)
            (table_contours (adapter_table LaPa_adapter)) rows
       /\ List.length rows = 6.
Proof.
  assert (H : converts Sample.py LaPa_adapter empty_pool (fst Example.lapa_step)
                (identifier Example.face_jpg ++ dot_txt)
                (line_point Sample.py space Example.lapa_lines) 400 300)
    by lapa_step_converts.
  split; [exact H|].
  destruct (label_file_rows H) as (rows & H1 & H2 & H3 & H4 & _).
  exists rows. repeat split; assumption.
Defined.

(** ** Helen: the groups with several faces *)

Section MapM.
Variables A B : Type.
Variable f : A -> option B.

Lemma mapM_In (l : list A) (r : list B) (a : A) :
  mapM f l = Some r -> In a l -> exists b, f a = Some b /\ In b r.
Proof.
  revert r. induction l as [|x l IH]; intros r H Ha; [contradiction|].
  simpl in H. destruct (f x) as [b|] eqn:Eb; [|discriminate].
  destruct (mapM f l) as [bs|]; [|discriminate].
  injection H as <-. destruct Ha as [->|Ha].
  - exists b. split; [assumption | now left].
  - destruct (IH _ eq_refl Ha) as (b' & Hb' & Hin). exists b'. split; [assumption | now right].
Qed.

Lemma mapM_map (C : Type) (g : B -> C) (h : A -> C) (l : list A) (r : list B) :
  (forall a b, f a = Some b -> g b = h a) ->
  mapM f l = Some r -> map g r = map h l.
Proof.
  intros Hgh. revert r. induction l as [|x l IH]; intros r H.
  - injection H as <-. reflexivity.
  - simpl in H. destruct (f x) as [b|] eqn:Eb; [|discriminate].
    destruct (mapM f l) as [bs|]; [|discriminate].
    injection H as <-. simpl. rewrite (Hgh _ _ Eb). f_equal. now apply IH.
Qed.

End MapM.

Lemma insert_sorted_perm (x : str) (l : list str) :
  Permutation (Str.insert_sorted x l) (x :: l).
Proof.
  induction l as [|y l IH]; simpl; [reflexivity|].
  destruct (Str.leb x y); [reflexivity|].
  rewrite IH. apply perm_swap.
Qed.

Lemma sorted_perm (l : list str) : Permutation (Str.sorted l) l.
Proof.
  induction l as [|x l IH]; simpl; [reflexivity|].
  rewrite insert_sorted_perm. now constructor.
Qed.

Lemma img_face_df_rows (R : runtime) (listing : list str) (df : list face_row) :
  img_face_df R listing = Some df ->
  listing <> []
  /\ mapM (fun name =>
             f <- name_face_id R name ;; Some (FaceRow name (name_img_id name) f))
          (Str.sorted listing) = Some df.
Proof.
  unfold img_face_df. destruct listing; [discriminate|].
  intros H. split; [discriminate | exact H].
Qed.

Lemma img_face_df_names (R : runtime) (listing : list str) (df : list face_row) :
  img_face_df R listing = Some df ->
  map img_name df = Str.sorted listing
  /\ map img_id df = map name_img_id (Str.sorted listing).
Proof.
  intros H. apply img_face_df_rows in H. destruct H as [_ H]. split.
  - rewrite <- (map_id (Str.sorted listing)).
    apply (mapM_map _ img_name (fun n : str => n) _) in H; [exact H|].
    intros a b E. destruct (name_face_id R a); [|discriminate]. now injection E as <-.
  - apply (mapM_map _ img_id name_img_id _) in H; [exact H|].
    intros a b E. destruct (name_face_id R a); [|discriminate]. now injection E as <-.
Qed.

Lemma imgs_multi_faces_In (df : list face_row) (g : str) :
  In g (imgs_multi_faces df) <-> 1 < count_occ str_eq_dec (map img_id df) g.
Proof.
  unfold imgs_multi_faces, face_counts.
  rewrite in_map_iff. split.
  - intros ([g' c] & <- & Hin). apply filter_In in Hin. destruct Hin as [Hin Hc].
    apply in_map_iff in Hin. destruct Hin as (g'' & E & _).
    injection E as -> <-. simpl in *. now apply Nat.ltb_lt in Hc.
  - intros Hc. exists (g, count_occ str_eq_dec (map img_id df) g).
    split; [reflexivity|]. apply filter_In. split.
    + apply in_map_iff. exists g. split; [reflexivity|].
      apply (Permutation_in _ (Permutation_sym (sorted_perm _))).
      apply nodup_In. apply (count_occ_In str_eq_dec). lia.
    + simpl. now apply Nat.ltb_lt.
Qed.

(** The names [skip_imgs] holds are those of the listing that belong to a
    group of several images or carry a face index above 1. *)
Lemma helen_skip_imgs_In (R : runtime) (listing skip_imgs : list str) (name : str) :
  helen_skip_imgs R listing = Some skip_imgs ->
  (In name skip_imgs <-> In name listing /\ multi_face R listing name).
Proof.
  unfold helen_skip_imgs. intros H.
  destruct (img_face_df R listing) as [df|] eqn:Edf; [|discriminate].
  injection H as <-.
  destruct (img_face_df_names _ _ Edf) as [Hnames Hids].
  apply img_face_df_rows in Edf. destruct Edf as [_ Edf].
  assert (Hcount : forall g, count_occ str_eq_dec (map img_id df) g
                             = count_occ str_eq_dec (map name_img_id listing) g).
  { intros g. rewrite Hids. apply Permutation_count_occ.
    apply Permutation_map, sorted_perm. }
  assert (Hrow : forall r, In r df ->
                   In (img_name r) listing
                   /\ name_face_id R (img_name r) = Some (face_id r)).
  { intros r Hr. split.
    - apply (Permutation_in _ (sorted_perm listing)).
      rewrite <- Hnames. now apply in_map.
    - clear - Edf Hr.
      revert df Edf Hr. induction (Str.sorted listing) as [|x l IH]; intros df Edf Hr.
      + injection Edf as <-. contradiction.
      + simpl in Edf. destruct (name_face_id R x) as [k|] eqn:Ek; [|discriminate].
        destruct (mapM _ l) as [bs|]; [|discriminate].
        injection Edf as <-. destruct Hr as [<-|Hr]; [exact Ek|].
        now apply (IH bs). }
  unfold multi_face, skip_imgs_df. rewrite in_map_iff. split.
  - intros (r & <- & Hr). apply filter_In in Hr. destruct Hr as [Hr Hc].
    destruct (Hrow _ Hr) as [Hin Hk]. split; [exact Hin|].
    apply orb_true_iff in Hc. destruct Hc as [Hc|Hc].
    + left. apply Str_mem_In, imgs_multi_faces_In in Hc. now rewrite <- Hcount.
    + right. exists (face_id r). split; [exact Hk | now apply Z.ltb_lt].
  - intros [Hin Hmulti].
    assert (Hs : In name (Str.sorted listing))
      by (apply (Permutation_in _ (Permutation_sym (sorted_perm listing))), Hin).
    destruct (mapM_In _ _ _ Edf Hs) as (r & Er & Hr).
    destruct (name_face_id R name) as [k|] eqn:Ek; [|discriminate].
    injection Er as <-. exists (FaceRow name (name_img_id name) k).
    split; [reflexivity|]. apply filter_In. split; [exact Hr|]. simpl.
    apply orb_true_iff. destruct Hmulti as [Hc|(k' & Ek' & Hk')].
    + left. apply Str_mem_In, imgs_multi_faces_In. now rewrite Hcount.
    + right. injection Ek' as <-. now apply Z.ltb_lt.
Qed.





(** ** Paths *)

Lemma rcut_spec (c : ascii) (r a b : str) :
  Path.rcut c r = Some (a, b) -> r = a ++ c :: b.
Proof.
  revert a b. induction r as [|d r IH]; intros a b H; [discriminate|].
  simpl in H. destruct (Ascii.eqb d c) eqn:E.
  - apply Ascii.eqb_eq in E. subst d. now injection H as <- <-.
  - destruct (Path.rcut c r) as [[a' b']|]; [|discriminate].
    injection H as <- <-. simpl. f_equal. now apply IH.
Qed.

Lemma rev_eq_app (A : Type) (l a b : list A) :
  rev l = a ++ b -> l = rev b ++ rev a.
Proof.
  intros H. rewrite <- (rev_involutive l), H. apply rev_app_distr.
Qed.

Lemma splitext_name_app (f : str) :
  fst (Path.splitext_name f) ++ snd (Path.splitext_name f) = f.
Proof.
  unfold Path.splitext_name.
  destruct (Path.rcut Path.extsep (rev f)) as [[a b]|] eqn:E;
    [|apply app_nil_r].
  destruct (forallb (Ascii.eqb Path.extsep) b); [apply app_nil_r|].
  apply rcut_spec, rev_eq_app in E. simpl in *.
  rewrite E. now rewrite <- app_assoc.
Qed.

Lemma dirpart_basename (p : str) : Path.dirpart p ++ Path.basename p = p.
Proof.
  unfold Path.dirpart, Path.basename.
  destruct (Path.rcut Path.sep (rev p)) as [[a b]|] eqn:E; [|reflexivity].
  apply rcut_spec, rev_eq_app in E. simpl in E.
  rewrite E. now rewrite <- !app_assoc.
Qed.

(** A path is its root followed by its extension. *)
Lemma splitext_app (p : str) :
  fst (Path.splitext p) ++ snd (Path.splitext p) = p.
Proof.
  unfold Path.splitext.
  pose proof (splitext_name_app (Path.basename p)) as H.
  destruct (Path.splitext_name (Path.basename p)) as [root ext]. simpl in *.
  rewrite <- app_assoc, H. apply dirpart_basename.
Qed.

(** An extension is empty or starts with a dot. *)
Lemma splitext_ext (p : str) :
  snd (Path.splitext p) = [] \/ exists e, snd (Path.splitext p) = Path.extsep :: e.
Proof.
  unfold Path.splitext, Path.splitext_name.
  destruct (Path.rcut Path.extsep (rev (Path.basename p))) as [[a b]|];
    [|now left].
  destruct (forallb (Ascii.eqb Path.extsep) b); [now left|].
  right. simpl. eauto.
Qed.

Lemma identifier_app (p : str) : exists ext, p = identifier p ++ ext.
Proof.
  exists (snd (Path.splitext p)). symmetry. apply splitext_app.
Qed.

Lemma prefix_before (c : ascii) (p t root e : str) :
  ~ In c p -> p ++ t = root ++ c :: e -> exists t', root = p ++ t'.
Proof.
  revert root. induction p as [|d p IH]; intros root Hc H.
  - now exists root.
  - destruct root as [|d' root]; simpl in H.
    + injection H as -> _. exfalso. apply Hc. now left.
    + injection H as <- H. destruct (IH root) as [t' ->]; auto.
      * intros Hin. apply Hc. now right.
      * now exists t'.
Qed.

(** A prefix without a dot is a prefix of the identifier too. *)
Lemma startswith_identifier (p f : str) :
  ~ In Path.extsep p -> Str.startswith p f = true ->
  Str.startswith p (identifier f) = true.
Proof.
  intros Hdot H. apply startswith_split in H. destruct H as [t Ht].
  pose proof (splitext_app f) as Happ. fold (identifier f) in Happ.
  destruct (splitext_ext f) as [E|[e E]]; rewrite E in Happ.
  - rewrite app_nil_r in Happ. rewrite Happ, Ht. apply startswith_app.
  - assert (Happ' : p ++ t = identifier f ++ Path.extsep :: e)
      by (rewrite <- Ht; now symmetry).
    destruct (@prefix_before _ _ _ _ _ Hdot Happ') as [t' Et]. rewrite Et. apply startswith_app.
Qed.

(** ** LaPa: the cross-listed training images *)

Lemma exclude_prefix_no_dot (p : str) :
  In p exclude_prefix -> ~ In Path.extsep p.
Proof.
  intros [<-|[<-|[<-|[<-|[]]]]]; vm_compute; intuition discriminate.
Qed.

Lemma lapa_filter_In (listing : list str) (f p : str) :
  In p exclude_prefix -> Str.contains p f = true -> ~ In f (lapa_filter listing).
Proof.
  intros Hp Hc H. apply filter_In in H. destruct H as [_ H].
  apply negb_true_iff in H.
  assert (E : existsb (fun n => Str.contains n f) exclude_prefix = true)
    by (apply existsb_exists; eauto).
  congruence.
Qed.

Lemma lapa_image_names (R : runtime) (L : lapa_split) (l : list str)
    (P P' : pool) (names names' : list str) :
  foldM (lapa_image R L) l (P, names) = Some (P', names') ->
  names' = names ++ map identifier l.
Proof.
  revert P names. induction l as [|img_name l IH]; intros P names H.
  - simpl in H. injection H as _ <-. now rewrite app_nil_r.
  - cbn [foldM] in H.
    destruct (lapa_image R L (P, names) img_name) as [[P1 names1]|] eqn:E;
      [|discriminate].
    apply IH in H. subst names'. unfold lapa_image in E.
    destruct (copy _ _ _ _); [|discriminate].
    destruct (imread_shape _ _) as [[h w]|]; [|discriminate].
    destruct (open_lines _ _) as [[|num lines]|]; try discriminate.
    destruct (image_labels _ _ _ _); [|discriminate].
    injection E as _ <-. now rewrite <- app_assoc.
Qed.

(** C8.  In the LaPa pass a file of the training folder whose name starts
    with HELEN_, IBUG_, AFW_ or LFPW_ is not among the images walked, and
    its identifier is not among the training names, which are the
    identifiers of the images walked; the validation folder is walked
    whole, and its names are the identifiers of all its images. *)
Theorem lapa_cross_listed_excluded (R : runtime) (D : lapa_dataset) (P P' : pool)
    (lapa_train_names lapa_val_names : list str) :
  lapa_pass R D P = Some (P', lapa_train_names, lapa_val_names) ->
  (forall f p,
      In p exclude_prefix -> Str.startswith p f = true ->
      ~ In f (lapa_split_images true (lapa_train D))
      /\ ~ In (identifier f) lapa_train_names)
  /\ lapa_train_names = map identifier (lapa_split_images true (lapa_train D))
  /\ lapa_split_images false (lapa_val D) = listdir (lapa_images (lapa_val D))
  /\ lapa_val_names = map identifier (listdir (lapa_images (lapa_val D))).
Proof.
  unfold lapa_pass. intros H.
  destruct (foldM (lapa_image R (lapa_train D)) _ (P, []))
    as [[P1 train]|] eqn:E1; [|discriminate].
  destruct (foldM (lapa_image R (lapa_val D)) _ (P1, []))
    as [[P2 val]|] eqn:E2; [|discriminate].
  injection H as _ <- <-.
  apply lapa_image_names in E1, E2. simpl in E1, E2. subst train val.
  split; [|auto].
  intros f p Hp Hpre. split.
  - eapply lapa_filter_In; [exact Hp|]. now apply contains_startswith.
  - intros Hin. apply in_map_iff in Hin. destruct Hin as (g & Eg & Hg).
    eapply lapa_filter_In; [exact Hp| |exact Hg].
    apply contains_startswith.
    destruct (identifier_app g) as [ext Eext].
    pose proof (@startswith_identifier p f (exclude_prefix_no_dot Hp) Hpre) as Hid.
    apply startswith_split in Hid. destruct Hid as [t Et].
    rewrite Eext, Eg, Et, <- app_assoc. apply startswith_app.
Qed.

Lemma lapa_cross_listed_excluded_witness :
  lapa_pass Sample.py ExampleLapa.cross_listed empty_pool
  = Some ExampleLapa.cross_listed_out
  /\ ~ In ("HELEN_1.jpg" : str)
       (lapa_split_images true (lapa_train ExampleLapa.cross_listed))
  /\ ~ In ("HELEN_1" : str) (snd (fst ExampleLapa.cross_listed_out))
  /\ snd ExampleLapa.cross_listed_out = [("AFW_2" : str)].
Proof.
  assert (H : lapa_pass Sample.py ExampleLapa.cross_listed empty_pool
              = Some (fst (fst ExampleLapa.cross_listed_out),
                      snd (fst ExampleLapa.cross_listed_out),
                      snd ExampleLapa.cross_listed_out))
    by (vm_compute; reflexivity).
  pose proof (lapa_cross_listed_excluded _ _ _ H) as (Hex & _ & _ & Hval).
  split; [vm_compute; reflexivity|].
  assert (Hp : In ("HELEN_" : str) exclude_prefix) by (vm_compute; auto).
  destruct (Hex ("HELEN_1.jpg" : str) ("HELEN_" : str) Hp eq_refl) as [H1 H2].
  split; [exact H1|]. split; [exact H2|]. exact Hval.
Defined.

(** ** The copied datasets: names *)

Lemma listdir_fs_write (name : str) (f : file) (d : dir) (x : str) :
  In x (listdir (fs_write name f d)) -> x = name \/ In x (listdir d).
Proof.
  unfold listdir, keys, fs_write. simpl. intros [<-|H]; [now left|].
  right. apply in_map_iff in H. destruct H as (e & <- & He).
  apply filter_In in He. apply in_map. tauto.
Qed.

Lemma copy_listdir (src_dir : dir) (src dst : str) (dst_dir d' : dir) (x : str) :
  copy src_dir src dst dst_dir = Some d' ->
  In x (listdir d') -> x = dst \/ In x (listdir dst_dir).
Proof.
  unfold copy. destruct (lookup src src_dir); [|discriminate].
  intros H. injection H as <-. apply listdir_fs_write.
Qed.

Section PexelsFacts.
Variable R : runtime.

Lemma pexels_label_step (s : pexels_set) (P P' : pool) (names names' : list str)
    (l : str) :
  pexels_label R s (P, names) l = Some (P', names') ->
  names' = names ++ [cleaned R l]
  /\ (forall x, In x (listdir (pool_images P')) ->
        x = cleaned R l ++ dot_jpg \/ In x (listdir (pool_images P)))
  /\ (forall x, In x (listdir (pool_labels P')) ->
        x = cleaned R l ++ dot_txt \/ In x (listdir (pool_labels P))).
Proof.
  unfold pexels_label. fold (identifier l). fold (cleaned R l).
  destruct (copy (pexels_images s) _ _ _) as [images'|] eqn:E1; [|discriminate].
  destruct (copy (pexels_annotations s) _ _ _) as [labels'|] eqn:E2; [|discriminate].
  intros H. injection H as <- <-. simpl. split; [reflexivity|].
  split; intros x Hx; eapply copy_listdir; eauto.
Qed.

Lemma pexels_labels_fold (s : pexels_set) (ls : list str) (P P' : pool)
    (names names' : list str) :
  foldM (pexels_label R s) ls (P, names) = Some (P', names') ->
  names' = names ++ map (cleaned R) ls
  /\ (forall x, In x (listdir (pool_images P')) ->
        (exists l, In l ls /\ x = cleaned R l ++ dot_jpg)
        \/ In x (listdir (pool_images P)))
  /\ (forall x, In x (listdir (pool_labels P')) ->
        (exists l, In l ls /\ x = cleaned R l ++ dot_txt)
        \/ In x (listdir (pool_labels P))).
Proof.
  revert P names. induction ls as [|l ls IH]; intros P names H.
  - simpl in H. injection H as <- <-. rewrite app_nil_r. auto.
  - cbn [foldM] in H.
    destruct (pexels_label R s (P, names) l) as [[P1 names1]|] eqn:E;
      [|discriminate].
    apply pexels_label_step in E. destruct E as (-> & Hi & Hl).
    apply IH in H. destruct H as (-> & Hi' & Hl').
    split; [simpl; now rewrite <- app_assoc|].
    split; intros x Hx.
    + destruct (Hi' _ Hx) as [(l' & Hl'' & ->)|Hx1].
      * left. exists l'. split; [now right | reflexivity].
      * destruct (Hi _ Hx1) as [->|Hx2]; [|now right].
        left. exists l. split; [now left | reflexivity].
    + destruct (Hl' _ Hx) as [(l' & Hl'' & ->)|Hx1].
      * left. exists l'. split; [now right | reflexivity].
      * destruct (Hl _ Hx1) as [->|Hx2]; [|now right].
        left. exists l. split; [now left | reflexivity].
Qed.

Lemma pexels_sets_fold (sets : list (str * pexels_set)) (P P' : pool)
    (names names' : list str) :
  foldM (fun st s => foldM (pexels_label R (snd s))
                       (listdir (pexels_annotations (snd s))) st)
        sets (P, names) = Some (P', names') ->
  names' = names ++ map (cleaned R) (pexels_label_files sets)
  /\ (forall x, In x (listdir (pool_images P')) ->
        (exists l, In l (pexels_label_files sets) /\ x = cleaned R l ++ dot_jpg)
        \/ In x (listdir (pool_images P)))
  /\ (forall x, In x (listdir (pool_labels P')) ->
        (exists l, In l (pexels_label_files sets) /\ x = cleaned R l ++ dot_txt)
        \/ In x (listdir (pool_labels P))).
Proof.
  revert P names. induction sets as [|s sets IH]; intros P names H.
  - simpl in H. injection H as <- <-. rewrite app_nil_r. auto.
  - cbn [foldM] in H.
    destruct (foldM (pexels_label R (snd s)) _ (P, names)) as [[P1 names1]|] eqn:E;
      [|discriminate].
    apply pexels_labels_fold in E. destruct E as (-> & Hi & Hl).
    apply IH in H. destruct H as (-> & Hi' & Hl').
    unfold pexels_label_files in *. cbn [flat_map].
    split; [now rewrite map_app, app_assoc|].
    split; intros x Hx.
    + destruct (Hi' _ Hx) as [(l' & Hl'' & ->)|Hx1].
      * left. exists l'. split; [apply in_or_app; now right | reflexivity].
      * destruct (Hi _ Hx1) as [(l' & Hl'' & ->)|Hx2]; [|now right].
        left. exists l'. split; [apply in_or_app; now left | reflexivity].
    + destruct (Hl' _ Hx) as [(l' & Hl'' & ->)|Hx1].
      * left. exists l'. split; [apply in_or_app; now right | reflexivity].
      * destruct (Hl _ Hx1) as [(l' & Hl'' & ->)|Hx2]; [|now right].
        left. exists l'. split; [apply in_or_app; now left | reflexivity].
Qed.

End PexelsFacts.



(** ** The shuffle is a permutation *)

Section ShuffleFacts.
Variable R : runtime.
Variable A : Type.

Lemma set_nth_perm (l : list A) (j : nat) (a b : A) :
  nth_error l j = Some b -> Permutation (b :: set_nth j a l) (a :: l).
Proof.
  revert j. induction l as [|c l IH]; intros [|j] H; try discriminate.
  - injection H as ->. simpl. apply perm_swap.
  - simpl in H |- *. rewrite perm_swap. rewrite (perm_swap c a).
    apply perm_skip. now apply IH.
Qed.

Lemma swap_perm (i j : nat) (x : list A) : Permutation (swap i j x) x.
Proof.
  unfold swap.
  destruct (nth_error x i) as [a|] eqn:Ei; [|reflexivity].
  destruct (nth_error x j) as [b|] eqn:Ej; [|reflexivity].
  revert i j Ei Ej. induction x as [|c x IH]; intros [|i] [|j] Ei Ej;
    try discriminate; simpl in *.
  - injection Ei as ->. injection Ej as ->. reflexivity.
  - injection Ei as ->. now apply set_nth_perm.
  - injection Ej as ->. now apply set_nth_perm.
  - apply perm_skip. now apply IH.
Qed.

Lemma shuffle_loop_perm (i : nat) (x : list A) (s : rng R) :
  Permutation (fst (shuffle_loop R i x s)) x.
Proof.
  revert x s. induction i as [|i IH]; intros x s; simpl; [reflexivity|].
  destruct (randbelow R s (S (S i))) as [j s'].
  rewrite IH. apply swap_perm.
Qed.

Lemma shuffle_perm (x : list A) (s : rng R) : Permutation (fst (shuffle R x s)) x.
Proof. apply shuffle_loop_perm. Qed.

End ShuffleFacts.







(** ** The split of AFW and the order of the set *)


(** Whatever the generator draws, the shuffle of two names carries the order
    it is given into the order it returns. *)
Lemma shuffle_two_follows_order (R : runtime) (s : rng R) (a b : str) :
  a <> b -> fst (shuffle R [a; b] s) <> fst (shuffle R [b; a] s).
Proof.
  intros Hab. unfold shuffle.
  change (List.length [a; b] - 1) with 1. change (List.length [b; a] - 1) with 1.
  cbn [shuffle_loop].
  destruct (randbelow R s 2) as [j s'].
  assert (Hj : j mod 2 = 0 \/ j mod 2 = 1)
    by (pose proof (Nat.mod_upper_bound j 2); lia).
  destruct Hj as [E | E]; rewrite E; simpl; intros H; injection H as H1 H2; congruence.
Qed.


(** ** AFW: the faces of one base name *)

Lemma foldM_app (S A : Type) (f : S -> A -> option S) (l1 l2 : list A) (s : S) :
  foldM f (l1 ++ l2) s = (s' <- foldM f l1 s ;; foldM f l2 s').
Proof.
  revert s. induction l1 as [|a l1 IH]; intros s; simpl; [reflexivity|].
  destruct (f s a); [apply IH | reflexivity].
Qed.

Lemma combine_seq_snoc (A : Type) (l : list A) (x : A) (k : nat) :
  combine (seq k (List.length (l ++ [x]))) (l ++ [x])
  = combine (seq k (List.length l)) l ++ [(k + List.length l, x)].
Proof.
  revert k. induction l as [|a l IH]; intros k; simpl.
  - now rewrite Nat.add_0_r.
  - rewrite IH. now rewrite Nat.add_succ_r.
Qed.

Lemma slice_drop_frame (a b c z : str) (body : list str) :
  slice_drop 3 (a :: b :: c :: body ++ [z]) = body.
Proof. unfold slice_drop. simpl. apply removelast_last. Qed.

Section AfwFacts.
Variable R : runtime.
Variable folder : str.
Variable afw : dir.
Variable n : str.
Variable grouped_points : list str.

(** What one run of the body of the group loop leaves. *)
Lemma afw_face_step (P P' : pool) (shape shape' : Z * Z) (i : nat) (img_name : str) :
  afw_face R folder afw n grouped_points (P, shape) (i, img_name) = Some (P', shape') ->
  exists f pts g all_lines rows,
    afw_file R folder afw img_name = Some f
    /\ (if i =? 0 then image_shape f else Some shape) = Some shape'
    /\ lookup (n ++ dot_jpg) (pool_images P') = Some f
    /\ nth_error grouped_points i = Some pts
    /\ afw_file R folder afw pts = Some g
    /\ readlines_rstrip g = Some all_lines
    /\ image_labels (line_point R space (slice_drop 3 all_lines))
         (fst shape') (snd shape') part_points_afw = Some rows
    /\ lookup (n ++ dot_txt) (pool_labels P') = Some (to_csv_rounded R rows).
Proof.
  unfold afw_face. intros H.
  destruct (afw_file R folder afw img_name) as [f|] eqn:Ef; [|discriminate].
  destruct (nth_error grouped_points i) as [pts|] eqn:Ep; [|discriminate].
  destruct (afw_file R folder afw pts) as [g|] eqn:Eg; [|discriminate].
  destruct (readlines_rstrip g) as [all_lines|] eqn:Eo; [|discriminate].
  destruct (if i =? 0 then image_shape f else Some shape)
    as [[img_h img_w]|] eqn:Es; [|discriminate].
  destruct (image_labels (line_point R space (slice_drop 3 all_lines))
              img_h img_w part_points_afw) as [rows|] eqn:E; [|discriminate].
  injection H as <- <-.
  exists f, pts, g, all_lines, rows. cbn [pool_images pool_labels fst snd].
  rewrite !fs_write_lookup. repeat split; solve [reflexivity | assumption].
Qed.

(** The faces after the first keep the shape read from the first image. *)
Lemma afw_faces_keep_shape (l : list str) (k : nat) (st st' : pool * (Z * Z)) :
  foldM (afw_face R folder afw n grouped_points)
        (combine (seq (S k) (List.length l)) l) st
  = Some st' ->
  snd st' = snd st.
Proof.
  revert k st. induction l as [|x l IH]; intros k st H.
  - simpl in H. now injection H as <-.
  - cbn [List.length seq combine foldM] in H.
    destruct (afw_face R folder afw n grouped_points st (S k, x)) as [st1|] eqn:E;
      [|discriminate].
    apply IH in H. rewrite H. destruct st as [P shape], st1 as [P1 shape1].
    apply afw_face_step in E. destruct E as (f & _ & _ & _ & _ & _ & E & _).
    simpl in E.
    now injection E as <-.
Qed.

End AfwFacts.

(** C6, as the code has it.  Every image of a group is copied in turn to
    [{n}.jpg], and the label file [{n}.txt] is written anew for each: what
    remains is the last image of the group and the rows computed from the
    point file at the last index, read without its first three lines and its
    last line, and scaled with the height and width of the first image. *)
Theorem afw_group_keeps_last (R : runtime) (folder : str) (afw : dir) (n : str)
    (P P' : pool) (shape shape' : Z * Z) :
  afw_group R folder afw (P, shape) n = Some (P', shape') ->
  glob R folder afw n dot_jpg <> [] ->
  (exists f,
      afw_file R folder afw (last (glob R folder afw n dot_jpg) []) = Some f
      /\ lookup (n ++ dot_jpg) (pool_images P') = Some f)
  /\ (exists pts g all_lines first rows img_h img_w,
        nth_error (glob R folder afw n dot_pts)
                  (List.length (glob R folder afw n dot_jpg) - 1)
        = Some pts
        /\ afw_file R folder afw pts = Some g
        /\ readlines_rstrip g = Some all_lines
        /\ afw_file R folder afw (hd [] (glob R folder afw n dot_jpg)) = Some first
        /\ image_shape first = Some (img_h, img_w)
        /\ image_labels (line_point R space (slice_drop 3 all_lines))
             img_h img_w part_points_afw = Some rows
        /\ lookup (n ++ dot_txt) (pool_labels P') = Some (to_csv_rounded R rows))
  /\ (forall (a b c z : str) (body : list str),
        slice_drop 3 (a :: b :: c :: body ++ [z]) = body).
Proof.
  unfold afw_group. intros H Hne.
  destruct (exists_last Hne) as (init & lst & E). rewrite E in *. clear E Hne.
  unfold enumerate in H. rewrite combine_seq_snoc, foldM_app in H.
  destruct (foldM _ (combine (seq 0 (List.length init)) init) (P, shape))
    as [[P1 shape1]|] eqn:E1; [|discriminate].
  cbn [foldM] in H.
  destruct (afw_face R folder afw n (glob R folder afw n dot_pts) (P1, shape1)
              (0 + List.length init, lst)) as [st|] eqn:E2; [|discriminate].
  injection H as ->. apply afw_face_step in E2.
  destruct E2 as (f & pts & g & all_lines & rows & Hf & Hshape & Hjpg & Hpts & Hg
                  & Hopen & Hrows & Htxt).
  rewrite last_last, length_app. simpl List.length.
  replace (List.length init + 1 - 1) with (0 + List.length init) by lia.
  split; [eauto|]. split; [|exact slice_drop_frame].
  destruct init as [|x init].
  - exists pts, g, all_lines, f, rows, (fst shape'), (snd shape').
    rewrite <- surjective_pairing. simpl in Hshape |- *. auto 10.
  - simpl in Hshape. injection Hshape as ->. simpl hd.
    cbn [List.length seq combine foldM] in E1.
    destruct (afw_face R folder afw n (glob R folder afw n dot_pts) (P, shape) (0, x))
      as [[P0 shape0]|] eqn:E0; [|discriminate].
    apply afw_faces_keep_shape in E1. simpl in E1.
    apply afw_face_step in E0.
    destruct E0 as (f0 & _ & _ & _ & _ & Hf0 & E0 & _). simpl in E0.
    exists pts, g, all_lines, f0, rows, (fst shape'), (snd shape').
    rewrite <- surjective_pairing.
    repeat (split; [assumption|]). split; [congruence|]. split; assumption.
Qed.

Lemma afw_group_keeps_last_witness :
  afw_group Sample.py ExampleAfw.afw_path ExampleAfw.two_faces
    (empty_pool, (0%Z, 0%Z)) ExampleAfw.five
  = Some ExampleAfw.two_faces_group
  /\ glob Sample.py ExampleAfw.afw_path ExampleAfw.two_faces ExampleAfw.five dot_jpg
     <> []
  /\ lookup (ExampleAfw.five ++ dot_jpg) (pool_images (fst ExampleAfw.two_faces_group))
     = Some ExampleAfw.second_face.
Proof.
  assert (H : afw_group Sample.py ExampleAfw.afw_path ExampleAfw.two_faces
                (empty_pool, (0%Z, 0%Z)) ExampleAfw.five
              = Some (fst ExampleAfw.two_faces_group, snd ExampleAfw.two_faces_group))
    by (vm_compute; reflexivity).
  assert (Hne : glob Sample.py ExampleAfw.afw_path ExampleAfw.two_faces
                  ExampleAfw.five dot_jpg <> [])
    by (vm_compute; discriminate).
  split; [vm_compute; reflexivity|]. split; [exact Hne|].
  destruct (@afw_group_keeps_last _ _ _ _ _ _ _ _ H Hne) as ((f & Hf & Hjpg) & _).
  rewrite Hjpg, <- Hf. vm_compute. reflexivity.
Defined.

(** C6 as stated fails: of two faces of one base name it is the image of the
    second that the pool holds in the end, not that of the first. *)
Lemma afw_first_image_not_kept :
  main Sample.py Example.data_root ExampleAfw.two_faces_tree
  = Some ExampleAfw.two_faces_out
  /\ glob Sample.py ExampleAfw.afw_path ExampleAfw.two_faces ExampleAfw.five dot_jpg
     = [("/data/AFW-dataset/5_1.jpg" : str); ("/data/AFW-dataset/5_2.jpg" : str)]
  /\ afw_file Sample.py ExampleAfw.afw_path ExampleAfw.two_faces
       ("/data/AFW-dataset/5_1.jpg" : str)
     = Some ExampleAfw.first_face
  /\ lookup ("5.jpg" : str) (pool_images (out_pool ExampleAfw.two_faces_out))
     = Some ExampleAfw.second_face
  /\ ExampleAfw.first_face <> ExampleAfw.second_face.
Proof.
  split; [vm_compute; reflexivity|].
  split; [reflexivity|]. split; [reflexivity|]. split; [reflexivity|].
  discriminate.
Qed.

(** ** The size of the training slice *)

Lemma round_53_near (m : Z) :
  (0 < m)%Z ->
  let V := (fst (round_53 m) * 2 ^ snd (round_53 m))%Z in
  (0 <= snd (round_53 m))%Z
  /\ (m * (2 ^ 53 - 1) <= V * 2 ^ 53)%Z
  /\ (V * 2 ^ 53 <= m * (2 ^ 53 + 1))%Z.
Proof.
  intros Hm. unfold round_53.
  set (sh := (Z.log2 m + 1 - 53)%Z).
  destruct (Z.leb_spec sh 0) as [Hsh|Hsh]; cbn [fst snd].
  - cbv zeta. rewrite Z.pow_0_r. split; [lia|]. split; nia.
  - pose proof (Z.log2_spec m Hm) as [Hlo _].
    assert (Hlog : Z.log2 m = (sh - 1 + 53)%Z) by (unfold sh; lia).
    rewrite Hlog, Z.pow_add_r in Hlo by lia.
    rewrite Z.shiftr_div_pow2, Z.land_ones, Z.shiftl_1_l by lia.
    assert (Hp : (2 ^ sh = 2 * 2 ^ (sh - 1))%Z).
    { replace sh with (Z.succ (sh - 1)) at 1 by lia. apply Z.pow_succ_r. lia. }
    assert (Hh : (0 < 2 ^ (sh - 1))%Z) by (apply Z.pow_pos_nonneg; lia).
    pose proof (Z.div_mod m (2 ^ sh)) as Hdm.
    pose proof (Z.mod_pos_bound m (2 ^ sh)) as Hr.
    set (q := (m / 2 ^ sh)%Z) in *. set (r := (m mod 2 ^ sh)%Z) in *.
    set (h := (2 ^ (sh - 1))%Z) in *.
    assert (E : (m = 2 * h * q + r)%Z) by (rewrite <- Hp; apply Hdm; lia).
    assert (Hr' : (0 <= r < 2 * h)%Z) by (rewrite <- Hp; apply Hr; lia).
    assert (H53 : (2 ^ 53 = 9007199254740992)%Z) by reflexivity.
    rewrite H53 in *. rewrite Hp.
    cbv zeta. split; [lia|].
    destruct (Z.compare_spec r h) as [Hc|Hc|Hc].
    + destruct (Z.even q); split; nia.
    + split; nia.
    + split; nia.
Qed.

Lemma train_size_value (n : nat) :
  1 <= n ->
  exists V : Z,
    Z.of_nat (train_size n) = (V / 2 ^ 53)%Z
    /\ (double_0_7 * Z.of_nat n * (2 ^ 53 - 1) <= V * 2 ^ 53)%Z
    /\ (V * 2 ^ 53 <= double_0_7 * Z.of_nat n * (2 ^ 53 + 1))%Z.
Proof.
  intros Hn. unfold train_size.
  assert (Hm : (0 < double_0_7 * Z.of_nat n)%Z) by (unfold double_0_7; lia).
  destruct (round_53_near Hm) as (Hsh & Hlo & Hhi).
  destruct (round_53 (double_0_7 * Z.of_nat n)) as [q shift]. cbn [fst snd] in *.
  exists (q * 2 ^ shift)%Z. split; [|split; assumption].
  rewrite Z.shiftr_div_pow2, Z.shiftl_mul_pow2 by lia.
  apply Z2Nat.id. apply Z.div_pos; [|reflexivity].
  set (V := (q * 2 ^ shift)%Z) in *.
  set (m := (double_0_7 * Z.of_nat n)%Z) in *.
  assert (H53 : (2 ^ 53 = 9007199254740992)%Z) by reflexivity.
  rewrite H53 in *. lia.
Qed.

Lemma train_size_0 : train_size 0 = 0.
Proof. reflexivity. Qed.

Lemma train_size_lt (n : nat) : 1 <= n -> train_size n < n.
Proof.
  intros Hn. destruct (train_size_value Hn) as (V & E & _ & Hhi).
  assert (H53 : (2 ^ 53 = 9007199254740992)%Z) by reflexivity.
  rewrite H53 in *. unfold double_0_7 in *.
  assert (HV : (V / 9007199254740992 < Z.of_nat n)%Z)
    by (apply Z.div_lt_upper_bound; lia).
  lia.
Qed.

Lemma train_size_pos (n : nat) : 2 <= n -> 1 <= train_size n.
Proof.
  intros Hn. assert (Hn1 : 1 <= n) by lia.
  destruct (train_size_value Hn1) as (V & E & Hlo & _).
  assert (H53 : (2 ^ 53 = 9007199254740992)%Z) by reflexivity.
  rewrite H53 in *. unfold double_0_7 in *.
  assert (HV : (1 <= V / 9007199254740992)%Z)
    by (apply Z.div_le_lower_bound; lia).
  lia.
Qed.

(** X1.  The slices of a name list: the training slice has
    [int(0.7 * len(names))] names and the validation slice the others; a list
    that is not empty always leaves a name for validation, and a list of two
    names or more always gives one to training. *)
Theorem split_names_sizes (names tr va : list str) :
  split_names names = (tr, va) ->
  List.length tr = train_size (List.length names)
  /\ List.length tr + List.length va = List.length names
  /\ (names <> [] -> va <> [])
  /\ (2 <= List.length names -> tr <> []).
Proof.
  unfold split_names. intros H. injection H as <- <-.
  set (n := List.length names).
  assert (Hle : train_size n <= n).
  { destruct n as [|n']; [rewrite train_size_0; lia|].
    pose proof (@train_size_lt (S n')). lia. }
  assert (Ht : List.length (firstn (train_size n) names) = train_size n)
    by (rewrite length_firstn; fold n; lia).
  assert (Hv : List.length (skipn (train_size n) names) = n - train_size n)
    by (rewrite length_skipn; reflexivity).
  split; [exact Ht|]. split; [lia|]. split.
  - intros Hne E. rewrite E in Hv. simpl in Hv.
    assert (1 <= n) by (unfold n; destruct names; simpl; [congruence | lia]).
    pose proof (@train_size_lt n). lia.
  - intros H2 E. rewrite E in Ht. simpl in Ht.
    pose proof (@train_size_pos n). lia.
Qed.

Lemma split_names_sizes_witness :
  split_names (map list_ascii_of_string ["a"; "b"; "c"]%string)
  = ([("a" : str); ("b" : str)], [("c" : str)])
  /\ List.length [("a" : str); ("b" : str)] = train_size 3
  /\ [("c" : str)] <> [].
Proof.
  pose proof (@split_names_sizes (map list_ascii_of_string ["a"; "b"; "c"]%string)
                [("a" : str); ("b" : str)] [("c" : str)] eq_refl)
    as (H1 & _ & H3 & _).
  split; [reflexivity|]. split; [exact H1|].
  apply H3. discriminate.
Defined.

(** X2.  For a list of fewer than [2^49] names the training slice never
    holds more than seven tenths of them and misses seven tenths by less
    than one name; the binary product can fall short of the exact one,
    as for 90 names, which give 62 and not 63. *)
Theorem train_size_seven_tenths (n : nat) :
  (Z.of_nat n < 2 ^ 49)%Z ->
  10 * train_size n <= 7 * n
  /\ 7 * n <= 10 * train_size n + 10
  /\ train_size 90 = 62.
Proof.
  intros Hn. split; [|split; [|reflexivity]].
  - destruct n as [|n']; [rewrite train_size_0; lia|].
    assert (H1 : 1 <= S n') by lia.
    destruct (train_size_value H1) as (V & E & _ & Hhi).
    set (t := train_size (S n')) in *. set (k := Z.of_nat (S n')) in *.
    assert (H53 : (2 ^ 53 = 9007199254740992)%Z) by reflexivity.
    assert (H49 : (2 ^ 49 = 562949953421312)%Z) by reflexivity.
    rewrite H53 in *. rewrite H49 in *. unfold double_0_7 in *.
    assert (Ht : (Z.of_nat t * 9007199254740992 <= V)%Z).
    { rewrite E. pose proof (Z.mul_div_le V 9007199254740992). lia. }
    assert (Hk : (0 < k)%Z) by (unfold k; lia).
    assert ((10 * Z.of_nat t <= 7 * k)%Z) by lia.
    unfold k in *. lia.
  - destruct n as [|n']; [lia|].
    assert (H1 : 1 <= S n') by lia.
    destruct (train_size_value H1) as (V & E & Hlo & _).
    set (t := train_size (S n')) in *. set (k := Z.of_nat (S n')) in *.
    assert (H53 : (2 ^ 53 = 9007199254740992)%Z) by reflexivity.
    assert (H49 : (2 ^ 49 = 562949953421312)%Z) by reflexivity.
    rewrite H53 in *. rewrite H49 in *. unfold double_0_7 in *.
    assert (Ht : (V < (Z.of_nat t + 1) * 9007199254740992)%Z).
    { rewrite E.
      pose proof (Z.div_mod V 9007199254740992).
      pose proof (Z.mod_pos_bound V 9007199254740992). lia. }
    assert (Hk : (0 < k)%Z) by (unfold k; lia).
    assert ((7 * k <= 10 * Z.of_nat t + 10)%Z) by lia.
    unfold k in *. lia.
Qed.

Lemma train_size_seven_tenths_witness :
  (Z.of_nat 170 < 2 ^ 49)%Z
  /\ 10 * train_size 170 <= 7 * 170
  /\ 7 * 170 <= 10 * train_size 170 + 10.
Proof.
  assert (H : (Z.of_nat 170 < 2 ^ 49)%Z) by (vm_compute; reflexivity).
  destruct (train_size_seven_tenths 170 H) as (H1 & H2 & _).
  split; [exact H|]. split; assumption.
Defined.

(** ** When the two loops succeed *)

Section MapMSome.
Variables A B : Type.
Variable f : A -> option B.

Lemma mapM_some_iff (l : list A) :
  (exists r, mapM f l = Some r) <-> (forall a, In a l -> exists b, f a = Some b).
Proof.
  induction l as [|x l IH]; simpl.
  - split; [intros _ a [] | intros _; eauto].
  - split.
    + intros [r H] a [<-|Ha].
      * destruct (f x) as [b|]; [eauto | discriminate].
      * apply IH; [|exact Ha].
        destruct (f x); [|discriminate].
        destruct (mapM f l); [eauto | discriminate].
    + intros H. destruct (H x (or_introl eq_refl)) as [b ->].
      destruct (proj2 IH (fun a Ha => H a (or_intror Ha))) as [r ->]. eauto.
Qed.

Lemma mapM_length (l : list A) (r : list B) :
  mapM f l = Some r -> List.length r = List.length l.
Proof.
  revert r. induction l as [|x l IH]; intros r H; simpl in H.
  - now injection H as <-.
  - destruct (f x); [|discriminate]. destruct (mapM f l); [|discriminate].
    injection H as <-. simpl. f_equal. now apply IH.
Qed.

End MapMSome.

Lemma points_to_yolo_some (img_labels : list row) (contour : list point)
    (part_id : nat) (img_h img_w : Z) :
  contour <> [] ->
  exists r, points_to_yolo img_labels contour part_id img_h img_w = Some r.
Proof.
  intros Hne. destruct contour as [|p contour]; [congruence|].
  unfold points_to_yolo. simpl. eauto.
Qed.

Section LoopsSucceed.
Variable get_point : nat -> option point.
Variables img_h img_w : Z.

Lemma contours_loop_some (part_id : nat) (contours : list (list nat))
    (img_labels : list row) :
  (forall idxs, In idxs contours -> idxs <> []) ->
  (exists rows,
      contours_loop get_point img_h img_w part_id contours img_labels = Some rows)
  <-> (forall i, In i (List.concat contours) -> (exists p, get_point i = Some p)).
Proof.
  revert img_labels. induction contours as [|idxs rest IH]; intros img_labels Hne.
  - simpl. split; [intros _ i [] | eauto].
  - assert (Hrest : forall idxs', In idxs' rest -> idxs' <> [])
      by (intros; apply Hne; now right).
    cbn [contours_loop List.concat]. split.
    + intros [rows H] i Hi.
      destruct (mapM get_point idxs) as [contour|] eqn:Em; [|discriminate].
      destruct (points_to_yolo img_labels contour part_id img_h img_w)
        as [[img_labels' box]|]; [|discriminate].
      apply in_app_or in Hi. destruct Hi as [Hi|Hi].
      * apply (proj1 (mapM_some_iff get_point idxs)); eauto.
      * apply (proj1 (IH img_labels' Hrest)); eauto.
    + intros H.
      destruct (proj2 (mapM_some_iff get_point idxs)) as [contour Em].
      { intros i Hi. apply H, in_or_app. now left. }
      rewrite Em.
      assert (Hc : contour <> []).
      { intros ->. apply mapM_length in Em. simpl in Em.
        apply (Hne idxs (or_introl eq_refl)). now apply length_zero_iff_nil. }
      destruct (@points_to_yolo_some img_labels contour part_id img_h img_w Hc)
        as [[img_labels' box] ->].
      apply IH; [exact Hrest|]. intros i Hi. apply H, in_or_app. now right.
Qed.

Lemma parts_loop_some (table : part_table) (parts : list (nat * str))
    (img_labels : list row) :
  (forall p, In p parts ->
     exists contours, lookup (snd p) table = Some contours
                      /\ forall idxs, In idxs contours -> idxs <> []) ->
  (exists rows, parts_loop get_point img_h img_w table parts img_labels = Some rows)
  <-> (forall i, In i (flat_map (fun p => List.concat (contours_of table (snd p))) parts)
                 -> (exists p, get_point i = Some p)).
Proof.
  revert img_labels. induction parts as [|[part_id part_name] rest IH];
    intros img_labels Hok.
  - simpl. split; [intros _ i [] | eauto].
  - assert (Hrest : forall p, In p rest ->
              exists contours, lookup (snd p) table = Some contours
                               /\ forall idxs, In idxs contours -> idxs <> [])
      by (intros; apply Hok; now right).
    destruct (Hok (part_id, part_name) (or_introl eq_refl)) as (contours & El & Hne).
    simpl in El. cbn [parts_loop flat_map snd]. unfold contours_of at 1.
    rewrite El. split.
    + intros [rows H] i Hi.
      destruct (contours_loop get_point img_h img_w part_id contours img_labels)
        as [img_labels'|] eqn:Ec; [|discriminate].
      apply in_app_or in Hi. destruct Hi as [Hi|Hi].
      * apply (proj1 (@contours_loop_some part_id contours img_labels Hne)); eauto.
      * apply (proj1 (IH img_labels' Hrest)); eauto.
    + intros H.
      destruct (proj2 (@contours_loop_some part_id contours img_labels Hne))
        as [img_labels' Ec].
      { intros i Hi. apply H, in_or_app. now left. }
      rewrite Ec. apply IH; [exact Hrest|].
      intros i Hi. apply H, in_or_app. now right.
Qed.

End LoopsSucceed.

Lemma enumerate_snd (A : Type) (l : list A) : map snd (enumerate l) = l.
Proof.
  unfold enumerate. generalize 0. induction l as [|a l IH]; intros k; simpl;
    [reflexivity | now rewrite IH].
Qed.

Lemma flat_map_map (A B C : Type) (f : A -> B) (g : B -> list C) (l : list A) :
  flat_map g (map f l) = flat_map (fun a => g (f a)) l.
Proof.
  induction l as [|a l IH]; simpl; [reflexivity | now rewrite IH].
Qed.

Lemma table_ok_spec (table : part_table) :
  table_ok table = true ->
  forall p, In p (enumerate use_parts) ->
    exists contours, lookup (snd p) table = Some contours
                     /\ forall idxs, In idxs contours -> idxs <> [].
Proof.
  unfold table_ok. intros H p Hp.
  assert (Hs : In (snd p) use_parts).
  { rewrite <- (enumerate_snd use_parts). now apply in_map. }
  rewrite forallb_forall in H. specialize (H _ Hs).
  destruct (lookup (snd p) table) as [contours|]; [|discriminate].
  exists contours. split; [reflexivity|].
  intros idxs Hi ->. rewrite forallb_forall in H. specialize (H _ Hi).
  discriminate.
Qed.

(** The loops succeed on a table exactly when every landmark they look up is
    there. *)
Lemma image_labels_some (get_point : nat -> option point) (img_h img_w : Z)
    (table : part_table) :
  table_ok table = true ->
  (exists rows, image_labels get_point img_h img_w table = Some rows)
  <-> (forall i, In i (needed_landmarks table) -> exists p, get_point i = Some p).
Proof.
  intros Hok. unfold image_labels, needed_landmarks.
  rewrite (@parts_loop_some get_point img_h img_w table _ [] (table_ok_spec table Hok)).
  assert (E : flat_map (fun p : nat * str => List.concat (contours_of table (snd p)))
                (enumerate use_parts)
              = flat_map (fun p => List.concat (contours_of table p)) use_parts).
  { rewrite <- (flat_map_map snd (fun p => List.concat (contours_of table p))).
    now rewrite enumerate_snd. }
  rewrite E. reflexivity.
Qed.

Lemma incl_by_computation (l1 l2 : list nat) :
  forallb (fun x => existsb (Nat.eqb x) l2) l1 = true -> incl l1 l2.
Proof.
  intros H x Hx. rewrite forallb_forall in H. specialize (H _ Hx).
  apply existsb_exists in H. destruct H as (y & Hy & E).
  apply Nat.eqb_eq in E. now subst.
Qed.

Lemma needed_landmarks_range (a : adapter) (i : nat) :
  In i (needed_landmarks (adapter_table a))
  <-> first_landmark a <= i < landmark_count a.
Proof.
  assert (H1 : incl (needed_landmarks (adapter_table a))
                 (seq (first_landmark a) (landmark_count a - first_landmark a)))
    by (apply incl_by_computation; destruct a; vm_compute; reflexivity).
  assert (H2 : incl (seq (first_landmark a) (landmark_count a - first_landmark a))
                 (needed_landmarks (adapter_table a)))
    by (apply incl_by_computation; destruct a; vm_compute; reflexivity).
  split.
  - intros H. apply H1, in_seq in H. destruct a; simpl in *; lia.
  - intros H. apply H2, in_seq. destruct a; simpl in *; lia.
Qed.

(** The loops succeed for an adapter exactly when the landmarks of its range
    are there. *)
Lemma image_labels_adapter_some (a : adapter) (get_point : nat -> option point)
    (img_h img_w : Z) :
  (exists rows, image_labels get_point img_h img_w (adapter_table a) = Some rows)
  <-> (forall i, first_landmark a <= i < landmark_count a ->
         exists p, get_point i = Some p).
Proof.
  assert (Hok : table_ok (adapter_table a) = true) by (destruct a; reflexivity).
  rewrite (@image_labels_some get_point img_h img_w _ Hok).
  split; intros H i Hi; apply H; now apply needed_landmarks_range.
Qed.

(** X3.  The conversion of the landmarks of an image succeeds exactly when
    every landmark from the first index the adapter's table names to the
    last is there: 41 to 193 for Helen, 17 to 67 for AFW and the semifrontal
    images of Menpo2D, 12 to 38 for its profile images, 33 to 103 for LaPa.
    The landmarks of the jaw below, and any above, are never looked up. *)
Theorem landmarks_needed (a : adapter) (get_point : nat -> option point)
    (img_h img_w : Z) :
  (exists rows, image_labels get_point img_h img_w (adapter_table a) = Some rows)
  <-> (forall i, first_landmark a <= i < landmark_count a ->
         exists p, get_point i = Some p).
Proof. apply image_labels_adapter_some. Qed.

Lemma landmarks_needed_witness :
  exists rows,
    image_labels
      (fun i => if (33 <=? i) && (i <? 104)
                then Some (inject_Z (Z.of_nat i), 0%Q) else None)
      400 300 (adapter_table LaPa_adapter) = Some rows.
Proof.
  apply (proj2 (landmarks_needed LaPa_adapter _ 400 300)).
  intros i Hi. simpl in Hi.
  destruct (Nat.leb_spec 33 i); [|lia]. destruct (Nat.ltb_spec i 104); [|lia].
  simpl. eauto.
Defined.

(** ** Annotations that are too short *)

Lemma line_point_bound (R : runtime) (sep : str) (lines : list str) (i : nat)
    (p : point) :
  line_point R sep lines i = Some p -> i < List.length lines.
Proof.
  unfold line_point. intros H. apply nth_error_Some.
  destruct (nth_error lines i); [discriminate | discriminate].
Qed.

Lemma image_labels_short (R : runtime) (a : adapter) (sep : str) (lines : list str)
    (img_h img_w : Z) :
  List.length lines < landmark_count a ->
  image_labels (line_point R sep lines) img_h img_w (adapter_table a) = None.
Proof.
  intros Hlen.
  destruct (image_labels (line_point R sep lines) img_h img_w (adapter_table a))
    as [rows|] eqn:E; [|reflexivity].
  exfalso.
  assert (Hs : exists rows, image_labels (line_point R sep lines) img_h img_w
                              (adapter_table a) = Some rows) by eauto.
  apply image_labels_adapter_some
    with (i := landmark_count a - 1) in Hs; [|destruct a; simpl; lia].
  destruct Hs as [p Hp]. apply line_point_bound in Hp. lia.
Qed.

Lemma length_slice_drop (A : Type) (l : list A) :
  List.length (slice_drop 3 l) = List.length l - 4.
Proof.
  unfold slice_drop.
  assert (H : forall l' : list A, List.length (removelast l') = List.length l' - 1).
  { induction l' as [|x [|y l'] IH]; try reflexivity.
    change (removelast (x :: y :: l')) with (x :: removelast (y :: l')).
    simpl List.length in *. rewrite IH. lia. }
  rewrite H, length_skipn. lia.
Qed.

(** X4.  A landmark file that is too short aborts the run: an annotation of
    Helen whose image is not skipped needs 194 lines after its first, a point
    file of AFW 72 lines with its frame, a landmark file of LaPa 104 lines
    after its count line. *)
Theorem short_annotation_aborts (R : runtime) :
  (forall images skip_imgs P ann first lines,
      readlines_rstrip (snd ann) = Some (first :: lines) ->
      Str.mem (first ++ dot_jpg) skip_imgs = false ->
      List.length lines < 194 ->
      helen_annotation R images skip_imgs P ann = None)
  /\ (forall folder afw n grouped_points st i img_name pts f all_lines,
        nth_error grouped_points i = Some pts ->
        afw_file R folder afw pts = Some f ->
        readlines_rstrip f = Some all_lines ->
        List.length all_lines < 72 ->
        afw_face R folder afw n grouped_points st (i, img_name) = None)
  /\ (forall L st img_name all_lines,
        open_lines (lapa_landmarks L)
          (nth 0 (Str.split dot img_name) [] ++ dot_txt) = Some all_lines ->
        List.length all_lines < 105 ->
        lapa_image R L st img_name = None).
Proof.
  split; [|split].
  - intros images skip P ann first lines Hread Hskip Hlen.
    unfold helen_annotation. rewrite Hread, Hskip.
    destruct (imread_shape images (first ++ dot_jpg)) as [[h w]|]; [|reflexivity].
    change part_points_helen with (adapter_table Helen_adapter).
    now rewrite (@image_labels_short R Helen_adapter helen_sep lines h w Hlen).
  - intros folder afw n pts_list [P shape] i img_name pts f all_lines
           Hnth Hfile Hopen Hlen.
    unfold afw_face. rewrite Hnth, Hfile, Hopen.
    destruct (afw_file R folder afw img_name) as [img|]; [|reflexivity].
    destruct (if i =? 0 then image_shape img else Some shape)
      as [[h w]|]; [|reflexivity].
    change part_points_afw with (adapter_table AFW_adapter).
    rewrite (@image_labels_short R AFW_adapter space (slice_drop 3 all_lines) h w);
      [reflexivity|].
    rewrite length_slice_drop. simpl. lia.
  - intros L [P names] img_name all_lines Hopen Hlen.
    unfold lapa_image. rewrite Hopen.
    destruct (copy (lapa_images L) img_name img_name (pool_images P));
      [|reflexivity].
    destruct (imread_shape (lapa_images L) img_name) as [[h w]|]; [|reflexivity].
    destruct all_lines as [|num lines]; [reflexivity|].
    change part_points_lapa with (adapter_table LaPa_adapter).
    rewrite (@image_labels_short R LaPa_adapter space lines h w); [reflexivity|].
    simpl in Hlen |- *. lia.
Qed.

Lemma short_annotation_aborts_witness :
  helen_annotation Sample.py [("1_1.jpg" : str, Image 400 300 0)] [] empty_pool
    ("1_1.txt" : str,
     Text (("1_1" : str) :: Example.landmark_lines helen_sep 193)) = None
  /\ lapa_image Sample.py
       (LapaSplit [(Example.face_jpg, Image 400 300 7)]
          [("face.txt" : str, Text (("106" : str) :: Example.landmark_lines space 103))])
       (empty_pool, []) Example.face_jpg = None.
Proof.
  destruct (short_annotation_aborts Sample.py) as (Hh & _ & Hl). split.
  - apply (Hh _ _ _ _ ("1_1" : str) (map Str.rstrip (Example.landmark_lines helen_sep 193)));
      [reflexivity | reflexivity | vm_compute; lia].
  - apply (Hl _ _ _ (map Str.rstrip (("106" : str) :: Example.landmark_lines space 103)));
      [reflexivity | vm_compute; lia].
Defined.

(** ** Splitting at one character *)



Lemma split_go_first (c : ascii) (cur a b : str) :
  ~ In c a ->
  exists rest, Str.split_go [c] 0 cur (a ++ c :: b) = (rev cur ++ a) :: rest.
Proof.
  revert cur. induction a as [|d a IH]; intros cur Hc.
  - cbn [app Str.split_go Str.startswith]. rewrite Ascii.eqb_refl.
    rewrite app_nil_r. eauto.
  - cbn [app Str.split_go Str.startswith].
    destruct (Ascii.eqb c d) eqn:E.
    + apply Ascii.eqb_eq in E. subst d. exfalso. apply Hc. now left.
    + destruct (IH (d :: cur)) as [rest ->]; [intros H; apply Hc; now right|].
      simpl. rewrite <- app_assoc. eauto.
Qed.

(** The piece before the first separator. *)
Lemma split_first (c : ascii) (a b : str) :
  ~ In c a -> nth 0 (Str.split [c] (a ++ c :: b)) [] = a.
Proof.
  intros H. unfold Str.split.
  destruct (@split_go_first c [] a b H) as [rest ->]. reflexivity.
Qed.

(** ** Helen: names that give no face index *)








(** ** Appending an extension *)

Lemma rcut_app (c : ascii) (a r : str) :
  ~ In c a ->
  Path.rcut c (a ++ r)
  = match Path.rcut c r with
    | Some (a', b) => Some (a ++ a', b)
    | None => None
    end.
Proof.
  induction a as [|d a IH]; intros Hc; simpl.
  - destruct (Path.rcut c r) as [[a' b]|]; reflexivity.
  - destruct (Ascii.eqb d c) eqn:E.
    + apply Ascii.eqb_eq in E. subst d. exfalso. apply Hc. now left.
    + rewrite IH by (intros H; apply Hc; now right).
      destruct (Path.rcut c r) as [[a' b]|]; reflexivity.
Qed.

Lemma rcut_none (c : ascii) (r : str) : ~ In c r -> Path.rcut c r = None.
Proof.
  intros H. rewrite <- (app_nil_r r). now rewrite rcut_app.
Qed.

Lemma not_in_rev (c : ascii) (s : str) : ~ In c s -> ~ In c (rev s).
Proof. intros H Hr. apply H. now apply in_rev. Qed.

Lemma basename_app (x s : str) :
  ~ In Path.sep s -> Path.basename (x ++ s) = Path.basename x ++ s.
Proof.
  intros Hs. unfold Path.basename.
  rewrite rev_app_distr, rcut_app by now apply not_in_rev.
  destruct (Path.rcut Path.sep (rev x)) as [[a b]|]; [|reflexivity].
  now rewrite rev_app_distr, rev_involutive.
Qed.

Lemma dirpart_app (x s : str) :
  ~ In Path.sep s -> Path.dirpart (x ++ s) = Path.dirpart x.
Proof.
  intros Hs. unfold Path.dirpart.
  rewrite rev_app_distr, rcut_app by now apply not_in_rev.
  destruct (Path.rcut Path.sep (rev x)) as [[a b]|]; reflexivity.
Qed.

Lemma forallb_dots_false (b : str) :
  (exists c, In c b /\ c <> Path.extsep) ->
  forallb (Ascii.eqb Path.extsep) (rev b) = false.
Proof.
  intros (c & Hc & Hne).
  destruct (forallb (Ascii.eqb Path.extsep) (rev b)) eqn:E; [|reflexivity].
  rewrite forallb_forall in E. specialize (E c (proj1 (in_rev b c) Hc)).
  apply Ascii.eqb_eq in E. congruence.
Qed.

(** [splitext] gives back an extension appended to a name with a stem. *)
Lemma splitext_add_ext (x e : str) :
  has_stem x -> plain e ->
  Path.splitext (x ++ Path.extsep :: e) = (x, Path.extsep :: e).
Proof.
  intros Hx [Hdot Hsep]. unfold Path.splitext.
  assert (Hs : ~ In Path.sep (Path.extsep :: e)).
  { intros [H|H]; [discriminate H | contradiction]. }
  rewrite (@basename_app x _ Hs), (@dirpart_app x _ Hs).
  unfold Path.splitext_name.
  rewrite rev_app_distr. cbn [rev]. rewrite <- app_assoc. cbn [app].
  rewrite rcut_app by now apply not_in_rev.
  cbn [Path.rcut]. rewrite Ascii.eqb_refl.
  rewrite app_nil_r, (@forallb_dots_false _ Hx), !rev_involutive.
  now rewrite dirpart_basename.
Qed.

Lemma identifier_add_ext (x e : str) :
  has_stem x -> plain e -> identifier (x ++ Path.extsep :: e) = x.
Proof.
  intros Hx He. unfold identifier. now rewrite splitext_add_ext.
Qed.

(** ** Helen: the images with one face *)

Lemma plain_jpg : plain ("jpg" : str).
Proof. split; vm_compute; intuition discriminate. Qed.

(** X6.  An image of Helen that is alone in its group and whose face index
    is at most 1 is never skipped; when the conversion of its annotation
    succeeds, the pool holds the image as it is in the source and the rows
    of its landmarks under the identifier of the image, which is the first
    line of the annotation when that line has a stem. *)
Theorem helen_single_face_kept (R : runtime) (H : helen_dataset)
    (skip_imgs : list str) (P P' : pool) (ann : str * file) (first : str)
    (lines : list str) :
  helen_skip_imgs R (listdir (helen_images H)) = Some skip_imgs ->
  In (first ++ dot_jpg) (listdir (helen_images H)) ->
  ~ multi_face R (listdir (helen_images H)) (first ++ dot_jpg) ->
  readlines_rstrip (snd ann) = Some (first :: lines) ->
  helen_annotation R (helen_images H) skip_imgs P ann = Some P' ->
  ~ In (first ++ dot_jpg) skip_imgs
  /\ (exists f, lookup (first ++ dot_jpg) (helen_images H) = Some f
                /\ lookup (first ++ dot_jpg) (pool_images P') = Some f)
  /\ (exists img_h img_w rows,
        imread_shape (helen_images H) (first ++ dot_jpg) = Some (img_h, img_w)
        /\ image_labels (line_point R helen_sep lines) img_h img_w
             part_points_helen = Some rows
        /\ lookup (identifier (first ++ dot_jpg) ++ dot_txt) (pool_labels P')
           = Some (to_csv_rounded R rows))
  /\ (has_stem first -> identifier (first ++ dot_jpg) = first).
Proof.
  intros Hskip Hin Hsingle Hread Hann.
  assert (Hns : ~ In (first ++ dot_jpg) skip_imgs).
  { intros Hs. apply (helen_skip_imgs_In _ _ _ Hskip) in Hs. tauto. }
  split; [exact Hns|].
  unfold helen_annotation in Hann. rewrite Hread in Hann.
  apply Str_mem_not_In in Hns. rewrite Hns in Hann.
  destruct (imread_shape (helen_images H) (first ++ dot_jpg)) as [[h w]|];
    [|discriminate].
  destruct (image_labels (line_point R helen_sep lines) h w part_points_helen)
    as [rows|] eqn:E; [|discriminate].
  unfold copy in Hann.
  destruct (lookup (first ++ dot_jpg) (helen_images H)) as [f|]; [|discriminate].
  injection Hann as <-. cbn [pool_images pool_labels fst snd]. split; [|split].
  - exists f. split; [reflexivity | apply fs_write_lookup].
  - exists h, w, rows. split; [reflexivity|]. split; [exact E|].
    apply fs_write_lookup.
  - intros Hstem. change dot_jpg with (Path.extsep :: ("jpg" : str)).
    now apply identifier_add_ext; [|apply plain_jpg].
Qed.

Lemma helen_single_face_kept_witness :
  ~ In (ExampleHelen.one_one ++ dot_jpg) ExampleHelen.skip_imgs
  /\ lookup (ExampleHelen.one_one ++ dot_jpg) (pool_images ExampleHelen.step)
     = Some (Image 400 300 0)
  /\ identifier (ExampleHelen.one_one ++ dot_jpg) = ExampleHelen.one_one.
Proof.
  assert (H1 : helen_skip_imgs Sample.py (listdir (helen_images Example.helen_ten))
               = Some ExampleHelen.skip_imgs) by (vm_compute; reflexivity).
  assert (H2 : In (ExampleHelen.one_one ++ dot_jpg)
                 (listdir (helen_images Example.helen_ten)))
    by (vm_compute; auto).
  assert (H3 : ~ multi_face Sample.py (listdir (helen_images Example.helen_ten))
                 (ExampleHelen.one_one ++ dot_jpg)).
  { intros [Hc|(k & Hk & Hlt)].
    - vm_compute in Hc. lia.
    - vm_compute in Hk. injection Hk as <-. lia. }
  assert (H4 : readlines_rstrip (snd (Example.helen_ann ExampleHelen.one_one))
               = Some (ExampleHelen.one_one
                       :: map Str.rstrip (Example.landmark_lines helen_sep 194)))
    by reflexivity.
  assert (H5 : helen_annotation Sample.py (helen_images Example.helen_ten)
                 ExampleHelen.skip_imgs empty_pool
                 (Example.helen_ann ExampleHelen.one_one)
               = Some ExampleHelen.step) by (vm_compute; reflexivity).
  destruct (@helen_single_face_kept _ _ _ _ _ _ _ _ H1 H2 H3 H4 H5)
    as (Hns & (f & Hf & Hp) & _ & Hid).
  split; [exact Hns|]. split.
  - rewrite Hp, <- Hf. reflexivity.
  - apply Hid. exists "1"%char. split; [vm_compute; auto | discriminate].
Defined.

(** ** AFW: what a group holds *)


Lemma startswith_iff (p s : str) :
  Str.startswith p s = true <-> exists t, s = p ++ t.
Proof.
  split; [apply startswith_split | intros [t ->]; apply startswith_app].
Qed.













(** ** AFW: a face without its point file *)

Lemma foldM_step_of (S A : Type) (f : S -> A -> option S) (l : list A) (s s' : S)
    (x : A) :
  foldM f l s = Some s' -> In x l -> exists s1 s2, f s1 x = Some s2.
Proof.
  revert s. induction l as [|a l IH]; intros s H Hx; [contradiction|].
  cbn [foldM] in H. destruct (f s a) as [s1|] eqn:E; [|discriminate].
  destruct Hx as [->|Hx]; [eauto | eapply IH; eauto].
Qed.

(** X8.  A group of AFW that has fewer point files than images aborts the
    run: the image at an index that has no point file cannot be converted. *)
Theorem afw_missing_points_abort (R : runtime) (folder : str) (afw : dir) (n : str)
    (st : pool * (Z * Z)) :
  List.length (glob R folder afw n dot_pts) < List.length (glob R folder afw n dot_jpg) ->
  afw_group R folder afw st n = None.
Proof.
  intros Hlen. destruct (afw_group R folder afw st n) as [st'|] eqn:E; [|reflexivity].
  exfalso. unfold afw_group in E.
  assert (Hne : glob R folder afw n dot_jpg <> [])
    by (intros E0; rewrite E0 in Hlen; simpl in Hlen; lia).
  destruct (exists_last Hne) as (l & x & El). rewrite El in *. clear El Hne.
  unfold enumerate in E. rewrite combine_seq_snoc in E.
  assert (Hin : In (0 + List.length l, x)
                  (combine (seq 0 (List.length l)) l ++ [(0 + List.length l, x)]))
    by (apply in_or_app; right; now left).
  destruct (@foldM_step_of _ _ _ _ _ _ _ E Hin) as ([P1 shape1] & [P2 shape2] & Hs).
  apply afw_face_step in Hs.
  destruct Hs as (f & pts & g & all_lines & rows & _ & _ & _ & Hnth & _).
  assert (Hb : 0 + List.length l < List.length (glob R folder afw n dot_pts))
    by (apply nth_error_Some; congruence).
  rewrite length_app in Hlen. simpl in Hlen. lia.
Qed.

Lemma afw_missing_points_abort_witness :
  List.length (glob Sample.py ExampleAfw.afw_path ExampleGlob.one_pts
                 ExampleGlob.seven dot_pts)
  < List.length (glob Sample.py ExampleAfw.afw_path ExampleGlob.one_pts
                   ExampleGlob.seven dot_jpg)
  /\ afw_group Sample.py ExampleAfw.afw_path ExampleGlob.one_pts
       (empty_pool, (0%Z, 0%Z)) ExampleGlob.seven = None.
Proof.
  assert (H : List.length (glob Sample.py ExampleAfw.afw_path ExampleGlob.one_pts
                             ExampleGlob.seven dot_pts)
              < List.length (glob Sample.py ExampleAfw.afw_path ExampleGlob.one_pts
                               ExampleGlob.seven dot_jpg))
    by (vm_compute; lia).
  split; [exact H|].
  exact (@afw_missing_points_abort Sample.py ExampleAfw.afw_path ExampleGlob.one_pts
           ExampleGlob.seven (empty_pool, (0%Z, 0%Z)) H).
Defined.

(** ** Menpo2D: the points of a line *)

Lemma every_other_nth (A : Type) (l : list A) (j : nat) :
  nth_error (every_other true l) j = nth_error l (2 * j)
  /\ nth_error (every_other false l) j = nth_error l (2 * j + 1).
Proof.
  revert j. induction l as [|a l IH]; intros j.
  - simpl. destruct j; simpl; split; try reflexivity;
      now rewrite ?nth_error_nil.
  - cbn [every_other]. split.
    + destruct j as [|j]; [reflexivity|].
      cbn [nth_error]. rewrite (proj2 (IH j)).
      replace (2 * S j) with (S (2 * j + 1)) by lia. reflexivity.
    + rewrite (proj1 (IH j)). replace (2 * j + 1) with (S (2 * j)) by lia.
      reflexivity.
Qed.

Lemma every_other_length (A : Type) (l : list A) :
  List.length (every_other true l) = (List.length l + 1) / 2
  /\ List.length (every_other false l) = List.length l / 2.
Proof.
  induction l as [|a l [IH1 IH2]]; [split; reflexivity|].
  cbn [every_other List.length]. rewrite IH1, IH2. split.
  - replace (S (List.length l) + 1) with (List.length l + 1 * 2) by lia.
    rewrite Nat.div_add by lia. lia.
  - replace (S (List.length l)) with (List.length l + 1) by lia. reflexivity.
Qed.

Lemma slice_from_step2_nth (A : Type) (start : nat) (l : list A) (j : nat) :
  nth_error (slice_from_step2 start l) j = nth_error l (start + 2 * j).
Proof.
  unfold slice_from_step2.
  rewrite (proj1 (every_other_nth (skipn start l) j)). apply nth_error_skipn.
Qed.

Lemma slice_from_step2_length (A : Type) (start : nat) (l : list A) :
  List.length (slice_from_step2 start l) = (List.length l - start + 1) / 2.
Proof.
  unfold slice_from_step2.
  rewrite (proj1 (every_other_length (skipn start l))), length_skipn.
  reflexivity.
Qed.

Lemma xy_point_nth (img_landmarks : list Q) (j : nat) :
  xy_point (slice_from_step2 14 img_landmarks) (slice_from_step2 15 img_landmarks) j
  = (x <- nth_error img_landmarks (14 + 2 * j) ;;
     y <- nth_error img_landmarks (15 + 2 * j) ;; Some (x, y)).
Proof. unfold xy_point. now rewrite !slice_from_step2_nth. Qed.

Lemma profile_length (A : Type) (l : list A) :
  List.length (slice_from_step2 14 l) = 39
  <-> List.length l = 91 \/ List.length l = 92.
Proof.
  rewrite slice_from_step2_length.
  set (n := List.length l). split.
  - intros H.
    assert (H1 : 2 * ((n - 14 + 1) / 2) <= n - 14 + 1)
      by (apply Nat.Div0.mul_div_le).
    assert (H2 : n - 14 + 1 < 2 * ((n - 14 + 1) / 2) + 2).
    { pose proof (Nat.div_mod_eq (n - 14 + 1) 2).
      pose proof (Nat.mod_upper_bound (n - 14 + 1) 2). lia. }
    lia.
  - intros [-> | ->]; reflexivity.
Qed.

(** X9.  Point [j] of a line of a Menpo2D list file is made of the numbers
    at places [14 + 2j] and [15 + 2j] after the path, the first fourteen
    numbers being passed over; the image is taken for a profile exactly when
    the line carries 91 or 92 numbers. *)
Theorem menpo_points (img_landmarks : list Q) (j : nat) :
  xy_point (slice_from_step2 14 img_landmarks) (slice_from_step2 15 img_landmarks) j
  = (x <- nth_error img_landmarks (14 + 2 * j) ;;
     y <- nth_error img_landmarks (15 + 2 * j) ;; Some (x, y))
  /\ (List.length (slice_from_step2 14 img_landmarks) = 39
      <-> List.length img_landmarks = 91 \/ List.length img_landmarks = 92).
Proof. split; [apply xy_point_nth | apply profile_length]. Qed.

(** X10.  An image of Menpo2D is converted only if its line carries 92
    numbers after the path, or at least 150: a line with 39 points and no
    more, or with 68 points or more.  Any other count aborts the run. *)
Theorem menpo_line_length (R : runtime) (d : dir) (landmarks : list (list str))
    (P P' : pool) (i : nat) (img_path : str) :
  menpo_image R d landmarks P (i, img_path) = Some P' ->
  exists lmks img_landmarks,
    nth_error landmarks i = Some lmks
    /\ mapM (float R) lmks = Some img_landmarks
    /\ List.length lmks = List.length img_landmarks
    /\ (List.length img_landmarks = 92 \/ 150 <= List.length img_landmarks).
Proof.
  unfold menpo_image. intros H.
  destruct (copy d img_path (Path.basename img_path) (pool_images P));
    [|discriminate].
  destruct (nth_error landmarks i) as [lmks|] eqn:En; [|discriminate].
  destruct (mapM (float R) lmks) as [vals|] eqn:Ef; [|discriminate].
  exists lmks, vals. split; [reflexivity|]. split; [exact Ef|].
  split; [symmetry; exact (@mapM_length _ _ _ _ _ Ef)|].
  destruct (imread_shape d img_path) as [[h w]|]; [|discriminate].
  pose proof (slice_from_step2_length 14 vals) as Hlen.
  destruct (List.length (slice_from_step2 14 vals) =? 39) eqn:E39.
  - apply Nat.eqb_eq in E39.
    change (lookup profile part_points_menpo)
      with (Some (adapter_table Menpo_profile)) in H. cbv beta iota in H.
    destruct (image_labels _ h w (adapter_table Menpo_profile)) as [rows|] eqn:E;
      [|discriminate].
    assert (Hs : exists rows,
               image_labels (xy_point (slice_from_step2 14 vals)
                               (slice_from_step2 15 vals)) h w
                 (adapter_table Menpo_profile) = Some rows) by eauto.
    apply image_labels_adapter_some with (i := 38) in Hs; [|simpl; lia].
    destruct Hs as [p Hp]. rewrite xy_point_nth in Hp.
    destruct (nth_error vals (14 + 2 * 38)); [|discriminate].
    destruct (nth_error vals (15 + 2 * 38)) eqn:Ey; [|discriminate].
    assert (15 + 2 * 38 < List.length vals) by (apply nth_error_Some; congruence).
    left. apply profile_length in E39. lia.
  - change (lookup semifrontal part_points_menpo)
      with (Some (adapter_table Menpo_semifrontal)) in H. cbv beta iota in H.
    destruct (image_labels _ h w (adapter_table Menpo_semifrontal)) as [rows|] eqn:E;
      [|discriminate].
    assert (Hs : exists rows,
               image_labels (xy_point (slice_from_step2 14 vals)
                               (slice_from_step2 15 vals)) h w
                 (adapter_table Menpo_semifrontal) = Some rows) by eauto.
    apply image_labels_adapter_some with (i := 67) in Hs; [|simpl; lia].
    destruct Hs as [p Hp]. rewrite xy_point_nth in Hp.
    destruct (nth_error vals (14 + 2 * 67)); [|discriminate].
    destruct (nth_error vals (15 + 2 * 67)) eqn:Ey; [|discriminate].
    assert (15 + 2 * 67 < List.length vals) by (apply nth_error_Some; congruence).
    right. lia.
Qed.

Lemma menpo_points_witness :
  (List.length (repeat 0%Q 92) = 91 \/ List.length (repeat 0%Q 92) = 92)
  /\ List.length (slice_from_step2 14 (repeat 0%Q 92)) = 39.
Proof.
  assert (H : List.length (repeat 0%Q 92) = 91 \/ List.length (repeat 0%Q 92) = 92)
    by (right; reflexivity).
  split; [exact H|].
  exact (proj2 (proj2 (menpo_points (repeat 0%Q 92) 0)) H).
Defined.

Lemma menpo_line_length_witness :
  menpo_image Sample.py ExampleMenpo.one_image [ExampleMenpo.fields 39] empty_pool
    (0, ExampleMenpo.img_path) = Some ExampleMenpo.profile_step
  /\ List.length (ExampleMenpo.fields 39) = 92.
Proof.
  assert (H : menpo_image Sample.py ExampleMenpo.one_image [ExampleMenpo.fields 39]
                empty_pool (0, ExampleMenpo.img_path)
              = Some ExampleMenpo.profile_step) by (vm_compute; reflexivity).
  split; [exact H|].
  destruct (@menpo_line_length _ _ _ _ _ _ _ H) as (lmks & vals & Hn & _ & Hl & Hc).
  injection Hn as <-. destruct Hc as [Hc|Hc]; [congruence|].
  exfalso. rewrite <- Hl in Hc. vm_compute in Hc. lia.
Defined.

(** ** LaPa: what the filter leaves out *)

Lemma contains_iff (p s : str) :
  Str.contains p s = true <-> exists a b, s = a ++ p ++ b.
Proof.
  split.
  - induction s as [|c s IH]; cbn [Str.contains]; intros H.
    + rewrite orb_false_r in H. apply startswith_split in H.
      destruct H as [t Ht]. now exists [], t.
    + apply orb_true_iff in H. destruct H as [H|H].
      * apply startswith_split in H. destruct H as [t Ht]. now exists [], t.
      * destruct (IH H) as (a & b & ->). now exists (c :: a), b.
  - intros (a & b & ->). induction a as [|c a IH].
    + cbn [app]. apply contains_startswith. apply startswith_app.
    + cbn [app Str.contains]. rewrite IH. apply orb_true_r.
Qed.

Lemma lapa_filter_iff (listing : list str) (f : str) :
  In f (lapa_filter listing)
  <-> In f listing
      /\ forall p, In p exclude_prefix -> forall a b, f <> a ++ p ++ b.
Proof.
  unfold lapa_filter. rewrite filter_In, negb_true_iff. split.
  - intros [Hin He]. split; [exact Hin|]. intros p Hp a b ->.
    assert (Hc : existsb (fun n => Str.contains n (a ++ p ++ b)) exclude_prefix = true).
    { apply existsb_exists. exists p. split; [exact Hp|].
      apply contains_iff. eauto. }
    congruence.
  - intros [Hin Hno]. split; [exact Hin|].
    destruct (existsb (fun n => Str.contains n f) exclude_prefix) eqn:E;
      [|reflexivity].
    apply existsb_exists in E. destruct E as (p & Hp & Hc).
    apply contains_iff in Hc. destruct Hc as (a & b & ->).
    exfalso. exact (Hno p Hp a b eq_refl).
Qed.

(** X11.  The training images of LaPa that are walked are those whose file
    name holds none of HELEN_, IBUG_, AFW_, LFPW_ at any place: a name that
    carries one of them in its middle is left out like one that starts with
    it. *)
Theorem lapa_filter_by_substring (L : lapa_split) (f : str) :
  In f (lapa_split_images true L)
  <-> In f (listdir (lapa_images L))
      /\ forall p, In p exclude_prefix -> forall a b, f <> a ++ p ++ b.
Proof. apply lapa_filter_iff. Qed.

Lemma lapa_filter_by_substring_witness :
  In ("x.jpg" : str)
     (lapa_split_images true
        (LapaSplit [("myAFW_1.jpg" : str, Image 1 1 0); ("x.jpg" : str, Image 1 1 0)] []))
  /\ ~ In ("myAFW_1.jpg" : str)
       (lapa_split_images true
          (LapaSplit [("myAFW_1.jpg" : str, Image 1 1 0); ("x.jpg" : str, Image 1 1 0)] [])).
Proof.
  split.
  - vm_compute. auto.
  - intros H.
    apply (proj1 (lapa_filter_by_substring _ _)) in H. destruct H as [_ H].
    apply (H ("AFW_" : str)) with (a := ("my" : str)) (b := ("1.jpg" : str));
      [vm_compute; auto | reflexivity].
Defined.

(** ** LaPa: the two names derived from an image *)

(** X12.  For an image of LaPa the landmark file is named after the text
    before the first dot of the image's name, the label file after the name
    without its last extension.  The two agree for a name with one dot; for
    a name with two dots the landmarks of [a.b.jpg] are read from [a.txt] and
    its labels are written to [a.b.txt]. *)
Theorem lapa_landmark_and_label_names :
  (forall stem e : str,
      stem <> [] -> plain stem -> plain e ->
      nth 0 (Str.split dot (stem ++ Path.extsep :: e)) [] = stem
      /\ identifier (stem ++ Path.extsep :: e) = stem)
  /\ (forall s1 s2 e : str,
        s1 <> [] -> plain s1 -> plain s2 -> plain e ->
        nth 0 (Str.split dot (s1 ++ Path.extsep :: s2 ++ Path.extsep :: e)) [] = s1
        /\ identifier (s1 ++ Path.extsep :: s2 ++ Path.extsep :: e)
           = s1 ++ Path.extsep :: s2).
Proof.
  assert (Hstem : forall s t : str, s <> [] -> plain s -> ~ In Path.sep t ->
                    has_stem (s ++ t)).
  { intros s t Hne [Hd Hs] Ht. unfold has_stem.
    rewrite basename_app by exact Ht.
    unfold Path.basename. rewrite rcut_none by now apply not_in_rev.
    destruct s as [|c s]; [congruence|]. exists c. split; [now left|].
    intros ->. apply Hd. now left. }
  split.
  - intros stem e Hne Hp He. split.
    + apply (@split_first Path.extsep stem e), Hp.
    + apply identifier_add_ext; [|exact He].
      rewrite <- (app_nil_r stem). apply Hstem; auto.
  - intros s1 s2 e Hne H1 H2 He. split.
    + apply (@split_first Path.extsep s1 (s2 ++ Path.extsep :: e)), H1.
    + change (s1 ++ Path.extsep :: s2 ++ Path.extsep :: e)
        with (s1 ++ (Path.extsep :: s2) ++ Path.extsep :: e).
      rewrite app_assoc. apply identifier_add_ext; [|exact He].
      apply Hstem; [exact Hne | exact H1 |].
      intros [H|H]; [discriminate H | now apply (proj2 H2)].
Qed.

Lemma lapa_landmark_and_label_names_witness :
  nth 0 (Str.split dot ("a.b.jpg" : str)) [] = ("a" : str)
  /\ identifier ("a.b.jpg" : str) = ("a.b" : str).
Proof.
  assert (Hp : forall s : str, forallb (fun c => negb (Ascii.eqb c Path.extsep)
                                         && negb (Ascii.eqb c Path.sep)) s = true ->
                 plain s).
  { intros s H. rewrite forallb_forall in H. split; intros Hin;
      specialize (H _ Hin); rewrite Ascii.eqb_refl in H;
      [discriminate | now rewrite andb_false_r in H]. }
  apply (proj2 lapa_landmark_and_label_names ("a" : str) ("b" : str) ("jpg" : str));
    [discriminate | apply Hp; reflexivity ..].
Defined.

(** ** The lines of the manifests *)







Lemma sample_csv_plain : csv_plain Sample.py.
Proof.
  intros x Hx. simpl. unfold Sample.csv_field.
  change (existsb Sample.needs_quotes x) with (existsb csv_special x).
  now rewrite Hx.
Qed.



(** ** The pool only grows *)

Lemma listdir_fs_write_keep (name : str) (f : file) (d : dir) (x : str) :
  In x (listdir d) -> In x (listdir (fs_write name f d)).
Proof.
  unfold listdir, keys, fs_write. intros H. cbn [map fst].
  destruct (Str.eqb name x) eqn:E.
  - apply Str_eqb_eq in E. now left.
  - right. apply in_map_iff in H. destruct H as (e & <- & He).
    apply in_map, filter_In. split; [exact He | now rewrite E].
Qed.

Lemma listdir_fs_write_new (name : str) (f : file) (d : dir) :
  In name (listdir (fs_write name f d)).
Proof. now left. Qed.

Lemma copy_grows (src_dir : dir) (src dst : str) (dst_dir d' : dir) :
  copy src_dir src dst dst_dir = Some d' ->
  incl (listdir dst_dir) (listdir d') /\ In dst (listdir d').
Proof.
  unfold copy. destruct (lookup src src_dir); [|discriminate].
  intros H. injection H as <-. split.
  - intros x. apply listdir_fs_write_keep.
  - apply listdir_fs_write_new.
Qed.

Lemma pool_le_refl (P : pool) : pool_le P P.
Proof. split; apply incl_refl. Qed.

Lemma pool_le_trans (P1 P2 P3 : pool) : pool_le P1 P2 -> pool_le P2 P3 -> pool_le P1 P3.
Proof. intros [H1 H2] [H3 H4]. split; eapply incl_tran; eauto. Qed.

Lemma pool_has_le (i l : str) (P P' : pool) : pool_has i l P -> pool_le P P' -> pool_has i l P'.
Proof. intros [H1 H2] [H3 H4]. split; auto. Qed.

Section FoldGrows.
Variables S A : Type.
Variable f : S -> A -> option S.
Variable pool_of : S -> pool.
Variable Q : A -> pool -> Prop.
Hypothesis step_grows : forall s a s', f s a = Some s' -> pool_le (pool_of s) (pool_of s').
Hypothesis Q_kept : forall a P P', Q a P -> pool_le P P' -> Q a P'.

Lemma foldM_grows (l : list A) (s s' : S) :
  foldM f l s = Some s' -> pool_le (pool_of s) (pool_of s').
Proof.
  revert s. induction l as [|a l IH]; intros s H.
  - injection H as <-. apply pool_le_refl.
  - cbn [foldM] in H. destruct (f s a) as [s1|] eqn:E; [|discriminate].
    eapply pool_le_trans; [eapply step_grows; eauto | now apply IH].
Qed.

Lemma foldM_each (l : list A) (s s' : S) :
  (forall s0 a s1, In a l -> f s0 a = Some s1 -> Q a (pool_of s1)) ->
  foldM f l s = Some s' ->
  forall a, In a l -> Q a (pool_of s').
Proof.
  revert s. induction l as [|x l IH]; intros s Hstep H a Ha; [contradiction|].
  cbn [foldM] in H. destruct (f s x) as [s1|] eqn:E; [|discriminate].
  destruct Ha as [->|Ha].
  - apply (Q_kept (P := pool_of s1)); [|now apply (foldM_grows l s1)].
    eapply Hstep; [now left | exact E].
  - apply (IH s1); auto. intros s0 a0 s2 Hin. apply Hstep. now right.
Qed.

End FoldGrows.

Section PassesGrow.
Variable R : runtime.

Lemma helen_annotation_grows (images : dir) (skip_imgs : list str) (P P' : pool)
    (ann : str * file) :
  helen_annotation R images skip_imgs P ann = Some P' -> pool_le P P'.
Proof.
  unfold helen_annotation. intros H.
  destruct (readlines_rstrip (snd ann)) as [[|first lines]|]; try discriminate.
  destruct (Str.mem (first ++ dot_jpg) skip_imgs).
  { injection H as <-. apply pool_le_refl. }
  destruct (imread_shape images (first ++ dot_jpg)) as [[h w]|]; [|discriminate].
  destruct (image_labels _ h w part_points_helen); [|discriminate].
  destruct (copy images _ _ (pool_images P)) as [images'|] eqn:Ec; [|discriminate].
  injection H as <-. split; cbn [pool_images pool_labels].
  - apply (copy_grows _ _ _ _ Ec).
  - intros x. apply listdir_fs_write_keep.
Qed.

Lemma pexels_label_grows (s : pexels_set) (st st' : pool * list str) (l : str) :
  pexels_label R s st l = Some st' ->
  pool_le (fst st) (fst st')
  /\ pool_has (cleaned R l ++ dot_jpg) (cleaned R l ++ dot_txt) (fst st').
Proof.
  destruct st as [P names]. unfold pexels_label.
  fold (identifier l). fold (cleaned R l).
  destruct (copy (pexels_images s) _ _ _) as [images'|] eqn:E1; [|discriminate].
  destruct (copy (pexels_annotations s) _ _ _) as [labels'|] eqn:E2; [|discriminate].
  intros H. injection H as <-. cbn [fst].
  destruct (copy_grows _ _ _ _ E1), (copy_grows _ _ _ _ E2).
  repeat split; assumption.
Qed.

Lemma afw_face_grows (folder : str) (afw : dir) (n : str) (grouped_points : list str)
    (st st' : pool * (Z * Z)) (ie : nat * str) :
  afw_face R folder afw n grouped_points st ie = Some st' ->
  pool_le (fst st) (fst st')
  /\ pool_has (n ++ dot_jpg) (n ++ dot_txt) (fst st').
Proof.
  destruct st as [P shape], ie as [i img_name]. unfold afw_face. intros H.
  destruct (afw_file R folder afw img_name) as [img|]; [|discriminate].
  destruct (nth_error grouped_points i) as [pts|]; [|discriminate].
  destruct (afw_file R folder afw pts) as [g|]; [|discriminate].
  destruct (readlines_rstrip g) as [all_lines|]; [|discriminate].
  destruct (if i =? 0 then image_shape img else Some shape)
    as [[h w]|]; [|discriminate].
  destruct (image_labels _ h w part_points_afw); [|discriminate].
  injection H as <-. cbn [fst pool_images pool_labels].
  split; split; cbn [pool_images pool_labels].
  - intros x. apply listdir_fs_write_keep.
  - intros x. apply listdir_fs_write_keep.
  - apply listdir_fs_write_new.
  - apply listdir_fs_write_new.
Qed.

Lemma menpo_image_grows (d : dir) (landmarks : list (list str)) (P P' : pool)
    (ie : nat * str) :
  menpo_image R d landmarks P ie = Some P' -> pool_le P P'.
Proof.
  destruct ie as [i img_path]. unfold menpo_image. intros H.
  destruct (copy d img_path _ (pool_images P)) as [images'|] eqn:Ec; [|discriminate].
  destruct (nth_error landmarks i); [|discriminate].
  destruct (mapM (float R) l); [|discriminate].
  destruct (imread_shape d img_path) as [[h w]|]; [|discriminate].
  destruct (lookup _ part_points_menpo); [|discriminate].
  destruct (image_labels _ h w p); [|discriminate].
  injection H as <-. split; cbn [pool_images pool_labels].
  - apply (copy_grows _ _ _ _ Ec).
  - intros x. apply listdir_fs_write_keep.
Qed.

Lemma lapa_image_grows (L : lapa_split) (st st' : pool * list str) (img_name : str) :
  lapa_image R L st img_name = Some st' ->
  pool_le (fst st) (fst st')
  /\ pool_has img_name (identifier img_name ++ dot_txt) (fst st').
Proof.
  destruct st as [P names]. unfold lapa_image. intros H.
  destruct (copy (lapa_images L) img_name img_name (pool_images P))
    as [images'|] eqn:Ec; [|discriminate].
  destruct (imread_shape (lapa_images L) img_name) as [[h w]|]; [|discriminate].
  destruct (open_lines _ _) as [[|num lines]|]; try discriminate.
  destruct (image_labels _ h w part_points_lapa); [|discriminate].
  injection H as <-. cbn [fst pool_images pool_labels].
  destruct (copy_grows _ _ _ _ Ec) as [Hi Hn].
  split; split; cbn [pool_images pool_labels]; auto.
  - intros x. apply listdir_fs_write_keep.
  - apply listdir_fs_write_new.
Qed.

Lemma fasseg_label_grows (F : fasseg_dataset) (st st' : pool * list str) (l : str) :
  fasseg_label F st l = Some st' ->
  pool_le (fst st) (fst st')
  /\ pool_has (identifier l ++ dot_bmp) (identifier l ++ dot_txt) (fst st').
Proof.
  destruct st as [P names]. unfold fasseg_label. fold (identifier l).
  destruct (copy (fasseg_images F) _ _ _) as [images'|] eqn:E1; [|discriminate].
  destruct (copy (fasseg_annotations F) _ _ _) as [labels'|] eqn:E2; [|discriminate].
  intros H. injection H as <-. cbn [fst].
  destruct (copy_grows _ _ _ _ E1), (copy_grows _ _ _ _ E2).
  repeat split; assumption.
Qed.

End PassesGrow.

Section RunGrows.
Variable R : runtime.

Lemma helen_pass_grows (H : helen_dataset) (P P' : pool) (skip_imgs : list str) :
  helen_pass R H P = Some (P', skip_imgs) -> pool_le P P'.
Proof.
  unfold helen_pass. intros E.
  destruct (helen_skip_imgs R (listdir (helen_images H))) as [skip|]; [|discriminate].
  destruct (foldM _ (helen_annotations H) P) as [P1|] eqn:Ef; [|discriminate].
  injection E as <- _.
  assert (Hg : forall s a s', helen_annotation R (helen_images H) skip s a = Some s' ->
                 pool_le s s')
    by (intros s a s' E; eapply helen_annotation_grows; exact E).
  exact (@foldM_grows _ _ _ (fun P0 : pool => P0) Hg _ _ _ Ef).
Qed.

Lemma pexels_set_writes (s : pexels_set) (st st' : pool * list str) :
  foldM (pexels_label R s) (listdir (pexels_annotations s)) st = Some st' ->
  pool_le (fst st) (fst st')
  /\ forall l, In l (listdir (pexels_annotations s)) ->
       pool_has (cleaned R l ++ dot_jpg) (cleaned R l ++ dot_txt) (fst st').
Proof.
  intros H.
  assert (Hg : forall s0 a s1, pexels_label R s s0 a = Some s1 ->
                 pool_le (fst s0) (fst s1))
    by (intros s0 a s1 E; now apply pexels_label_grows in E).
  split; [exact (@foldM_grows _ _ _ fst Hg _ _ _ H)|].
  apply (@foldM_each _ _ _ fst
           (fun l P => pool_has (cleaned R l ++ dot_jpg) (cleaned R l ++ dot_txt) P)
           Hg (fun a P P' HQ Hle => pool_has_le HQ Hle) _ _ _
           ltac:(intros s0 a s1 _ E; now apply pexels_label_grows in E) H).
Qed.

Lemma pexels_copy_writes (sets : list (str * pexels_set)) (P P' : pool)
    (names : list str) :
  pexels_copy R sets P = Some (P', names) ->
  pool_le P P'
  /\ forall l, In l (pexels_label_files sets) ->
       pool_has (cleaned R l ++ dot_jpg) (cleaned R l ++ dot_txt) P'.
Proof.
  unfold pexels_copy. intros H.
  set (f := fun (st : pool * list str) (s : str * pexels_set) =>
              foldM (pexels_label R (snd s)) (listdir (pexels_annotations (snd s))) st)
    in H.
  assert (Hg : forall s0 a s1, f s0 a = Some s1 -> pool_le (fst s0) (fst s1))
    by (intros s0 a s1 E; now apply pexels_set_writes in E).
  split; [exact (@foldM_grows _ _ _ fst Hg _ _ _ H)|].
  intros l Hl. unfold pexels_label_files in Hl. apply in_flat_map in Hl.
  destruct Hl as (s & Hs & Hl).
  exact (@foldM_each _ _ f fst
           (fun (s : str * pexels_set) P =>
              forall l, In l (listdir (pexels_annotations (snd s))) ->
                pool_has (cleaned R l ++ dot_jpg) (cleaned R l ++ dot_txt) P)
           Hg (fun a P0 P1 HQ Hle l0 Hl0 => pool_has_le (HQ l0 Hl0) Hle) _ _ _
           ltac:(intros s0 a s1 _ E; now apply pexels_set_writes in E) H s Hs l Hl).
Qed.

Lemma afw_group_writes (folder : str) (afw : dir) (st st' : pool * (Z * Z)) (n : str) :
  afw_group R folder afw st n = Some st' ->
  pool_le (fst st) (fst st')
  /\ (glob R folder afw n dot_jpg <> [] ->
      pool_has (n ++ dot_jpg) (n ++ dot_txt) (fst st')).
Proof.
  unfold afw_group. intros H.
  set (f := afw_face R folder afw n (glob R folder afw n dot_pts)) in H.
  assert (Hg : forall s0 a s1, f s0 a = Some s1 -> pool_le (fst s0) (fst s1))
    by (intros s0 a s1 E; now apply afw_face_grows in E).
  split; [exact (@foldM_grows _ _ _ fst Hg _ _ _ H)|].
  intros Hne. destruct (glob R folder afw n dot_jpg) as [|x imgs]; [congruence|].
  apply (@foldM_each _ _ f fst
           (fun (_ : nat * str) P => pool_has (n ++ dot_jpg) (n ++ dot_txt) P)
           Hg (fun a P0 P1 HQ Hle => pool_has_le HQ Hle) _ _ _
           ltac:(intros s0 a s1 _ E; now apply afw_face_grows in E) H (0, x)).
  now left.
Qed.

Lemma afw_pass_writes (folder : str) (afw : dir) (names : list str)
    (st st' : pool * (Z * Z)) :
  afw_pass R folder afw names st = Some st' ->
  pool_le (fst st) (fst st')
  /\ forall n, In n names -> glob R folder afw n dot_jpg <> [] ->
       pool_has (n ++ dot_jpg) (n ++ dot_txt) (fst st').
Proof.
  unfold afw_pass. intros H.
  assert (Hg : forall s0 a s1, afw_group R folder afw s0 a = Some s1 ->
                 pool_le (fst s0) (fst s1))
    by (intros s0 a s1 E; now apply afw_group_writes in E).
  split; [exact (@foldM_grows _ _ _ fst Hg _ _ _ H)|].
  exact (@foldM_each _ _ (afw_group R folder afw) fst
           (fun n P => glob R folder afw n dot_jpg <> [] ->
                       pool_has (n ++ dot_jpg) (n ++ dot_txt) P)
           Hg (fun a P0 P1 HQ Hle Hne => pool_has_le (HQ Hne) Hle) _ _ _
           ltac:(intros s0 a s1 _ E; now apply afw_group_writes in E) H).
Qed.

Lemma menpo_pass_grows (M : menpo_dataset) (P P' : pool) (tr te : list str) :
  menpo_pass R M P = Some (P', tr, te) -> pool_le P P'.
Proof.
  unfold menpo_pass. intros H.
  destruct (menpo2D_split_data M) as [data|]; [|discriminate].
  destruct (lookup (lower Train) data); [|discriminate].
  destruct (lookup (lower Test) data); [|discriminate].
  destruct (foldM (menpo_split R M) data P) as [P1|] eqn:Ef; [|discriminate].
  injection H as <- _ _.
  refine (@foldM_grows _ _ (menpo_split R M) (fun P0 : pool => P0) _ _ _ _ Ef).
  intros q0 [split_name split_data] q1 E. unfold menpo_split in E.
  destruct (menpo_split_dir M (capitalize split_name)) as [d|]; [|discriminate].
  refine (@foldM_grows _ _ (menpo_image R d (split_landmarks split_data))
            (fun P0 : pool => P0) _ _ _ _ E).
  intros s2 a s3 E'. eapply menpo_image_grows; exact E'.
Qed.

Lemma lapa_split_writes (L : lapa_split) (l : list str) (st st' : pool * list str) :
  foldM (lapa_image R L) l st = Some st' ->
  pool_le (fst st) (fst st')
  /\ forall img, In img l -> pool_has img (identifier img ++ dot_txt) (fst st').
Proof.
  intros H.
  assert (Hg : forall s0 a s1, lapa_image R L s0 a = Some s1 ->
                 pool_le (fst s0) (fst s1))
    by (intros s0 a s1 E; now apply lapa_image_grows in E).
  split; [exact (@foldM_grows _ _ _ fst Hg _ _ _ H)|].
  exact (@foldM_each _ _ (lapa_image R L) fst
           (fun img P => pool_has img (identifier img ++ dot_txt) P)
           Hg (fun a P0 P1 HQ Hle => pool_has_le HQ Hle) _ _ _
           ltac:(intros s0 a s1 _ E; now apply lapa_image_grows in E) H).
Qed.

Lemma fasseg_copy_writes (F : fasseg_dataset) (P P' : pool) (names : list str) :
  fasseg_copy F P = Some (P', names) ->
  pool_le P P'
  /\ forall l, In l (listdir (fasseg_annotations F)) ->
       pool_has (identifier l ++ dot_bmp) (identifier l ++ dot_txt) P'.
Proof.
  unfold fasseg_copy. intros H.
  assert (Hg : forall s0 a s1, fasseg_label F s0 a = Some s1 ->
                 pool_le (fst s0) (fst s1))
    by (intros s0 a s1 E; now apply fasseg_label_grows in E).
  split; [exact (@foldM_grows _ _ _ fst Hg _ _ _ H)|].
  exact (@foldM_each _ _ (fasseg_label F) fst
           (fun l P => pool_has (identifier l ++ dot_bmp) (identifier l ++ dot_txt) P)
           Hg (fun a P0 P1 HQ Hle => pool_has_le HQ Hle) _ _ _
           ltac:(intros s0 a s1 _ E; now apply fasseg_label_grows in E) H).
Qed.

End RunGrows.




(** X14.  No pass takes a file out of the pool, so that a run that ends
    leaves in it an image and a label file for every label file of Pexels
    (under the cleaned name), for every base name of AFW for which [glob]
    finds an image, for every image of LaPa that is walked, and for every
    label file of FASSEG. *)
Theorem pool_holds_what_was_written (R : runtime) (path_datasets : str) (I : input)
    (out : output) :
  main R path_datasets I = Some out ->
  (forall l, In l (pexels_label_files (in_pexels I)) ->
     pool_has (cleaned R l ++ dot_jpg) (cleaned R l ++ dot_txt) (out_pool out))
  /\ (forall n,
        In n (afw_names R (Path.join path_datasets afw_folder) (in_afw I)) ->
        glob R (Path.join path_datasets afw_folder) (in_afw I) n dot_jpg <> [] ->
        pool_has (n ++ dot_jpg) (n ++ dot_txt) (out_pool out))
  /\ (forall img,
        In img (lapa_split_images true (lapa_train (in_lapa I)))
        \/ In img (lapa_split_images false (lapa_val (in_lapa I))) ->
        pool_has img (identifier img ++ dot_txt) (out_pool out))
  /\ (forall l, In l (listdir (fasseg_annotations (in_fasseg I))) ->
        pool_has (identifier l ++ dot_bmp) (identifier l ++ dot_txt) (out_pool out)).
Proof.
  intros H. apply main_inv in H.
  destruct H as (P1 & sk & P2 & px & s1 & P3 & sh & P4 & mtr & mte & P5 & ltr & lva
                 & fn & htr & hte & _ & E2 & _ & E3 & E4 & E5 & E6 & _).
  pose proof (shuffle_perm R
                (afw_names R (Path.join path_datasets afw_folder) (in_afw I)) s1)
    as Hperm.
  apply pexels_copy_writes in E2. destruct E2 as [_ Hpexels].
  apply afw_pass_writes in E3. cbn [fst] in E3. destruct E3 as [H23 Hafw].
  apply menpo_pass_grows in E4.
  apply fasseg_copy_writes in E6. destruct E6 as [H56 Hfasseg].
  unfold lapa_pass in E5.
  destruct (foldM (lapa_image R (lapa_train (in_lapa I))) _ (P4, []))
    as [[Pa tr]|] eqn:Ea; [|discriminate].
  destruct (foldM (lapa_image R (lapa_val (in_lapa I))) _ (Pa, []))
    as [[Pb va]|] eqn:Eb; [|discriminate].
  injection E5 as <- _ _.
  apply lapa_split_writes in Ea, Eb. cbn [fst] in Ea, Eb.
  destruct Ea as [H4a Htrain], Eb as [Hab Hval].
  split; [|split; [|split]].
  - intros l Hl. apply (pool_has_le (Hpexels l Hl)).
    repeat (eapply pool_le_trans; [eassumption|]). apply pool_le_refl.
  - intros n Hn Hne.
    assert (Hs : In n (fst (shuffle R
                              (afw_names R (Path.join path_datasets afw_folder)
                                 (in_afw I)) s1)))
      by (apply (Permutation_in _ (Permutation_sym Hperm)); exact Hn).
    apply (pool_has_le (Hafw n Hs Hne)).
    repeat (eapply pool_le_trans; [eassumption|]). apply pool_le_refl.
  - intros img [Hi|Hi].
    + apply (pool_has_le (Htrain img Hi)).
      repeat (eapply pool_le_trans; [eassumption|]). apply pool_le_refl.
    + apply (pool_has_le (Hval img Hi)). exact H56.
  - exact Hfasseg.
Qed.

Lemma pool_holds_what_was_written_witness :
  main Sample.py Example.data_root ExampleCopy.pexels_twice_tree
  = Some ExampleCopy.pexels_twice_out
  /\ In ("a.txt" : str) (pexels_label_files (in_pexels ExampleCopy.pexels_twice_tree))
  /\ pool_has (cleaned Sample.py ("a.txt" : str) ++ dot_jpg)
       (cleaned Sample.py ("a.txt" : str) ++ dot_txt)
       (out_pool ExampleCopy.pexels_twice_out).
Proof.
  assert (H : main Sample.py Example.data_root ExampleCopy.pexels_twice_tree
              = Some ExampleCopy.pexels_twice_out) by (vm_compute; reflexivity).
  assert (Hl : In ("a.txt" : str)
                 (pexels_label_files (in_pexels ExampleCopy.pexels_twice_tree)))
    by (vm_compute; auto).
  split; [exact H|]. split; [exact Hl|].
  exact (proj1 (@pool_holds_what_was_written _ _ _ _ H) _ Hl).
Defined.

(** ** What the manifests are made of *)

Lemma lapa_pass_names (R : runtime) (D : lapa_dataset) (P P' : pool)
    (tr va : list str) :
  lapa_pass R D P = Some (P', tr, va) ->
  tr = map identifier (lapa_split_images true (lapa_train D))
  /\ va = map identifier (listdir (lapa_images (lapa_val D))).
Proof.
  unfold lapa_pass. intros H.
  destruct (foldM (lapa_image R (lapa_train D)) _ (P, []))
    as [[P1 train]|] eqn:E1; [|discriminate].
  destruct (foldM (lapa_image R (lapa_val D)) _ (P1, []))
    as [[P2 val]|] eqn:E2; [|discriminate].
  injection H as _ <- <-.
  apply lapa_image_names in E1, E2. simpl in E1, E2. now subst.
Qed.

(** The images of a split of Menpo2D are the first fields of the lines of
    its two list files, the profile list first. *)
Lemma menpo_split_names (d : dir) (s : str) (sd : split_dict) :
  foldM (menpo_read_list d s) [profile; semifrontal] (SplitDict [] []) = Some sd ->
  exists lp ls,
    open_lines d (menpo_list_name profile s) = Some lp
    /\ open_lines d (menpo_list_name semifrontal s) = Some ls
    /\ menpo_names sd = map menpo_line_name (lp ++ ls).
Proof.
  cbn [foldM]. unfold menpo_read_list.
  destruct (open_lines d (menpo_list_name profile s)) as [lp|]; [|discriminate].
  destruct (open_lines d (menpo_list_name semifrontal s)) as [ls|]; [|discriminate].
  intros H. injection H as <-. exists lp, ls.
  split; [reflexivity|]. split; [reflexivity|].
  unfold menpo_names. cbn [split_images app].
  rewrite <- map_app, map_map. reflexivity.
Qed.

Lemma menpo_pass_names (R : runtime) (M : menpo_dataset) (P P' : pool)
    (tr te : list str) :
  menpo_pass R M P = Some (P', tr, te) ->
  exists lp_train ls_train lp_test ls_test,
    open_lines (menpo_Train M) (menpo_list_name profile Train) = Some lp_train
    /\ open_lines (menpo_Train M) (menpo_list_name semifrontal Train) = Some ls_train
    /\ open_lines (menpo_Test M) (menpo_list_name profile Test) = Some lp_test
    /\ open_lines (menpo_Test M) (menpo_list_name semifrontal Test) = Some ls_test
    /\ tr = map menpo_line_name (lp_train ++ ls_train)
    /\ te = map menpo_line_name (lp_test ++ ls_test).
Proof.
  unfold menpo_pass, menpo2D_split_data. cbn [mapM].
  change (menpo_split_dir M Train) with (Some (menpo_Train M)).
  change (menpo_split_dir M Test) with (Some (menpo_Test M)).
  cbv beta iota.
  destruct (foldM (menpo_read_list (menpo_Train M) Train) [profile; semifrontal]
              (SplitDict [] [])) as [sd1|] eqn:E1; [|discriminate].
  destruct (foldM (menpo_read_list (menpo_Test M) Test) [profile; semifrontal]
              (SplitDict [] [])) as [sd2|] eqn:E2; [|discriminate].
  change (lookup (lower Train) [(lower Train, sd1); (lower Test, sd2)])
    with (Some sd1).
  change (lookup (lower Test) [(lower Train, sd1); (lower Test, sd2)])
    with (Some sd2).
  cbv beta iota.
  destruct (foldM (menpo_split R M) _ P) as [P1|]; [|discriminate].
  intros H. injection H as _ <- <-.
  apply menpo_split_names in E1, E2.
  destruct E1 as (lp1 & ls1 & H1 & H2 & ->), E2 as (lp2 & ls2 & H3 & H4 & ->).
  exists lp1, ls1, lp2, ls2. auto 10.
Qed.

(** X15.  The training manifest of a run lists, in this order, the names
    read from [trainnames.txt] of Helen, the first [int(0.7 * n)] names of
    the shuffled Pexels names, the same share of the shuffled AFW names, the
    names of the lines of the two training lists of Menpo2D, the identifiers
    of the LaPa training images that are walked and the FASSEG names flagged
    1 in [split_info.csv]; the validation manifest lists the names read from
    [testnames.txt], the rest of the two shuffled lists, the names of the
    lines of the two test lists of Menpo2D, the identifiers of all the LaPa
    validation images and the FASSEG names flagged 0.  Both are cleared of
    the identifiers of the skipped Helen images, whatever dataset a name
    comes from, and the two text files of a manifest hold one line per name
    that is left. *)
Theorem manifest_composition (R : runtime) (path_datasets : str) (I : input)
    (out : output) :
  main R path_datasets I = Some out ->
  exists skip_imgs helen_train helen_test pexels_names afw_names'
         lp_train ls_train lp_test ls_test,
    helen_skip_imgs R (listdir (helen_images (in_helen I))) = Some skip_imgs
    /\ read_csv_names R (helen_trainnames (in_helen I)) = Some helen_train
    /\ read_csv_names R (helen_testnames (in_helen I)) = Some helen_test
    /\ Permutation pexels_names (map (cleaned R) (pexels_label_files (in_pexels I)))
    /\ Permutation afw_names'
         (afw_names R (Path.join path_datasets afw_folder) (in_afw I))
    /\ open_lines (menpo_Train (in_menpo I)) (menpo_list_name profile Train)
       = Some lp_train
    /\ open_lines (menpo_Train (in_menpo I)) (menpo_list_name semifrontal Train)
       = Some ls_train
    /\ open_lines (menpo_Test (in_menpo I)) (menpo_list_name profile Test)
       = Some lp_test
    /\ open_lines (menpo_Test (in_menpo I)) (menpo_list_name semifrontal Test)
       = Some ls_test
    /\ train_manifest out
       = kept_names
           (helen_train
            ++ firstn (train_size (List.length pexels_names)) pexels_names
            ++ firstn (train_size (List.length afw_names')) afw_names'
            ++ map menpo_line_name (lp_train ++ ls_train)
            ++ map identifier (lapa_split_images true (lapa_train (in_lapa I)))
            ++ fasseg_split (in_fasseg I) 1)
           (map identifier skip_imgs)
    /\ val_manifest out
       = kept_names
           (helen_test
            ++ skipn (train_size (List.length pexels_names)) pexels_names
            ++ skipn (train_size (List.length afw_names')) afw_names'
            ++ map menpo_line_name (lp_test ++ ls_test)
            ++ map identifier (listdir (lapa_images (lapa_val (in_lapa I))))
            ++ fasseg_split (in_fasseg I) 0)
           (map identifier skip_imgs)
    /\ List.length (fst (train_txt out)) = List.length (train_manifest out)
    /\ List.length (snd (train_txt out)) = List.length (train_manifest out)
    /\ List.length (fst (val_txt out)) = List.length (val_manifest out)
    /\ List.length (snd (val_txt out)) = List.length (val_manifest out).
Proof.
  intros H. apply main_inv in H.
  destruct H as (P1 & sk & P2 & px & s1 & P3 & sh & P4 & mtr & mte & P5 & ltr & lva
                 & fn & htr & hte & E1 & E2 & Es1 & E3 & E4 & E5 & E6 & E7 & E8 & H).
  cbv zeta in H. destruct H as (Htr & Hva & Httxt & Hvtxt & _).
  pose proof (shuffle_perm R px (seed_420 R)) as Hp.
  pose proof (shuffle_perm R
                (afw_names R (Path.join path_datasets afw_folder) (in_afw I)) s1)
    as Ha.
  apply lapa_pass_names in E5. destruct E5 as [-> ->].
  apply menpo_pass_names in E4.
  destruct E4 as (lp1 & ls1 & lp2 & ls2 & M1 & M2 & M3 & M4 & -> & ->).
  unfold pexels_copy in E2. apply pexels_sets_fold in E2.
  destruct E2 as (Hn & _ & _). simpl in Hn. subst px.
  unfold helen_pass in E1.
  destruct (helen_skip_imgs R (listdir (helen_images (in_helen I))))
    as [skip_imgs|] eqn:Esk; [|discriminate].
  destruct (foldM _ (helen_annotations (in_helen I)) empty_pool) as [P1'|];
    [|discriminate].
  injection E1 as _ <-.
  exists skip_imgs, htr, hte,
         (fst (shuffle R (map (cleaned R) (pexels_label_files (in_pexels I)))
                 (seed_420 R))),
         (fst (shuffle R (afw_names R (Path.join path_datasets afw_folder) (in_afw I))
                 s1)),
         lp1, ls1, lp2, ls2.
  unfold split_names in Htr, Hva, Httxt, Hvtxt. cbn [fst snd] in Htr, Hva, Httxt, Hvtxt.
  repeat (split; [first [reflexivity | assumption]|]).
  rewrite Httxt, Hvtxt, Htr, Hva. unfold process_names. cbn [fst snd].
  rewrite !length_map. auto.
Qed.

Lemma manifest_composition_witness :
  main Sample.py Example.data_root ExampleAfw.two_names_tree
  = Some ExampleAfw.two_names_out
  /\ List.length (fst (train_txt ExampleAfw.two_names_out))
     = List.length (train_manifest ExampleAfw.two_names_out)
  /\ train_manifest ExampleAfw.two_names_out = [("1_1" : str); ("b" : str)].
Proof.
  assert (H : main Sample.py Example.data_root ExampleAfw.two_names_tree
              = Some ExampleAfw.two_names_out) by (vm_compute; reflexivity).
  split; [exact H|].
  destruct (@manifest_composition _ _ _ _ H)
    as (sk & htr & hte & px & af & l1 & l2 & l3 & l4 & _ & _ & _ & _ & _ & _ & _ & _ & _
        & _ & _ & Hlen & _).
  split; [exact Hlen | reflexivity].
Defined.
